(** * x402 PolicyKit: a shallow embedding of the policy engine, the seller
    middleware and the caller orchestrator, with the properties their
    specification states.

    Layout.
    - [JS]: the fragment of the JavaScript runtime the sources rely on
      (completion records, strings, numbers, BigInt parsing, JSON, base64).
    - [PolicyEngine]: packages/policy-engine (rules.ts, evaluator.ts, types).
    - [Worker]: packages/x402-worker (pricing.ts, verification.ts,
      middleware.ts).
    - [Client]: packages/x402-client (payment.ts, storage.ts, x402-fetch.ts).
    - [PolicyEvaluator], [Networks], [Router], [Signing] and
      [ClientPayment]: the evaluator object of evaluator.ts, networks.ts,
      the router of middleware.ts, the digests and the mock wallet, and the
      rest of payment.ts and storage.ts.
    - the theorem modules: [PolicyEngineProps], [WorkerProps] and
      [ClientProps], one per package, and [CodecProps] for the payment
      header both packages exchange; then [PolicyRulesProps],
      [PolicyStringsProps], [HashProps], [NetworksProps], [PaywallProps],
      [RouterProps], [OrchestratorProps], [LedgerProps], [SpendingProps],
      [ChainIdProps] and [ExpiryProps].

    Conventions.
    - USD amounts are IEEE-754 doubles, as in the sources: Rocq's primitive
      [float] with its [+], [<=?], [<?], [=?].
    - A JavaScript string is a [string]: a sequence of code units below 256
      (Latin-1), which is the domain of [btoa]/[atob].
    - Unix-second timestamps and chain identifiers are integral [number]s
      (an exact integer, NaN or an infinity).
    - A computation returns an [outcome]: a value, a thrown exception, or
      [OutOfModel] when the input leaves the fragment modelled here. *)

From Stdlib Require Import ZArith Lia Bool List String Ascii.
From Stdlib Require Import Decimal DecimalString DecimalZ DecimalPos DecimalFacts.
From Stdlib Require Import PrimFloat FloatOps SpecFloat.
From stdpp Require Import base option list gmap strings.
Import ListNotations.

#[local] Set Warnings "-register-all".
Local Open Scope string_scope.
Local Open Scope list_scope.
Local Open Scope Z_scope.

(* ================================================================== *)
(** * The JavaScript runtime fragment *)
(* ================================================================== *)
Module JS.

(** ** Completion records *)

Inductive builtin_exn : Type :=
| SyntaxError
| TypeError
| RangeError
| InvalidCharacterError.

Inductive outcome (E A : Type) : Type :=
| Ret (a : A)
| Throw (e : E)
| OutOfModel.
Arguments Ret {E A} a.
Arguments Throw {E A} e.
Arguments OutOfModel {E A}.

Definition bind {E A B} (m : outcome E A) (k : A -> outcome E B) : outcome E B :=
  match m with
  | Ret a => k a
  | Throw e => Throw e
  | OutOfModel => OutOfModel
  end.

(** [try { m } catch { h }]: a thrown exception is handled, a value and an
    out-of-model marker pass through. *)
Definition try_catch {E A} (m : outcome E A) (h : E -> outcome E A) : outcome E A :=
  match m with
  | Throw e => h e
  | other => other
  end.

Definition lift_exn {E E' A} (f : E -> E') (m : outcome E A) : outcome E' A :=
  match m with
  | Ret a => Ret a
  | Throw e => Throw (f e)
  | OutOfModel => OutOfModel
  end.

(** The monad structure, with stdpp's [x ← m; k] notation. *)
#[global] Instance outcome_ret {E} : MRet (outcome E) := fun A a => Ret a.
#[global] Instance outcome_bind {E} : MBind (outcome E) :=
  fun A B k m => bind m k.
#[global] Instance outcome_fmap {E} : FMap (outcome E) :=
  fun A B f m => bind m (fun a => Ret (f a)).

(** Stateful computations: the world is threaded through, and survives a
    thrown exception (JavaScript rolls nothing back). *)
Definition Eff (W E A : Type) : Type := W -> outcome E A * W.

Definition eff_ret {W E A} (a : A) : Eff W E A := fun w => (Ret a, w).

Definition eff_bind {W E A B} (m : Eff W E A) (k : A -> Eff W E B) : Eff W E B :=
  fun w =>
    match m w with
    | (Ret a, w') => k a w'
    | (Throw e, w') => (Throw e, w')
    | (OutOfModel, w') => (OutOfModel, w')
    end.

Definition eff_throw {W E A} (e : E) : Eff W E A := fun w => (Throw e, w).

(** A pure computation inside a stateful one. *)
Definition eff_lift {W E A} (m : outcome E A) : Eff W E A := fun w => (m, w).

Definition eff_get {W E} : Eff W E W := fun w => (Ret w, w).

Definition eff_modify {W E} (f : W -> W) : Eff W E unit := fun w => (Ret tt, f w).

(** [try { m } catch (e) { h e }] *)
Definition eff_try {W E A} (m : Eff W E A) (h : E -> Eff W E A) : Eff W E A :=
  fun w =>
    match m w with
    | (Throw e, w') => h e w'
    | other => other
    end.

#[global] Instance eff_mret {W E} : MRet (Eff W E) := fun A a => eff_ret a.
#[global] Instance eff_mbind {W E} : MBind (Eff W E) :=
  fun A B k m => eff_bind m k.

(** ** Strings *)

(** The double quote and the backslash, built from their codes. *)
Definition dquote : string := String (ascii_of_nat 34) EmptyString.
Definition backslash : string := String (ascii_of_nat 92) EmptyString.

Definition code (c : ascii) : N := N_of_ascii c.

(** [!s] is false exactly for the empty string. *)
Definition truthy_string (s : string) : bool :=
  match s with EmptyString => false | _ => true end.

(** [s.startsWith(p)] *)
Definition startsWith (s p : string) : bool := String.prefix p s.

(** [s.endsWith(p)] *)
Definition endsWith (s p : string) : bool :=
  let n := String.length s in
  let m := String.length p in
  if (m <=? n)%nat then String.eqb (String.substring (n - m) m s) p else false.

(** [l.includes(x)] on an array of strings. *)
Definition includes (l : list string) (x : string) : bool :=
  existsb (String.eqb x) l.

(** [l.join(sep)] *)
Definition join (sep : string) (l : list string) : string := String.concat sep l.

(** [String.prototype.toLowerCase] on Latin-1: A-Z and the accented capitals
    U+00C0..U+00DE (U+00D7, the multiplication sign, apart) move up by 32. *)
Definition lower_char (c : ascii) : ascii :=
  let n := code c in
  if ((65 <=? n) && (n <=? 90))%N then ascii_of_N (n + 32)
  else if ((192 <=? n) && (n <=? 222) && negb (n =? 215))%N then ascii_of_N (n + 32)
  else c.

Fixpoint toLowerCase (s : string) : string :=
  match s with
  | EmptyString => EmptyString
  | String c s' => String (lower_char c) (toLowerCase s')
  end.

(** [s.split(sep)] for a one-character separator. *)
Fixpoint split_on (sep : ascii) (s : string) : list string :=
  match s with
  | EmptyString => [EmptyString]
  | String c s' =>
      if Ascii.eqb c sep then EmptyString :: split_on sep s'
      else match split_on sep s' with
           | [] => [String c EmptyString]
           | w :: ws => String c w :: ws
           end
  end.

(** ** Numbers *)

(** Doubles (USD amounts). [!x] holds for zero (of either sign) and NaN. *)
Definition truthy_float (x : float) : bool := negb (is_zero x || is_nan x).

(** [Math.max(a, b)]: NaN if either is NaN, and [+0] above [-0]. *)
Definition Math_max (a b : float) : float :=
  if is_nan a || is_nan b then nan
  else if (a <? b)%float then b
  else if (b <? a)%float then a
  else if is_zero a && get_sign a then b
  else a.

(** Integral numbers: what the protocol puts in [expiry] and [chainId].
    [Int z] stands for the double equal to [z]; it is exact for
    [|z| <= 2^53]. *)
Inductive number : Type :=
| Int (z : Z)
| NaN
| PosInf
| NegInf.

Definition safe_integer (z : Z) : bool := (Z.abs z <=? 9007199254740992).

(** [a < b] *)
Definition num_lt (a b : number) : bool :=
  match a, b with
  | NaN, _ | _, NaN => false
  | Int x, Int y => x <? y
  | NegInf, NegInf => false
  | NegInf, _ => true
  | _, PosInf => match a with PosInf => false | _ => true end
  | _, _ => false
  end.

(** [a === b] on numbers: NaN differs from itself. *)
Definition num_strict_eq (a b : number) : bool :=
  match a, b with
  | Int x, Int y => x =? y
  | PosInf, PosInf | NegInf, NegInf => true
  | _, _ => false
  end.

Definition num_is_finite (a : number) : bool :=
  match a with Int _ => true | _ => false end.

(** Decimal digits of an integer, as [Number::toString] and
    [BigInt::toString] print it. *)
Definition Z_toString (z : Z) : string := NilZero.string_of_int (Z.to_int z).

(** [n.toString()] and template interpolation of a number. *)
Definition Number_toString (n : number) : string :=
  match n with
  | Int z => Z_toString z
  | NaN => "NaN"
  | PosInf => "Infinity"
  | NegInf => "-Infinity"
  end.

(** ** Platform functions *)

(** What the sources call and this development leaves abstract: the
    printing of doubles, the regular-expression engine and the ISO-8601
    text of a date. *)
Class JSRuntime : Type := {
  (** [x.toFixed(digits)] *)
  Number_toFixed : float -> nat -> string;
  (** [x.toString()], and a double in JSON text *)
  Double_toString : float -> string;
  (** [new RegExp(source).test(subject)]; the constructor may throw a
      SyntaxError *)
  RegExp_test : string -> string -> outcome builtin_exn bool;
  (** [new Date(ms).toISOString()] for a time value in range *)
  Date_toISOString : Z -> string;
}.

(** ** BigInt(string) *)

(** White space that [StringToBigInt] trims, within Latin-1. *)
Definition is_StrWhiteSpace (c : ascii) : bool :=
  let n := code c in
  ((9 <=? n) && (n <=? 13) || (n =? 32) || (n =? 160))%N.

Fixpoint trim_start (s : string) : string :=
  match s with
  | String c s' => if is_StrWhiteSpace c then trim_start s' else s
  | EmptyString => EmptyString
  end.

Definition trim (s : string) : string :=
  String.rev (trim_start (String.rev (trim_start s))).

(** The value of a digit in a base up to 16. *)
Definition digit_value (base : N) (c : ascii) : option N :=
  let n := code c in
  let v := if ((48 <=? n) && (n <=? 57))%N then Some (n - 48)%N
           else if ((97 <=? n) && (n <=? 102))%N then Some (n - 87)%N
           else if ((65 <=? n) && (n <=? 70))%N then Some (n - 55)%N
           else None in
  match v with
  | Some d => if (d <? base)%N then Some d else None
  | None => None
  end.

Fixpoint digits_value (base : N) (acc : N) (s : string) : option N :=
  match s with
  | EmptyString => Some acc
  | String c s' =>
      match digit_value base c with
      | Some d => digits_value base (acc * base + d)%N s'
      | None => None
      end
  end.

(** One or more digits of the base. *)
Definition nonempty_digits (base : N) (s : string) : option Z :=
  match s with
  | EmptyString => None
  | _ => Z.of_N <$> digits_value base 0%N s
  end.

(** [StringToBigInt]: surrounding white space, then nothing (zero), signed
    decimal digits, or unsigned hexadecimal, octal or binary digits. *)
Definition StringToBigInt (s : string) : option Z :=
  match trim s with
  | EmptyString => Some 0
  | String "0" (String "x" r) | String "0" (String "X" r) => nonempty_digits 16 r
  | String "0" (String "o" r) | String "0" (String "O" r) => nonempty_digits 8 r
  | String "0" (String "b" r) | String "0" (String "B" r) => nonempty_digits 2 r
  | String "-" r => Z.opp <$> nonempty_digits 10 r
  | String "+" r => nonempty_digits 10 r
  | r => nonempty_digits 10 r
  end.

(** [BigInt(s)] for a string [s]: a SyntaxError when it does not parse. *)
Definition BigInt (s : string) : outcome builtin_exn Z :=
  match StringToBigInt s with
  | Some z => Ret z
  | None => Throw SyntaxError
  end.

(** ** JSON *)

(** JSON values. A number is an integral [number] ([JNum]) or a double
    ([JDouble], the USD prices); the parser below reads integers only. *)
Inductive JSON : Type :=
| JNull
| JBool (b : bool)
| JNum (n : number)
| JDouble (x : float)
| JStr (s : string)
| JArr (items : list JSON)
| JObj (fields : list (string * JSON)).

Definition hex_digit (n : N) : ascii :=
  if (n <? 10)%N then ascii_of_N (48 + n) else ascii_of_N (87 + n).

(** [QuoteJSONString], one code unit. *)
Definition escape_char (c : ascii) : string :=
  let n := code c in
  if (n =? 34)%N then backslash +:+ dquote
  else if (n =? 92)%N then backslash +:+ backslash
  else if (n =? 8)%N then backslash +:+ "b"
  else if (n =? 12)%N then backslash +:+ "f"
  else if (n =? 10)%N then backslash +:+ "n"
  else if (n =? 13)%N then backslash +:+ "r"
  else if (n =? 9)%N then backslash +:+ "t"
  else if (n <? 32)%N then
    backslash +:+ "u00" +:+ String (hex_digit (n / 16)) (String (hex_digit (n mod 16)) EmptyString)
  else String c EmptyString.

Fixpoint escape_string (s : string) : string :=
  match s with
  | EmptyString => EmptyString
  | String c s' => escape_char c +:+ escape_string s'
  end.

Definition QuoteJSONString (s : string) : string :=
  dquote +:+ escape_string s +:+ dquote.

(** A number in JSON text: the digits of a finite number, [null] otherwise. *)
Definition stringify_number (n : number) : string :=
  match n with
  | Int z => Z_toString z
  | _ => "null"
  end.

(** [JSON.stringify(v)] *)
Fixpoint JSON_stringify `{JSRuntime} (v : JSON) : string :=
  match v with
  | JNull => "null"
  | JBool true => "true"
  | JBool false => "false"
  | JNum n => stringify_number n
  | JDouble x => if is_finite x then Double_toString x else "null"
  | JStr s => QuoteJSONString s
  | JArr items => "[" +:+ join "," (map JSON_stringify items) +:+ "]"
  | JObj fields =>
      "{" +:+ join "," (map (fun kv => QuoteJSONString (fst kv) +:+ ":" +:+ JSON_stringify (snd kv)) fields)
      +:+ "}"
  end.

Definition is_json_ws (c : ascii) : bool :=
  let n := code c in ((n =? 32) || (n =? 9) || (n =? 10) || (n =? 13))%N.

Fixpoint skip_ws (s : string) : string :=
  match s with
  | String c s' => if is_json_ws c then skip_ws s' else s
  | EmptyString => EmptyString
  end.

Definition hex4 (a b c d : ascii) : option N :=
  match digit_value 16 a, digit_value 16 b, digit_value 16 c, digit_value 16 d with
  | Some x, Some y, Some z, Some w => Some (((x * 16 + y) * 16 + z) * 16 + w)%N
  | _, _, _, _ => None
  end.

Definition cons_char (c : ascii) (r : outcome builtin_exn (string * string))
    : outcome builtin_exn (string * string) :=
  '(str, rest) ← r; Ret (String c str, rest).

(** The characters of a string literal after its opening quote, up to and
    including the closing quote. An escape that names a code unit above 255
    leaves the Latin-1 model. *)
Fixpoint parse_string_chars (s : string) : outcome builtin_exn (string * string) :=
  match s with
  | EmptyString => Throw SyntaxError
  | String c s' =>
      if (code c =? 34)%N then Ret (EmptyString, s')
      else if (code c =? 92)%N then
        match s' with
        | String e s'' =>
            if (code e =? 34)%N then cons_char e (parse_string_chars s'')
            else if (code e =? 92)%N then cons_char e (parse_string_chars s'')
            else if Ascii.eqb e "/" then cons_char e (parse_string_chars s'')
            else if Ascii.eqb e "b" then cons_char (ascii_of_N 8) (parse_string_chars s'')
            else if Ascii.eqb e "f" then cons_char (ascii_of_N 12) (parse_string_chars s'')
            else if Ascii.eqb e "n" then cons_char (ascii_of_N 10) (parse_string_chars s'')
            else if Ascii.eqb e "r" then cons_char (ascii_of_N 13) (parse_string_chars s'')
            else if Ascii.eqb e "t" then cons_char (ascii_of_N 9) (parse_string_chars s'')
            else if Ascii.eqb e "u" then
              match s'' with
              | String h1 (String h2 (String h3 (String h4 s4))) =>
                  match hex4 h1 h2 h3 h4 with
                  | Some n =>
                      if (n <? 256)%N then cons_char (ascii_of_N n) (parse_string_chars s4)
                      else OutOfModel
                  | None => Throw SyntaxError
                  end
              | _ => Throw SyntaxError
              end
            else Throw SyntaxError
        | EmptyString => Throw SyntaxError
        end
      else if (code c <? 32)%N then Throw SyntaxError
      else cons_char c (parse_string_chars s')
  end.

Definition is_digit (c : ascii) : bool := ((48 <=? code c) && (code c <=? 57))%N.

(** The longest run of decimal digits at the head of [s], as a number. *)
Fixpoint scan_digits (acc : N) (s : string) : N * string :=
  match s with
  | String c s' =>
      if is_digit c then scan_digits (acc * 10 + (code c - 48))%N s' else (acc, s)
  | EmptyString => (acc, EmptyString)
  end.

Definition starts_fraction_or_exponent (s : string) : bool :=
  match s with
  | String c _ => Ascii.eqb c "." || Ascii.eqb c "e" || Ascii.eqb c "E"
  | EmptyString => false
  end.

(** The integer part of a JSON number: [0], or a non-zero digit and more
    digits. A fraction or an exponent, and an integer beyond 2^53, leave the
    model of integral numbers. *)
Definition parse_unsigned (s : string) : outcome builtin_exn (Z * string) :=
  match s with
  | String c s' =>
      if Ascii.eqb c "0" then
        if starts_fraction_or_exponent s' then OutOfModel else Ret (0, s')
      else if is_digit c then
        let '(n, rest) := scan_digits 0 s in
        if starts_fraction_or_exponent rest then OutOfModel
        else if safe_integer (Z.of_N n) then Ret (Z.of_N n, rest)
        else OutOfModel
      else Throw SyntaxError
  | EmptyString => Throw SyntaxError
  end.

Definition parse_number (s : string) : outcome builtin_exn (JSON * string) :=
  match s with
  | String "-" s' => '(z, rest) ← parse_unsigned s'; Ret (JNum (Int (- z)), rest)
  | _ => '(z, rest) ← parse_unsigned s; Ret (JNum (Int z), rest)
  end.

Definition expect_literal (lit : string) (v : JSON) (s : string)
    : outcome builtin_exn (JSON * string) :=
  if String.prefix lit s
  then Ret (v, String.substring (String.length lit) (String.length s - String.length lit) s)
  else Throw SyntaxError.

(** Recursive descent over the JSON grammar. [fuel] bounds the number of
    nested calls; every call consumes a character first, so the length of
    the text (plus one) is enough, and [JSON_parse] starts with that. *)
Fixpoint parse_value (fuel : nat) (s : string) : outcome builtin_exn (JSON * string) :=
  match fuel with
  | O => OutOfModel
  | S fuel' =>
      match skip_ws s with
      | EmptyString => Throw SyntaxError
      | String c s' =>
          if Ascii.eqb c "{" then
            match skip_ws s' with
            | String "}" rest => Ret (JObj [], rest)
            | _ => parse_members fuel' s' []
            end
          else if Ascii.eqb c "[" then
            match skip_ws s' with
            | String "]" rest => Ret (JArr [], rest)
            | _ => parse_elements fuel' s' []
            end
          else if (code c =? 34)%N then
            '(str, rest) ← parse_string_chars s'; Ret (JStr str, rest)
          else if Ascii.eqb c "-" || is_digit c then parse_number (String c s')
          else if Ascii.eqb c "t" then expect_literal "true" (JBool true) (String c s')
          else if Ascii.eqb c "f" then expect_literal "false" (JBool false) (String c s')
          else if Ascii.eqb c "n" then expect_literal "null" JNull (String c s')
          else Throw SyntaxError
      end
  end
with parse_members (fuel : nat) (s : string) (acc : list (string * JSON))
    : outcome builtin_exn (JSON * string) :=
  match fuel with
  | O => OutOfModel
  | S fuel' =>
      match skip_ws s with
      | String c s1 =>
          if (code c =? 34)%N then
            '(key, s2) ← parse_string_chars s1;
            match skip_ws s2 with
            | String ":" s3 =>
                '(v, s4) ← parse_value fuel' s3;
                match skip_ws s4 with
                | String "," s5 => parse_members fuel' s5 (acc ++ [(key, v)])%list
                | String "}" s5 => Ret (JObj (acc ++ [(key, v)])%list, s5)
                | _ => Throw SyntaxError
                end
            | _ => Throw SyntaxError
            end
          else Throw SyntaxError
      | EmptyString => Throw SyntaxError
      end
  end
with parse_elements (fuel : nat) (s : string) (acc : list JSON)
    : outcome builtin_exn (JSON * string) :=
  match fuel with
  | O => OutOfModel
  | S fuel' =>
      '(v, s1) ← parse_value fuel' s;
      match skip_ws s1 with
      | String "," s2 => parse_elements fuel' s2 (acc ++ [v])%list
      | String "]" s2 => Ret (JArr (acc ++ [v])%list, s2)
      | _ => Throw SyntaxError
      end
  end.

(** [JSON.parse(text)] *)
Definition JSON_parse (text : string) : outcome builtin_exn JSON :=
  '(v, rest) ← parse_value (S (String.length text)) text;
  match skip_ws rest with
  | EmptyString => Ret v
  | _ => Throw SyntaxError
  end.

(** A JavaScript value read back from parsed JSON: a JSON value, or
    [undefined] ([None]) for a property that is not there. *)
Definition JSValue : Type := option JSON.

(** [fields[key]] on a parsed object: the last member with that key. *)
Fixpoint lookup_field (key : string) (fields : list (string * JSON)) : JSValue :=
  match fields with
  | [] => None
  | (k, v) :: rest =>
      match lookup_field key rest with
      | Some later => Some later
      | None => if String.eqb k key then Some v else None
      end
  end.

(** [payload.key] for a key no prototype defines: a TypeError on [null],
    [undefined] on the other primitives and on arrays. *)
Definition get_property (payload : JSON) (key : string) : outcome builtin_exn JSValue :=
  match payload with
  | JNull => Throw TypeError
  | JObj fields => Ret (lookup_field key fields)
  | _ => Ret None
  end.

(** [!!v] *)
Definition truthy (v : JSValue) : bool :=
  match v with
  | None | Some JNull => false
  | Some (JBool b) => b
  | Some (JNum (Int z)) => negb (z =? 0)
  | Some (JNum NaN) => false
  | Some (JNum _) => true
  | Some (JDouble x) => truthy_float x
  | Some (JStr s) => truthy_string s
  | Some (JArr _) | Some (JObj _) => true
  end.

(** ** base64: [btoa] and [atob] *)

Definition b64_char (n : N) : ascii :=
  if (n <? 26)%N then ascii_of_N (65 + n)
  else if (n <? 52)%N then ascii_of_N (71 + n)
  else if (n <? 62)%N then ascii_of_N (n - 4)
  else if (n =? 62)%N then "+"%char
  else "/"%char.

Definition b64_value (c : ascii) : option N :=
  let n := code c in
  if ((65 <=? n) && (n <=? 90))%N then Some (n - 65)%N
  else if ((97 <=? n) && (n <=? 122))%N then Some (n - 71)%N
  else if ((48 <=? n) && (n <=? 57))%N then Some (n + 4)%N
  else if (n =? 43)%N then Some 62%N
  else if (n =? 47)%N then Some 63%N
  else None.

Fixpoint b64_encode (s : string) : string :=
  match s with
  | EmptyString => EmptyString
  | String a EmptyString =>
      String (b64_char (code a / 4))
        (String (b64_char (code a mod 4 * 16)) "==")
  | String a (String b EmptyString) =>
      String (b64_char (code a / 4))
        (String (b64_char (code a mod 4 * 16 + code b / 16))
           (String (b64_char (code b mod 16 * 4)) "="))
  | String a (String b (String c rest)) =>
      String (b64_char (code a / 4))
        (String (b64_char (code a mod 4 * 16 + code b / 16))
           (String (b64_char (code b mod 16 * 4 + code c / 64))
              (String (b64_char (code c mod 64)) (b64_encode rest))))
  end.

(** [btoa(s)]: every code unit of a [string] is below 256, so the
    InvalidCharacterError of wider strings cannot arise here. *)
Definition btoa (s : string) : outcome builtin_exn string := Ret (b64_encode s).

Definition is_ascii_ws (c : ascii) : bool :=
  let n := code c in
  ((n =? 9) || (n =? 10) || (n =? 12) || (n =? 13) || (n =? 32))%N.

Fixpoint remove_ascii_ws (s : string) : list ascii :=
  match s with
  | EmptyString => []
  | String c s' => if is_ascii_ws c then remove_ascii_ws s' else c :: remove_ascii_ws s'
  end.

(** Drop one or two [=] at the end. *)
Fixpoint strip_padding (l : list ascii) : list ascii :=
  match l with
  | [] => []
  | [c] => if Ascii.eqb c "=" then [] else [c]
  | [c1; c2] =>
      if Ascii.eqb c2 "=" then (if Ascii.eqb c1 "=" then [] else [c1]) else [c1; c2]
  | c :: rest => c :: strip_padding rest
  end.

Fixpoint b64_values (l : list ascii) : option (list N) :=
  match l with
  | [] => Some []
  | c :: rest =>
      match b64_value c, b64_values rest with
      | Some v, Some vs => Some (v :: vs)
      | _, _ => None
      end
  end.

Fixpoint b64_decode (vs : list N) : string :=
  match vs with
  | v1 :: v2 :: v3 :: v4 :: rest =>
      String (ascii_of_N (v1 * 4 + v2 / 16))
        (String (ascii_of_N (v2 mod 16 * 16 + v3 / 4))
           (String (ascii_of_N (v3 mod 4 * 64 + v4)) (b64_decode rest)))
  | [v1; v2; v3] =>
      String (ascii_of_N (v1 * 4 + v2 / 16))
        (String (ascii_of_N (v2 mod 16 * 16 + v3 / 4)) EmptyString)
  | [v1; v2] => String (ascii_of_N (v1 * 4 + v2 / 16)) EmptyString
  | _ => EmptyString
  end.

(** [atob(s)], the forgiving base64 decoding of the HTML standard: ASCII
    white space is dropped, padding is optional, a length of 1 modulo 4 and
    a character outside the alphabet are errors. *)
Definition atob (s : string) : outcome builtin_exn string :=
  let data := remove_ascii_ws s in
  let data := if (length data mod 4 =? 0)%nat then strip_padding data else data in
  if (length data mod 4 =? 1)%nat then Throw InvalidCharacterError
  else match b64_values data with
       | Some vs => Ret (b64_decode vs)
       | None => Throw InvalidCharacterError
       end.

(** ** Radix printing and the Fetch API types *)

Definition radix_digit (d : N) : ascii :=
  if (d <? 10)%N then ascii_of_N (48 + d) else ascii_of_N (87 + d).

Fixpoint to_radix_fuel (fuel : nat) (base n : N) (acc : string) : string :=
  match fuel with
  | O => acc
  | S fuel' =>
      if (n <? base)%N then String (radix_digit n) acc
      else to_radix_fuel fuel' base (n / base)%N (String (radix_digit (n mod base)) acc)
  end.

(** [n.toString(base)] for an integer [n] and a base from 2 to 36. *)
Definition to_radix (base : N) (n : Z) : string :=
  let digits := to_radix_fuel (S (N.size_nat (Z.abs_N n))) base (Z.abs_N n) EmptyString in
  if n <? 0 then "-" +:+ digits else digits.

(** A parsed absolute URL: what [new URL(url)] yields. *)
Record URL : Type := {
  href : string;
  pathname : string;
  hostname : string;
}.

(** [Headers]: names are matched without regard to case; each name occurs
    once. *)
Definition Headers : Type := list (string * string).

Fixpoint headers_get (hs : Headers) (name : string) : option string :=
  match hs with
  | [] => None
  | (k, v) :: rest =>
      if String.eqb (toLowerCase k) (toLowerCase name) then Some v
      else headers_get rest name
  end.

Fixpoint headers_set (hs : Headers) (name value : string) : Headers :=
  match hs with
  | [] => [(name, value)]
  | (k, v) :: rest =>
      if String.eqb (toLowerCase k) (toLowerCase name) then (k, value) :: rest
      else (k, v) :: headers_set rest name value
  end.

Record Request : Type := {
  url : URL;
  method : string;
  req_headers : Headers;
  req_body : string;
}.

Record Response : Type := {
  status : Z;
  statusText : string;
  resp_headers : Headers;
  resp_body : string;
}.

(** [response.ok] *)
Definition ok (r : Response) : bool := (200 <=? status r) && (status r <=? 299).

(** [a || b] on header values: [a] unless it is [null] or empty. *)
Definition or_else (a b : option string) : option string :=
  match a with
  | Some s => if truthy_string s then a else b
  | None => b
  end.

(** [!v] on a header value. *)
Definition present (v : option string) : bool :=
  match v with
  | Some s => truthy_string s
  | None => false
  end.

(** The largest time value of a [Date], in milliseconds. *)
Definition max_time_value : Z := 8640000000000000.

(** [new Date(seconds * 1000).toISOString()]: a RangeError on an invalid
    date. *)
Definition iso_of_seconds `{JSRuntime} (seconds : number) : outcome builtin_exn string :=
  match seconds with
  | Int z =>
      if Z.abs (z * 1000) <=? max_time_value then Ret (Date_toISOString (z * 1000))
      else Throw RangeError
  | _ => Throw RangeError
  end.

(** [ToInt32] *)
Definition to_int32 (z : Z) : Z :=
  let m := z mod 4294967296 in
  if 2147483648 <=? m then m - 4294967296 else m.

End JS.

(* ================================================================== *)
(** * packages/policy-engine *)
(* ================================================================== *)
Module PolicyEngine.
Import JS.

(** ** types.ts *)

(** [Policy]. The optional [metadata] bag is not read by any rule and is
    left out. [allowTools] is declared mandatory, but every rule guards
    against its absence, so it is optional here as well. *)
Record Policy : Type := {
  id : string;
  name : string;
  dailyCapUsd : float;
  weeklyCapUsd : option float;
  perCallCapUsd : float;
  allowTools : option (list string);
  denyTools : option (list string);
  allowDomains : option (list string);
  denyDomains : option (list string);
  endpointCaps : option (gmap string float);
  enabled : bool;
}.

(** [SpendContext]; [timestamp] is a [Date], in milliseconds. *)
Record SpendContext : Type := {
  sc_callerId : string;
  dailySpentUsd : float;
  weeklySpentUsd : float;
  dailyCallCount : Z;
  sc_timestamp : Z;
}.

Record PaymentRequest : Type := {
  endpoint : string;
  tool : string;
  domain : string;
  priceUsd : float;
  callerId : string;
}.

(** The values a rule reports in its [values] bag. *)
Inductive Value : Type :=
| VBool (b : bool)
| VNum (x : float)
| VStr (s : string)
| VStrings (l : list string).

Record RuleTrace : Type := {
  rt_ruleId : string;
  ruleName : string;
  passed : bool;
  rt_reason : string;
  values : list (string * Value);
}.

Record PolicyDecision : Type := {
  allow : bool;
  reason : string;
  ruleId : string;
  projectedSpend : float;
  currentDailySpend : float;
  currentWeeklySpend : float;
  remainingDailyBudget : float;
  remainingWeeklyBudget : option float;
  policyId : string;
  timestamp : Z;
  trace : list RuleTrace;
}.

Definition DEFAULT_POLICY : Policy := {|
  id := "default";
  name := "Default Policy";
  dailyCapUsd := 1%float;
  weeklyCapUsd := Some 5%float;
  perCallCapUsd := 0x1.999999999999ap-4%float;
  allowTools := Some [];
  denyTools := Some [];
  allowDomains := Some [];
  denyDomains := Some [];
  endpointCaps := Some ∅;
  enabled := true;
|}.

(** ** rules.ts *)

Definition RuleFunction : Type := Policy -> PaymentRequest -> SpendContext -> RuleTrace.

Section Rules.
Context `{JSRuntime}.

Definition policyEnabledRule : RuleFunction := fun policy _ _ =>
  {| rt_ruleId := "policy_enabled";
     ruleName := "Policy Enabled Check";
     passed := enabled policy;
     rt_reason := if enabled policy then "Policy is enabled"
                  else "Policy is disabled - all payments blocked";
     values := [("enabled", VBool (enabled policy))] |}.

(** [policy.endpointCaps?.[request.endpoint]] *)
Definition endpointCap (policy : Policy) (request : PaymentRequest) : option float :=
  match endpointCaps policy with
  | Some caps => caps !! endpoint request
  | None => None
  end.

(** [policy.endpointCaps?.[request.endpoint] ?? policy.perCallCapUsd] *)
Definition effectivePerCallCap (policy : Policy) (request : PaymentRequest) : float :=
  match endpointCap policy request with
  | Some cap => cap
  | None => perCallCapUsd policy
  end.

Definition perCallCapRule : RuleFunction := fun policy request _ =>
  let cap := effectivePerCallCap policy request in
  let passed := (priceUsd request <=? cap)%float in
  {| rt_ruleId := "per_call_cap";
     ruleName := "Per-Call Cap";
     passed := passed;
     rt_reason :=
       if passed
       then "Price $" +:+ Number_toFixed (priceUsd request) 4
            +:+ " within per-call cap of $" +:+ Number_toFixed cap 2
       else "Price $" +:+ Number_toFixed (priceUsd request) 4
            +:+ " exceeds per-call cap of $" +:+ Number_toFixed cap 2;
     values := [("price", VNum (priceUsd request));
                ("cap", VNum cap);
                ("endpoint", VStr (endpoint request));
                ("hasCustomCap",
                 VBool (match endpointCap policy request with
                        | Some c => truthy_float c
                        | None => false
                        end))] |}.

Definition dailyCapRule : RuleFunction := fun policy request context =>
  let projectedSpend := (dailySpentUsd context + priceUsd request)%float in
  let passed := (projectedSpend <=? dailyCapUsd policy)%float in
  {| rt_ruleId := "daily_cap";
     ruleName := "Daily Cap";
     passed := passed;
     rt_reason :=
       if passed
       then "Projected daily spend $" +:+ Number_toFixed projectedSpend 4
            +:+ " within cap of $" +:+ Number_toFixed (dailyCapUsd policy) 2
       else "Projected daily spend $" +:+ Number_toFixed projectedSpend 4
            +:+ " exceeds cap of $" +:+ Number_toFixed (dailyCapUsd policy) 2;
     values := [("currentSpend", VNum (dailySpentUsd context));
                ("requestPrice", VNum (priceUsd request));
                ("projectedSpend", VNum projectedSpend);
                ("cap", VNum (dailyCapUsd policy));
                ("remaining", VNum (dailyCapUsd policy - dailySpentUsd context)%float)] |}.

(** The cap the weekly rule enforces: [if (!policy.weeklyCapUsd)] skips the
    rule when the field is absent, and also when it is [0] or NaN. *)
Definition enforcedWeeklyCap (policy : Policy) : option float :=
  match weeklyCapUsd policy with
  | Some cap => if truthy_float cap then Some cap else None
  | None => None
  end.

Definition weeklyCapRule : RuleFunction := fun policy request context =>
  match enforcedWeeklyCap policy with
  | None =>
      {| rt_ruleId := "weekly_cap";
         ruleName := "Weekly Cap";
         passed := true;
         rt_reason := "No weekly cap configured";
         values := [("configured", VBool false)] |}
  | Some cap =>
      let projectedSpend := (weeklySpentUsd context + priceUsd request)%float in
      let passed := (projectedSpend <=? cap)%float in
      {| rt_ruleId := "weekly_cap";
         ruleName := "Weekly Cap";
         passed := passed;
         rt_reason :=
           if passed
           then "Projected weekly spend $" +:+ Number_toFixed projectedSpend 4
                +:+ " within cap of $" +:+ Number_toFixed cap 2
           else "Projected weekly spend $" +:+ Number_toFixed projectedSpend 4
                +:+ " exceeds cap of $" +:+ Number_toFixed cap 2;
         values := [("currentSpend", VNum (weeklySpentUsd context));
                    ("requestPrice", VNum (priceUsd request));
                    ("projectedSpend", VNum projectedSpend);
                    ("cap", VNum cap);
                    ("remaining", VNum (cap - weeklySpentUsd context)%float)] |}
  end.

(** [!list || list.length === 0] *)
Definition unconfigured (l : option (list string)) : bool :=
  match l with
  | None | Some [] => true
  | Some (_ :: _) => false
  end.

Definition entries (l : option (list string)) : list string :=
  match l with Some xs => xs | None => [] end.

Definition toolAllowlistRule : RuleFunction := fun policy request _ =>
  if unconfigured (allowTools policy) then
    {| rt_ruleId := "tool_allowlist";
       ruleName := "Tool Allowlist";
       passed := true;
       rt_reason := "No tool allowlist configured - all tools allowed";
       values := [("configured", VBool false)] |}
  else
    let allowlist := entries (allowTools policy) in
    let passed := includes allowlist (tool request) in
    {| rt_ruleId := "tool_allowlist";
       ruleName := "Tool Allowlist";
       passed := passed;
       rt_reason :=
         if passed
         then "Tool " +:+ dquote +:+ tool request +:+ dquote +:+ " is in allowlist"
         else "Tool " +:+ dquote +:+ tool request +:+ dquote
              +:+ " is not in allowlist [" +:+ join ", " allowlist +:+ "]";
       values := [("tool", VStr (tool request)); ("allowlist", VStrings allowlist)] |}.

Definition toolDenylistRule : RuleFunction := fun policy request _ =>
  if unconfigured (denyTools policy) then
    {| rt_ruleId := "tool_denylist";
       ruleName := "Tool Denylist";
       passed := true;
       rt_reason := "No tool denylist configured";
       values := [("configured", VBool false)] |}
  else
    let denylist := entries (denyTools policy) in
    let passed := negb (includes denylist (tool request)) in
    {| rt_ruleId := "tool_denylist";
       ruleName := "Tool Denylist";
       passed := passed;
       rt_reason :=
         if passed
         then "Tool " +:+ dquote +:+ tool request +:+ dquote +:+ " is not in denylist"
         else "Tool " +:+ dquote +:+ tool request +:+ dquote +:+ " is blocked by denylist";
       values := [("tool", VStr (tool request)); ("denylist", VStrings denylist)] |}.

(** [request.domain === d || request.domain.endsWith(`.${d}`)] *)
Definition domainMatches (dom d : string) : bool :=
  String.eqb dom d || endsWith dom ("." +:+ d).

Definition domainAllowlistRule : RuleFunction := fun policy request _ =>
  if unconfigured (allowDomains policy) then
    {| rt_ruleId := "domain_allowlist";
       ruleName := "Domain Allowlist";
       passed := true;
       rt_reason := "No domain allowlist configured - all domains allowed";
       values := [("configured", VBool false)] |}
  else
    let allowlist := entries (allowDomains policy) in
    let passed := existsb (domainMatches (domain request)) allowlist in
    {| rt_ruleId := "domain_allowlist";
       ruleName := "Domain Allowlist";
       passed := passed;
       rt_reason :=
         if passed
         then "Domain " +:+ dquote +:+ domain request +:+ dquote +:+ " is in allowlist"
         else "Domain " +:+ dquote +:+ domain request +:+ dquote
              +:+ " is not in allowlist [" +:+ join ", " allowlist +:+ "]";
       values := [("domain", VStr (domain request)); ("allowlist", VStrings allowlist)] |}.

Definition domainDenylistRule : RuleFunction := fun policy request _ =>
  if unconfigured (denyDomains policy) then
    {| rt_ruleId := "domain_denylist";
       ruleName := "Domain Denylist";
       passed := true;
       rt_reason := "No domain denylist configured";
       values := [("configured", VBool false)] |}
  else
    let denylist := entries (denyDomains policy) in
    let isDenied := existsb (domainMatches (domain request)) denylist in
    let passed := negb isDenied in
    {| rt_ruleId := "domain_denylist";
       ruleName := "Domain Denylist";
       passed := passed;
       rt_reason :=
         if passed
         then "Domain " +:+ dquote +:+ domain request +:+ dquote +:+ " is not in denylist"
         else "Domain " +:+ dquote +:+ domain request +:+ dquote +:+ " is blocked by denylist";
       values := [("domain", VStr (domain request)); ("denylist", VStrings denylist)] |}.

(** All rules in evaluation order. *)
Definition ALL_RULES : list RuleFunction :=
  [ policyEnabledRule;
    toolDenylistRule;
    domainDenylistRule;
    toolAllowlistRule;
    domainAllowlistRule;
    perCallCapRule;
    dailyCapRule;
    weeklyCapRule ].

End Rules.
(** ** evaluator.ts *)

Record EvaluatorOptions : Type := {
  (** custom rules to use instead of the defaults *)
  rules : option (list RuleFunction);
  (** whether to continue after the first failure *)
  fullTrace : option bool;
}.

(** [options = {}] *)
Definition no_options : EvaluatorOptions := {| rules := None; fullTrace := None |}.

Section Evaluator.
Context `{JSRuntime}.

(** The [for (const rule of rules)] loop of [evaluatePolicy], with its three
    mutable variables [trace], [allow] and [failedRule] as accumulators.
    Leaving the recursion is the [break]. *)
Fixpoint runRules (rules : list RuleFunction) (fullTrace : bool)
    (policy : Policy) (request : PaymentRequest) (context : SpendContext)
    (trace : list RuleTrace) (allow : bool) (failedRule : option RuleTrace)
    : list RuleTrace * bool * option RuleTrace :=
  match rules with
  | [] => (trace, allow, failedRule)
  | rule :: rest =>
      let result := rule policy request context in
      let trace := (trace ++ [result])%list in
      if negb (passed result) then
        let allow := false in
        let failedRule :=
          match failedRule with
          | None => Some result
          | Some first => Some first
          end in
        if negb fullTrace then (trace, allow, failedRule)
        else runRules rest fullTrace policy request context trace allow failedRule
      else runRules rest fullTrace policy request context trace allow failedRule
  end.

(** [evaluatePolicy(policy, request, context, options)]; [now] is the value
    [new Date()] takes when the decision is built. *)
Definition evaluatePolicy (policy : Policy) (request : PaymentRequest)
    (context : SpendContext) (options : EvaluatorOptions) (now : Z) : PolicyDecision :=
  let rules := default ALL_RULES (rules options) in
  let fullTrace := default false (fullTrace options) in
  let '(trace, allow, failedRule) :=
    runRules rules fullTrace policy request context [] true None in
  let projectedSpend := (dailySpentUsd context + priceUsd request)%float in
  let remainingDailyBudget := Math_max 0 (dailyCapUsd policy - projectedSpend) in
  let remainingWeeklyBudget :=
    match enforcedWeeklyCap policy with
    | Some cap => Some (Math_max 0 (cap - (weeklySpentUsd context + priceUsd request)))
    | None => None
    end in
  {| allow := allow;
     reason := match failedRule with
               | Some f => rt_reason f
               | None => "All policy rules passed"
               end;
     ruleId := match failedRule with
               | Some f => rt_ruleId f
               | None => "all_passed"
               end;
     projectedSpend := projectedSpend;
     currentDailySpend := dailySpentUsd context;
     currentWeeklySpend := weeklySpentUsd context;
     remainingDailyBudget := remainingDailyBudget;
     remainingWeeklyBudget := remainingWeeklyBudget;
     policyId := id policy;
     timestamp := now;
     trace := trace |}.

End Evaluator.

(** [createSpendContext(callerId)] with [EMPTY_SPEND_CONTEXT]. *)
Definition createSpendContext (callerId : string) (now : Z) : SpendContext :=
  {| sc_callerId := callerId;
     dailySpentUsd := 0;
     weeklySpentUsd := 0;
     dailyCallCount := 0;
     sc_timestamp := now |}.

(** [pathParts[pathParts.length - 1] || 'unknown'] over
    [pathname.split('/').filter(Boolean)]. *)
Definition toolOfPath (pathname : string) : string :=
  let pathParts := filter (fun part => truthy_string part = true) (split_on "/" pathname) in
  match last pathParts with
  | Some part => part
  | None => "unknown"
  end.

(** [parsePaymentRequest(url, priceUsd, callerId)], on the parsed URL. *)
Definition parsePaymentRequest (parsed : URL) (priceUsd : float) (callerId : string)
    : PaymentRequest :=
  {| endpoint := pathname parsed;
     tool := toolOfPath (pathname parsed);
     domain := hostname parsed;
     priceUsd := priceUsd;
     callerId := callerId |}.

(** ** utils.ts *)

(** [generateId(prefix)]: the prefix, the clock in base 36 and eight random
    characters, [Math.random().toString(36).substring(2, 10)], which the
    caller of the model supplies. *)
Definition generateId (prefix : string) (now : Z) (random : string) : string :=
  prefix +:+ "_" +:+ to_radix 36 now +:+ random.

(** [hashString]: djb2 over 32-bit integers; [hash << 5] and [hash & hash]
    wrap around. *)
Fixpoint hash_loop (hash : Z) (s : string) : Z :=
  match s with
  | EmptyString => hash
  | String c s' =>
      hash_loop (to_int32 (to_int32 (hash * 32) + hash + Z.of_N (code c))) s'
  end.

Definition hashString (str : string) : string :=
  to_radix 16 (Z.abs (hash_loop 5381 str)).

(** [createContentHash(content)] for an object. *)
Definition createContentHash `{JSRuntime} (content : JSON) : string :=
  hashString (JSON_stringify content).

End PolicyEngine.

(* ================================================================== *)
(** * The payment header, as both packages read it *)
(* ================================================================== *)
Module Wire.
Import JS.

(** What [parsePaymentHeader] returns before any field is looked at: the
    values the JSON text held, of whatever type. *)
Record RawPayment : Type := {
  raw_signature : JSValue;
  raw_payer : JSValue;
  raw_nonce : JSValue;
  raw_expiry : JSValue;
  raw_amount : JSValue;
  raw_token : JSValue;
  raw_chainId : JSValue;
  raw_txHash : JSValue;
}.

Definition as_string (v : JSValue) : option string :=
  match v with Some (JStr s) => Some s | _ => None end.

Definition as_number (v : JSValue) : option number :=
  match v with Some (JNum n) => Some n | _ => None end.

End Wire.

(* ================================================================== *)
(** * packages/x402-worker *)
(* ================================================================== *)
Module Worker.
Import JS Wire.

(** ** types.ts *)

Record EndpointPricing : Type := {
  priceUsd : float;
  priceToken : string;
  token : string;
  chainId : number;
  description : option string;
  schemes : option (list string);
}.

(** A value of [pricing]: [EndpointPricing | number]. *)
Inductive PricingEntry : Type :=
| PriceUsd (usd : float)
| Pricing (p : EndpointPricing).

(** [PaywallConfig]. [pricing] lists the properties of the object in the
    order [Object.entries] enumerates them, each key once. [db] and [kv]
    say whether the binding is there; what the bindings hold is in the
    [World]. *)
Record PaywallConfig : Type := {
  sellerAddress : string;
  defaultToken : string;
  defaultChainId : number;
  pricing : list (string * PricingEntry);
  defaultPriceUsd : option float;
  expiryDuration : option Z;
  verifySignatures : option bool;
  checkReplay : option bool;
  db : bool;
  kv : bool;
}.

Record ParsedPayment : Type := {
  signature : string;
  payer : string;
  nonce : string;
  expiry : number;
  amount : string;
  pp_token : string;
  pp_chainId : number;
  txHash : option string;
}.

(** The payment as the declared type [ParsedPayment] reads it; [None] when
    a field holds a value of another type. *)
Definition typed (raw : RawPayment) : option ParsedPayment :=
  signature ← as_string (raw_signature raw);
  payer ← as_string (raw_payer raw);
  nonce ← as_string (raw_nonce raw);
  expiry ← as_number (raw_expiry raw);
  amount ← as_string (raw_amount raw);
  token ← as_string (raw_token raw);
  chainId ← as_number (raw_chainId raw);
  txHash ← match raw_txHash raw with
           | None => Some None
           | Some (JStr h) => Some (Some h)
           | _ => None
           end;
  Some {| signature := signature; payer := payer; nonce := nonce; expiry := expiry;
          amount := amount; pp_token := token; pp_chainId := chainId; txHash := txHash |}.

Record Receipt : Type := {
  r_id : string;
  callId : string;
  paymentRef : string;
  amountUsd : float;
  r_token : string;
  r_chainId : number;
  seller : string;
  buyer : string;
  r_nonce : string;
  r_expiry : string;
  r_signature : string;
  requestHash : string;
  responseHash : string;
  r_txHash : option string;
  verified : bool;
  createdAt : string;
}.

Record PaywallContext : Type := {
  paid : bool;
  payment : option ParsedPayment;
  receiptId : option string;
  ctx_priceUsd : float;
  ctx_nonce : string;
}.

(** A protected handler: a function of the request and the paywall context.
    The worker environment and execution context it also receives are not
    modelled. *)
Definition WorkerHandler : Type := Request -> PaywallContext -> Response.

(** What one request reads from its surroundings: the clock (milliseconds;
    one reading serves the whole request) and the random characters of the
    two identifiers it generates. *)
Record Ambient : Type := {
  now : Z;
  random_nonce : string;
  random_receipt : string;
}.

Definition generateNonce (amb : Ambient) : string :=
  PolicyEngine.generateId "nonce" (now amb) (random_nonce amb).

Definition generateReceiptId (amb : Ambient) : string :=
  PolicyEngine.generateId "rcpt" (now amb) (random_receipt amb).

(** [Math.floor(Date.now() / 1000)] *)
Definition unix_seconds (amb : Ambient) : Z := now amb / 1000.

Section WithRuntime.
Context `{JSRuntime}.

(** ** pricing.ts *)

(** [Math.round(x)] as an integer: halves go up. [None] for NaN and the
    infinities. *)
Definition Math_round (x : float) : option Z :=
  match Prim2SF x with
  | S754_zero _ => Some 0
  | S754_finite s m e =>
      let n := if s then Z.neg m else Z.pos m in
      Some (if 0 <=? e then n * 2 ^ e else (2 * n + 2 ^ (- e)) / 2 ^ (1 - e))
  | _ => None
  end.

(** [usdToToken(usd)] with six decimals: [BigInt] of a number that is not
    finite is a RangeError. *)
Definition usdToToken (usd : float) : outcome builtin_exn string :=
  match Math_round (usd * 1000000)%float with
  | Some amount => Ret (Z_toString amount)
  | None => Throw RangeError
  end.

Definition normalizePricing (entry : PricingEntry) (config : PaywallConfig)
    : outcome builtin_exn EndpointPricing :=
  match entry with
  | PriceUsd usd =>
      priceToken ← usdToToken usd;
      Ret {| priceUsd := usd; priceToken := priceToken; token := defaultToken config;
             chainId := defaultChainId config; description := None; schemes := None |}
  | Pricing p => Ret p
  end.

Fixpoint drop_prefix (p s : string) : option string :=
  match p with
  | EmptyString => Some s
  | String a p' =>
      match s with
      | String b s' => if Ascii.eqb a b then drop_prefix p' s' else None
      | EmptyString => None
      end
  end.

(** [s.replace(/needle/g, repl)] for a literal, non-empty needle. Each step
    consumes a character, so the length of [s] is enough fuel. *)
Fixpoint replace_all_fuel (fuel : nat) (needle repl s : string) : string :=
  match fuel with
  | O => s
  | S fuel' =>
      match s with
      | EmptyString => EmptyString
      | String c s' =>
          match drop_prefix needle s with
          | Some rest => repl +:+ replace_all_fuel fuel' needle repl rest
          | None => String c (replace_all_fuel fuel' needle repl s')
          end
      end
  end.

Definition replace_all (needle repl s : string) : string :=
  replace_all_fuel (String.length s) needle repl s.

(** The source of the regular expression [matchPattern] builds. *)
Definition regexPattern (pattern : string) : string :=
  replace_all "{{DOUBLESTAR}}" ".*"
    (replace_all "*" "[^/]*"
       (replace_all "**" "{{DOUBLESTAR}}" pattern)).

Definition matchPattern (path pattern : string) : outcome builtin_exn bool :=
  RegExp_test ("^" +:+ regexPattern pattern +:+ "$") path.

(** [config.pricing[endpoint]] *)
Fixpoint lookup_pricing (endpoint : string) (entries : list (string * PricingEntry))
    : option PricingEntry :=
  match entries with
  | [] => None
  | (k, e) :: rest => if String.eqb k endpoint then Some e else lookup_pricing endpoint rest
  end.

(** The [for ... of Object.entries(config.pricing)] loop: the first pattern
    that matches. *)
Fixpoint first_match (endpoint : string) (entries : list (string * PricingEntry))
    : outcome builtin_exn (option PricingEntry) :=
  match entries with
  | [] => Ret None
  | (pattern, price) :: rest =>
      matched ← matchPattern endpoint pattern;
      if matched : bool then Ret (Some price) else first_match endpoint rest
  end.

Definition getPriceForEndpoint (endpoint : string) (config : PaywallConfig)
    : outcome builtin_exn (option EndpointPricing) :=
  match lookup_pricing endpoint (pricing config) with
  | None =>
      found ← first_match endpoint (pricing config);
      match found with
      | Some price => Some <$> normalizePricing price config
      | None =>
          match defaultPriceUsd config with
          | Some usd => Some <$> normalizePricing (PriceUsd usd) config
          | None => Ret None
          end
      end
  | Some pricingEntry => Some <$> normalizePricing pricingEntry config
  end.

Definition chainIdToCAIP2 (chainId : number) : string :=
  "eip155:" +:+ Number_toString chainId.

(** [pricing.schemes?.[0] ?? 'exact'] *)
Definition first_scheme (pricing : EndpointPricing) : string :=
  match schemes pricing with
  | Some (scheme :: _) => scheme
  | _ => "exact"
  end.

Definition optional_field (key : string) (v : option string) : list (string * JSON) :=
  match v with
  | Some s => [(key, JStr s)]
  | None => []
  end.

Definition createPaymentRequired (pricing : EndpointPricing) (config : PaywallConfig)
    (nonce : string) (expiry : Z) (resource : string) : JSON :=
  JObj [ ("scheme", JStr (first_scheme pricing));
         ("network", JStr (chainIdToCAIP2 (chainId pricing)));
         ("maxAmountRequired", JStr (priceToken pricing));
         ("resource", JStr resource);
         ("description",
          JStr (match description pricing with
                | Some d => d
                | None => "Payment of $" +:+ Number_toFixed (priceUsd pricing) 4 +:+ " USD"
                end));
         ("mimeType", JStr "application/json");
         ("payTo", JStr (sellerAddress config));
         ("maxTimeoutSeconds", JNum (Int (default 300 (expiryDuration config))));
         ("asset", JStr (token pricing));
         ("extra", JObj [ ("priceUsd", JDouble (priceUsd pricing));
                          ("nonce", JStr nonce);
                          ("expiry", JNum (Int expiry)) ]) ].

Definition encodePaymentRequired (pr : JSON) : outcome builtin_exn string :=
  btoa (JSON_stringify pr).

(** [if (v) headers[name] = v] *)
Definition optional_header (name : string) (v : option string) : Headers :=
  match v with
  | Some s => if truthy_string s then [(name, s)] else []
  | None => []
  end.

Definition create402Response (pricing : EndpointPricing) (config : PaywallConfig)
    (nonce : string) (expiry : Z) (endpoint : string) (request : Request)
    : outcome builtin_exn Response :=
  let resource := href (url request) in
  let paymentRequired := createPaymentRequired pricing config nonce expiry resource in
  encodedPR ← encodePaymentRequired paymentRequired;
  let headers : Headers :=
    [ ("Content-Type", "application/json");
      ("PAYMENT-REQUIRED", encodedPR);
      ("X-PRICE", priceToken pricing);
      ("X-PRICE-USD", Double_toString (priceUsd pricing));
      ("X-TOKEN", token pricing);
      ("X-SELLER", sellerAddress config);
      ("X-CHAIN-ID", Number_toString (chainId pricing));
      ("X-NETWORK", chainIdToCAIP2 (chainId pricing));
      ("X-EXPIRY", Z_toString expiry);
      ("X-NONCE", nonce) ] ++ optional_header "X-DESCRIPTION" (description pricing) in
  let body :=
    JSON_stringify
      (JObj [ ("error", JStr "Payment Required");
              ("code", JNum (Int 402));
              ("paymentRequirements", paymentRequired);
              ("payment",
               JObj ([ ("price", JStr (priceToken pricing));
                       ("priceUsd", JDouble (priceUsd pricing));
                       ("token", JStr (token pricing));
                       ("seller", JStr (sellerAddress config));
                       ("chainId", JNum (chainId pricing));
                       ("network", JStr (chainIdToCAIP2 (chainId pricing)));
                       ("expiry", JNum (Int expiry));
                       ("nonce", JStr nonce);
                       ("endpoint", JStr endpoint) ]
                     ++ optional_field "description" (description pricing)));
              ("message",
               JStr ("This endpoint requires payment of $"
                     +:+ Number_toFixed (priceUsd pricing) 4 +:+ " USD")) ]) in
  Ret {| status := 402; statusText := "Payment Required";
         resp_headers := headers; resp_body := body |}.

(** ** verification.ts *)

Record VerificationResult : Type := {
  valid : bool;
  reason : option string;
}.

(** [parsePaymentHeader(header)]: [Ret None] is [null]. Whatever the [try]
    block throws is caught. *)
Definition parsePaymentHeader (header : string) : outcome builtin_exn (option RawPayment) :=
  try_catch
    (decoded ← atob header;
     payload ← JSON_parse decoded;
     sig ← get_property payload "sig";
     payer ← get_property payload "payer";
     nonce ← get_property payload "nonce";
     if negb (truthy sig) || negb (truthy payer) || negb (truthy nonce) then Ret None
     else
       expiry ← get_property payload "expiry";
       amount ← get_property payload "amount";
       token ← get_property payload "token";
       chainId ← get_property payload "chainId";
       txHash ← get_property payload "txHash";
       Ret (Some {| raw_signature := sig; raw_payer := payer; raw_nonce := nonce;
                    raw_expiry := expiry; raw_amount := amount; raw_token := token;
                    raw_chainId := chainId; raw_txHash := txHash |}))
    (fun _ => Ret None).

(** [verifySignature]: a format check only. *)
Definition verifySignature (payment : ParsedPayment) (expectedSeller : string) : bool :=
  if negb (truthy_string (signature payment))
     || (String.length (signature payment) <? 130)%nat then false
  else if negb (startsWith (signature payment) "0x") then false
  else true.

Definition rejected (why : string) : VerificationResult :=
  {| valid := false; reason := Some why |}.

Definition verifyPayment (payment : ParsedPayment) (pricing : EndpointPricing)
    (config : PaywallConfig) (amb : Ambient) : outcome builtin_exn VerificationResult :=
  if num_lt (expiry payment) (Int (unix_seconds amb)) then
    Ret (rejected "Payment has expired")
  else if negb (String.eqb (toLowerCase (pp_token payment)) (toLowerCase (token pricing))) then
    Ret (rejected "Token mismatch")
  else if negb (num_strict_eq (pp_chainId payment) (chainId pricing)) then
    Ret (rejected "Chain ID mismatch")
  else
    paymentAmount ← BigInt (amount payment);
    requiredAmount ← BigInt (priceToken pricing);
    if paymentAmount <? requiredAmount then
      Ret (rejected "Insufficient payment amount")
    else if default false (verifySignatures config)
            && negb (verifySignature payment (sellerAddress config)) then
      Ret (rejected "Invalid signature")
    else Ret {| valid := true; reason := None |}.

(** ** middleware.ts *)

(** An entry of the KV namespace: its value and the instant it expires. *)
Record KvEntry : Type := {
  kv_value : string;
  kv_expires : Z;
}.

Inductive Event : Type :=
| KvGet (key : string)
| KvPut (key value : string) (expirationTtl : Z)
| HandlerCalled (request : Request) (ctx : PaywallContext)
| ReceiptStored (receipt : Receipt).

(** What outlives a request: the KV namespace, the receipts table, and the
    record of what the middleware did, oldest first. *)
Record World : Type := {
  kv_store : gmap string KvEntry;
  receipts : list Receipt;
  events : list Event;
}.

Definition log (e : Event) (w : World) : World :=
  {| kv_store := kv_store w; receipts := receipts w; events := (events w ++ [e])%list |}.

(** [kv.get(key)] at instant [t]: an entry is gone once it has expired. *)
Definition kv_lookup (w : World) (key : string) (t : Z) : option string :=
  match kv_store w !! key with
  | Some e => if t <? kv_expires e then Some (kv_value e) else None
  | None => None
  end.

Definition kv_get (amb : Ambient) (key : string) : Eff World builtin_exn (option string) :=
  fun w => (Ret (kv_lookup w key (now amb)), log (KvGet key) w).

(** [kv.put(key, value, { expirationTtl })], the time to live in seconds. *)
Definition kv_put (amb : Ambient) (key value : string) (expirationTtl : Z)
    : Eff World builtin_exn unit :=
  fun w =>
    (Ret tt,
     log (KvPut key value expirationTtl)
       {| kv_store := <[key := {| kv_value := value;
                                kv_expires := now amb + expirationTtl * 1000 |}]> (kv_store w);
          receipts := receipts w; events := events w |}).

Definition call_handler (handler : WorkerHandler) (request : Request) (ctx : PaywallContext)
    : Eff World builtin_exn Response :=
  fun w => (Ret (handler request ctx), log (HandlerCalled request ctx) w).

(** [ctx.waitUntil(storeReceipt(db, receipt))]: the row is inserted. *)
Definition storeReceipt (receipt : Receipt) : Eff World builtin_exn unit :=
  fun w =>
    (Ret tt,
     log (ReceiptStored receipt)
       {| kv_store := kv_store w; receipts := (receipts w ++ [receipt])%list;
          events := events w |}).

Definition json_response (code : Z) (headers : Headers) (body : JSON) : Response :=
  {| status := code; statusText := EmptyString;
     resp_headers := ("Content-Type", "application/json") :: headers;
     resp_body := JSON_stringify body |}.

(** [create402Headers] of middleware.ts, without the content type. *)
Definition create402Headers (pricing : EndpointPricing) (config : PaywallConfig)
    (nonce : string) (expiry : Z) : outcome builtin_exn Headers :=
  let paymentRequired :=
    JObj [ ("scheme", JStr (first_scheme pricing));
           ("network", JStr ("eip155:" +:+ Number_toString (chainId pricing)));
           ("maxAmountRequired", JStr (priceToken pricing));
           ("payTo", JStr (sellerAddress config));
           ("maxTimeoutSeconds", JNum (Int (default 300 (expiryDuration config))));
           ("asset", JStr (token pricing));
           ("extra", JObj [ ("priceUsd", JDouble (priceUsd pricing));
                            ("nonce", JStr nonce);
                            ("expiry", JNum (Int expiry)) ]) ] in
  encoded ← btoa (JSON_stringify paymentRequired);
  Ret ([ ("PAYMENT-REQUIRED", encoded);
         ("X-PRICE", priceToken pricing);
         ("X-PRICE-USD", Double_toString (priceUsd pricing));
         ("X-TOKEN", token pricing);
         ("X-SELLER", sellerAddress config);
         ("X-CHAIN-ID", Number_toString (chainId pricing));
         ("X-NETWORK", "eip155:" +:+ Number_toString (chainId pricing));
         ("X-EXPIRY", Z_toString expiry);
         ("X-NONCE", nonce) ]
       ++ optional_header "X-DESCRIPTION" (description pricing)
       ++ match schemes pricing with
          | Some l => [("X-SCHEMES", join "," l)]
          | None => []
          end).

(** The context of a free endpoint. *)
Definition unpaid_context : PaywallContext :=
  {| paid := false; payment := None; receiptId := None;
     ctx_priceUsd := 0; ctx_nonce := EmptyString |}.

(** The replay check: [if (config.checkReplay && config.kv) { ... }].
    [Ret (Some response)] is the early return. *)
Definition check_replay (config : PaywallConfig) (amb : Ambient) (payment : ParsedPayment)
    : Eff World builtin_exn (option Response) :=
  if default false (checkReplay config) && kv config then
    used ← kv_get amb ("nonce:" +:+ nonce payment);
    if present used then
      mret (Some (json_response 400 [] (JObj [("error", JStr "Payment nonce already used")])))
    else
      _ ← kv_put amb ("nonce:" +:+ nonce payment) "1" 86400;
      mret None
  else mret None.

(** The paid path, from [generateReceiptId()] on. *)
Definition fulfil (handler : WorkerHandler) (config : PaywallConfig) (amb : Ambient)
    (request : Request) (pricing : EndpointPricing) (payment : ParsedPayment)
    (verification : VerificationResult) (nonce : string)
    : Eff World builtin_exn Response :=
  let receiptId := generateReceiptId amb in
  let paywallCtx :=
    {| paid := true; payment := Some payment; receiptId := Some receiptId;
       ctx_priceUsd := priceUsd pricing; ctx_nonce := Worker.nonce payment |} in
  let requestHash :=
    PolicyEngine.createContentHash
      (JObj [ ("method", JStr (method request));
              ("url", JStr (href (url request)));
              ("body", JStr (req_body request)) ]) in
  response ← call_handler handler request paywallCtx;
  let responseHash :=
    PolicyEngine.createContentHash
      (JObj [ ("status", JNum (Int (status response)));
              ("body", JStr (resp_body response)) ]) in
  _ ← (if db config then
         expiryText ← eff_lift (iso_of_seconds (expiry payment));
         storeReceipt
           {| r_id := receiptId;
              callId := nonce;
              paymentRef := String.substring 0 32 (signature payment);
              amountUsd := priceUsd pricing;
              r_token := pp_token payment;
              r_chainId := pp_chainId payment;
              seller := sellerAddress config;
              buyer := payer payment;
              r_nonce := Worker.nonce payment;
              r_expiry := expiryText;
              r_signature := signature payment;
              requestHash := requestHash;
              responseHash := responseHash;
              r_txHash := txHash payment;
              verified := valid verification;
              createdAt := Date_toISOString (now amb) |}
       else mret tt);
  let headers := headers_set (resp_headers response) "X-RECEIPT-ID" receiptId in
  let paymentResponse :=
    JObj ([ ("success", JBool true);
            ("receiptId", JStr receiptId);
            ("network", JStr ("eip155:" +:+ Number_toString (pp_chainId payment))) ]
          ++ optional_field "txHash" (txHash payment)
          ++ [ ("settledAt", JStr (Date_toISOString (now amb))) ]) in
  encoded ← eff_lift (btoa (JSON_stringify paymentResponse));
  mret {| status := status response; statusText := statusText response;
          resp_headers := headers_set headers "PAYMENT-RESPONSE" encoded;
          resp_body := resp_body response |}.

(** [request.headers.get('PAYMENT-SIGNATURE') || request.headers.get('X-PAYMENT')] *)
Definition paymentHeaderOf (request : Request) : option string :=
  or_else (headers_get (req_headers request) "PAYMENT-SIGNATURE")
          (headers_get (req_headers request) "X-PAYMENT").

(** [withX402Paywall(handler, config)], applied to one request. A payment
    whose fields do not have the declared types is out of the model. *)
Definition withX402Paywall (handler : WorkerHandler) (config : PaywallConfig)
    (amb : Ambient) (request : Request) : Eff World builtin_exn Response :=
  let endpoint := pathname (url request) in
  pricing ← eff_lift (getPriceForEndpoint endpoint config);
  match pricing with
  | None => call_handler handler request unpaid_context
  | Some pricing =>
      let nonce := generateNonce amb in
      let expiry := unix_seconds amb + default 300 (expiryDuration config) in
      let paymentHeader := paymentHeaderOf request in
      match paymentHeader with
      | None => eff_lift (create402Response pricing config nonce expiry endpoint request)
      | Some header =>
          if negb (truthy_string header) then
            eff_lift (create402Response pricing config nonce expiry endpoint request)
          else
            parsed ← eff_lift (parsePaymentHeader header);
            match parsed with
            | None =>
                mret (json_response 400 []
                        (JObj [("error", JStr "Invalid payment header format")]))
            | Some raw =>
                match typed raw with
                | None => eff_lift OutOfModel
                | Some payment =>
                    verification ← eff_lift (verifyPayment payment pricing config amb);
                    if negb (valid verification) then
                      headers ← eff_lift (create402Headers pricing config nonce expiry);
                      mret (json_response 402 headers
                              (JObj (optional_field "error" (reason verification))))
                    else
                      replayed ← check_replay config amb payment;
                      match replayed with
                      | Some response => mret response
                      | None =>
                          fulfil handler config amb request pricing payment
                            verification nonce
                      end
                end
            end
      end
  end.

End WithRuntime.
End Worker.

(* ================================================================== *)
(** * packages/x402-client *)
(* ================================================================== *)
Module Client.
Import JS Wire PolicyEngine.

(** ** types.ts *)

Record X402Headers : Type := {
  price : string;
  h_priceUsd : float;
  token : string;
  seller : string;
  chainId : number;
  expiry : number;
  nonce : string;
  description : option string;
  schemes : option (list string);
}.

Record PaymentProof : Type := {
  signature : string;
  payer : string;
  p_nonce : string;
  p_expiry : number;
  amount : string;
  p_token : string;
  p_chainId : number;
  txHash : option string;
}.

(** What the orchestrator throws or lets through: an error of the runtime,
    a value thrown by [fetch] or by the wallet (an [Error] or not, with the
    text [String(e)] gives), and the two errors of types.ts. *)
Inductive exn : Type :=
| Builtin (e : builtin_exn)
| External (isError : bool) (message : string)
| X402PolicyError (message : string) (decision : PolicyDecision) (headers : X402Headers)
| X402PaymentError (message : string) (headers : X402Headers) (cause : option exn).

Record SignParams : Type := {
  sp_seller : string;
  sp_amount : string;
  sp_token : string;
  sp_chainId : number;
  sp_nonce : string;
  sp_expiry : number;
}.

(** [WalletAdapter]: either method may reject. *)
Record WalletAdapter : Type := {
  getAddress : outcome exn string;
  signPayment : SignParams -> outcome exn string;
}.

Record PaymentMetadata : Type := {
  pm_endpoint : string;
  pm_nonce : string;
  pm_paymentRef : string;
}.

Record DecisionMetadata : Type := {
  dm_endpoint : string;
  dm_priceUsd : float;
}.

(** What one call reads from its surroundings: the clock, and the random
    characters of the identifiers the ledger generates. *)
Record Ambient : Type := {
  now : Z;
  random_decision : string;
  random_payment : string;
}.

(** [SpendStorage]: the ledger interface, over a ledger state [S]. *)
Class SpendStorage (S : Type) : Type := {
  getSpendContext : string -> Ambient -> S -> SpendContext * S;
  recordPayment : string -> float -> PaymentMetadata -> Ambient -> S -> S;
  recordDecision : string -> PolicyDecision -> DecisionMetadata -> Ambient -> S -> S;
}.

(** [RequestInit], with [headers] a plain object. *)
Record RequestInit : Type := {
  init_method : option string;
  init_headers : list (string * string);
  init_body : option string;
}.

Record X402Response : Type := {
  response : Response;
  x402Paid : bool;
  x402Payment : option PaymentProof;
  x402Decision : option PolicyDecision;
  x402ReceiptId : option string;
}.

Record X402FetchOptions : Type := {
  policy : Policy;
  wallet : WalletAdapter;
  callerId : string;
  autoPay : option bool;
  (** whether each callback is given *)
  onPaymentRequired : bool;
  onPaymentMade : bool;
  onPolicyBlocked : bool;
  maxRetries : option Z;
}.

(** ** storage.ts *)

Record PaymentRecord : Type := {
  pay_id : string;
  pay_callerId : string;
  pay_amountUsd : float;
  pay_endpoint : string;
  pay_nonce : string;
  pay_paymentRef : string;
  pay_timestamp : Z;
}.

Record DecisionRecord : Type := {
  dec_id : string;
  dec_callerId : string;
  dec_decision : PolicyDecision;
  dec_endpoint : string;
  dec_priceUsd : float;
  dec_timestamp : Z;
}.

Record InMemorySpendStorage : Type := {
  contexts : gmap string SpendContext;
  payments : list PaymentRecord;
  decisions : list DecisionRecord;
}.

Definition empty_storage : InMemorySpendStorage :=
  {| contexts := ∅; payments := []; decisions := [] |}.

Definition mem_getSpendContext (callerId : string) (amb : Ambient)
    (st : InMemorySpendStorage) : SpendContext * InMemorySpendStorage :=
  match contexts st !! callerId with
  | Some existing => (existing, st)
  | None =>
      let newContext := createSpendContext callerId (now amb) in
      (newContext,
       {| contexts := <[callerId := newContext]> (contexts st);
          payments := payments st; decisions := decisions st |})
  end.

Definition mem_recordPayment (callerId : string) (amountUsd : float)
    (metadata : PaymentMetadata) (amb : Ambient) (st : InMemorySpendStorage)
    : InMemorySpendStorage :=
  let '(context, st) := mem_getSpendContext callerId amb st in
  let context :=
    {| sc_callerId := sc_callerId context;
       dailySpentUsd := (dailySpentUsd context + amountUsd)%float;
       weeklySpentUsd := (weeklySpentUsd context + amountUsd)%float;
       dailyCallCount := dailyCallCount context + 1;
       sc_timestamp := now amb |} in
  {| contexts := <[callerId := context]> (contexts st);
     payments := payments st ++
       [{| pay_id := generateId "pay" (now amb) (random_payment amb);
           pay_callerId := callerId;
           pay_amountUsd := amountUsd;
           pay_endpoint := pm_endpoint metadata;
           pay_nonce := pm_nonce metadata;
           pay_paymentRef := pm_paymentRef metadata;
           pay_timestamp := now amb |}];
     decisions := decisions st |}.

Definition mem_recordDecision (callerId : string) (decision : PolicyDecision)
    (metadata : DecisionMetadata) (amb : Ambient) (st : InMemorySpendStorage)
    : InMemorySpendStorage :=
  {| contexts := contexts st;
     payments := payments st;
     decisions := decisions st ++
       [{| dec_id := generateId "dec" (now amb) (random_decision amb);
           dec_callerId := callerId;
           dec_decision := decision;
           dec_endpoint := dm_endpoint metadata;
           dec_priceUsd := dm_priceUsd metadata;
           dec_timestamp := now amb |}] |}.

#[global] Instance InMemory : SpendStorage InMemorySpendStorage := {|
  getSpendContext := mem_getSpendContext;
  recordPayment := mem_recordPayment;
  recordDecision := mem_recordDecision;
|}.

Section WithRuntime.
Context `{JSRuntime}.

(** ** payment.ts *)

(** [createPaymentHeader(proof)]; [txHash] is added when it is there and
    not empty. *)
Definition createPaymentHeader (proof : PaymentProof) : outcome builtin_exn string :=
  let payload :=
    JObj ([ ("sig", JStr (signature proof));
            ("payer", JStr (payer proof));
            ("nonce", JStr (p_nonce proof));
            ("expiry", JNum (p_expiry proof));
            ("amount", JStr (amount proof));
            ("token", JStr (p_token proof));
            ("chainId", JNum (p_chainId proof)) ]
          ++ match txHash proof with
             | Some h => if truthy_string h then [("txHash", JStr h)] else []
             | None => []
             end) in
  btoa (JSON_stringify payload).

(** [parsePaymentHeader(header)]: [Ret None] is [null]. *)
Definition parsePaymentHeader (header : string) : outcome builtin_exn (option RawPayment) :=
  try_catch
    (decoded ← atob header;
     payload ← JSON_parse decoded;
     sig ← get_property payload "sig";
     payer ← get_property payload "payer";
     nonce ← get_property payload "nonce";
     if negb (truthy sig) || negb (truthy payer) || negb (truthy nonce) then Ret None
     else
       expiry ← get_property payload "expiry";
       amount ← get_property payload "amount";
       token ← get_property payload "token";
       chainId ← get_property payload "chainId";
       txHash ← get_property payload "txHash";
       Ret (Some {| raw_signature := sig; raw_payer := payer; raw_nonce := nonce;
                    raw_expiry := expiry; raw_amount := amount; raw_token := token;
                    raw_chainId := chainId; raw_txHash := txHash |}))
    (fun _ => Ret None).

(** The parsed header as the declared type [PaymentProof] reads it. *)
Definition typed (raw : RawPayment) : option PaymentProof :=
  signature ← as_string (raw_signature raw);
  payer ← as_string (raw_payer raw);
  nonce ← as_string (raw_nonce raw);
  expiry ← as_number (raw_expiry raw);
  amount ← as_string (raw_amount raw);
  token ← as_string (raw_token raw);
  chainId ← as_number (raw_chainId raw);
  txHash ← match raw_txHash raw with
           | None => Some None
           | Some (JStr h) => Some (Some h)
           | _ => None
           end;
  Some {| signature := signature; payer := payer; p_nonce := nonce; p_expiry := expiry;
          amount := amount; p_token := token; p_chainId := chainId; txHash := txHash |}.

(** ** x402-fetch.ts *)

Inductive Event : Type :=
| Fetched (input : URL) (init : RequestInit)
| SpendContextRead (callerId : string)
| DecisionRecorded (callerId : string) (decision : PolicyDecision) (metadata : DecisionMetadata)
| PaymentRecorded (callerId : string) (amountUsd : float) (metadata : PaymentMetadata)
| PaymentRequiredNotified (headers : X402Headers) (decision : PolicyDecision)
| PolicyBlockedNotified (decision : PolicyDecision)
| PaymentMadeNotified (proof : PaymentProof)
| SignRequested (params : SignParams)
| AddressRequested.

Section Orchestrator.
Context {S : Type} `{SpendStorage S}.

(** The ledger, the number of requests sent so far, and the record of what
    the orchestrator did, oldest first. *)
Record World : Type := {
  storage : S;
  sent : nat;
  events : list Event;
}.

Definition log (e : Event) (w : World) : World :=
  {| storage := storage w; sent := sent w; events := events w ++ [e] |}.

Definition on_storage (f : S -> S) (w : World) : World :=
  {| storage := f (storage w); sent := sent w; events := events w |}.

(** The network: what the [n]-th request of the call meets, resolved with
    a response or rejected. *)
Variable network : nat -> URL -> RequestInit -> outcome exn Response.

(** [parse402Headers] of payment.ts, the decoder of the challenge. It is a
    parameter here: the orchestrator only tests its result for [null]. *)
Variable parse402Headers : Response -> Ambient -> option X402Headers.

Definition fetch (input : URL) (init : RequestInit) : Eff World exn Response :=
  fun w =>
    (network (sent w) input init,
     log (Fetched input init)
       {| storage := storage w; sent := Datatypes.S (sent w); events := events w |}).

Definition storage_getSpendContext (callerId : string) (amb : Ambient)
    : Eff World exn SpendContext :=
  fun w =>
    let '(context, st) := getSpendContext callerId amb (storage w) in
    (Ret context, log (SpendContextRead callerId) (on_storage (fun _ => st) w)).

Definition storage_recordDecision (callerId : string) (decision : PolicyDecision)
    (metadata : DecisionMetadata) (amb : Ambient) : Eff World exn unit :=
  fun w =>
    (Ret tt,
     log (DecisionRecorded callerId decision metadata)
       (on_storage (recordDecision callerId decision metadata amb) w)).

Definition storage_recordPayment (callerId : string) (amountUsd : float)
    (metadata : PaymentMetadata) (amb : Ambient) : Eff World exn unit :=
  fun w =>
    (Ret tt,
     log (PaymentRecorded callerId amountUsd metadata)
       (on_storage (recordPayment callerId amountUsd metadata amb) w)).

(** A callback that is given is called; it returns normally. *)
Definition notify (given : bool) (e : Event) : Eff World exn unit :=
  fun w => (Ret tt, if given then log e w else w).

Definition wallet_signPayment (wallet : WalletAdapter) (params : SignParams)
    : Eff World exn string :=
  fun w => (signPayment wallet params, log (SignRequested params) w).

Definition wallet_getAddress (wallet : WalletAdapter) : Eff World exn string :=
  fun w => (getAddress wallet, log AddressRequested w).

(** [{ ...headers, [name]: value }] on a plain object. *)
Fixpoint object_set (o : list (string * string)) (name value : string)
    : list (string * string) :=
  match o with
  | [] => [(name, value)]
  | (k, v) :: rest =>
      if String.eqb k name then (k, value) :: rest
      else (k, v) :: object_set rest name value
  end.

(** [error instanceof Error ? error : new Error(String(error))] *)
Definition as_Error (e : exn) : exn :=
  match e with
  | External false message => External true message
  | other => other
  end.

(** [error instanceof Error ? error : undefined] *)
Definition if_Error (e : exn) : option exn :=
  match e with
  | External false _ => None
  | other => Some other
  end.

(** The headers of an invalid 402 response's error. *)
Definition no_headers : X402Headers :=
  {| price := "0"; h_priceUsd := 0; token := EmptyString; seller := EmptyString;
     chainId := Int 0; expiry := Int 0; nonce := EmptyString;
     description := None; schemes := None |}.

(** One turn of the [while (retryCount < maxRetries)] loop per unit of
    [remaining]; [lastError] is the error of the turn before. *)
Fixpoint retry (remaining : nat) (lastError : option exn)
    (input : URL) (init : RequestInit) (callerId : string) (maxRetries : Z)
    (headers : X402Headers) (paymentRequest : PaymentRequest)
    (paymentProof : PaymentProof) (decision : PolicyDecision) (amb : Ambient)
    : Eff World exn X402Response :=
  match remaining with
  | O =>
      eff_throw
        (X402PaymentError
           ("Payment request failed after " +:+ Z_toString maxRetries +:+ " retries")
           headers lastError)
  | Datatypes.S remaining' =>
      eff_try
        (paymentHeader ← eff_lift (lift_exn Builtin (createPaymentHeader paymentProof));
         response ←
           fetch input
             {| init_method := init_method init;
                init_headers :=
                  object_set
                    (object_set (init_headers init) "PAYMENT-SIGNATURE" paymentHeader)
                    "X-PAYMENT" paymentHeader;
                init_body := init_body init |};
         _ ← (if ok response then
                storage_recordPayment callerId (h_priceUsd headers)
                  {| pm_endpoint := endpoint paymentRequest;
                     pm_nonce := nonce headers;
                     pm_paymentRef := String.substring 0 16 (signature paymentProof) |}
                  amb
              else mret tt);
         mret {| response := response;
                 x402Paid := true;
                 x402Payment := Some paymentProof;
                 x402Decision := Some decision;
                 x402ReceiptId :=
                   match headers_get (resp_headers response) "X-RECEIPT-ID" with
                   | Some rid => if truthy_string rid then Some rid else None
                   | None => None
                   end |})
        (fun error =>
           retry remaining' (Some (as_Error error)) input init callerId maxRetries
             headers paymentRequest paymentProof decision amb)
  end.

(** [x402Fetch(input, init, options)], for an absolute URL. *)
Definition x402Fetch (input : URL) (init : RequestInit) (options : X402FetchOptions)
    (amb : Ambient) : Eff World exn X402Response :=
  let autoPay := default true (autoPay options) in
  let maxRetries := default 1 (maxRetries options) in
  let callerId := callerId options in
  response ← fetch input init;
  if negb (status response =? 402) then
    mret {| response := response; x402Paid := false; x402Payment := None;
            x402Decision := None; x402ReceiptId := None |}
  else
    match parse402Headers response amb with
    | None =>
        eff_throw
          (X402PaymentError "Invalid 402 response - missing required headers"
             no_headers None)
    | Some headers =>
        context ← storage_getSpendContext callerId amb;
        let paymentRequest := parsePaymentRequest input (h_priceUsd headers) callerId in
        let decision :=
          evaluatePolicy (policy options) paymentRequest context
            {| rules := None; fullTrace := Some true |} (now amb) in
        _ ← storage_recordDecision callerId decision
              {| dm_endpoint := endpoint paymentRequest;
                 dm_priceUsd := h_priceUsd headers |} amb;
        _ ← notify (onPaymentRequired options) (PaymentRequiredNotified headers decision);
        if negb (allow decision) then
          _ ← notify (onPolicyBlocked options) (PolicyBlockedNotified decision);
          eff_throw
            (X402PolicyError ("Payment blocked by policy: " +:+ reason decision)
               decision headers)
        else if negb autoPay then
          eff_throw
            (X402PolicyError "Payment required but autoPay is disabled" decision headers)
        else
          paymentProof ←
            eff_try
              (signature ←
                 wallet_signPayment (wallet options)
                   {| sp_seller := seller headers; sp_amount := price headers;
                      sp_token := token headers; sp_chainId := chainId headers;
                      sp_nonce := nonce headers; sp_expiry := expiry headers |};
               payer ← wallet_getAddress (wallet options);
               mret {| signature := signature; payer := payer;
                       p_nonce := nonce headers; p_expiry := expiry headers;
                       amount := price headers; p_token := token headers;
                       p_chainId := chainId headers; txHash := None |})
              (fun error =>
                 eff_throw (X402PaymentError "Failed to generate payment" headers
                              (if_Error error)));
          _ ← notify (onPaymentMade options) (PaymentMadeNotified paymentProof);
          retry (Z.to_nat maxRetries) None input init callerId maxRetries
            headers paymentRequest paymentProof decision amb
    end.

End Orchestrator.
End WithRuntime.
End Client.

(* ================================================================== *)
(** * packages/policy-engine: the evaluator object of evaluator.ts *)
(* ================================================================== *)

Module PolicyEvaluator.
Import JS PolicyEngine.

Section WithRuntime.
Context `{JSRuntime}.

(** [createPolicyEvaluator(defaultPolicy, options).evaluate(request, context,
    policy)]; [policy] is [None] when the argument is left out. *)
Definition evaluate (defaultPolicy : Policy) (options : EvaluatorOptions)
    (request : PaymentRequest) (context : SpendContext) (policy : option Policy)
    (now : Z) : PolicyDecision :=
  evaluatePolicy (default defaultPolicy policy) request context options now.

(** [.isAllowed(request, context, policy)]: [{ ...options, fullTrace: false }]. *)
Definition isAllowed (defaultPolicy : Policy) (options : EvaluatorOptions)
    (request : PaymentRequest) (context : SpendContext) (policy : option Policy)
    (now : Z) : bool :=
  allow (evaluatePolicy (default defaultPolicy policy) request context
           {| rules := rules options; fullTrace := Some false |} now).

End WithRuntime.
End PolicyEvaluator.

(* ================================================================== *)
(** * packages/x402-worker: networks.ts and the router of middleware.ts *)
(* ================================================================== *)
Module Networks.
Import JS.

(** [/^eip155:(\d+)$/]: the digits captured, when the text is [eip155:]
    followed by one or more decimal digits and nothing else. *)
Definition match_eip155 (network : string) : option string :=
  match Worker.drop_prefix "eip155:" network with
  | Some digits =>
      if truthy_string digits && forallb is_digit (list_ascii_of_string digits)
      then Some digits else None
  | None => None
  end.

(** [parseInt(digits, 10)] for a text of decimal digits: the integer, which
    a double holds exactly up to 2^53. *)
Definition parseInt_digits (digits : string) : outcome string number :=
  match digits_value 10 0 digits with
  | Some n => if safe_integer (Z.of_N n) then Ret (Int (Z.of_N n)) else OutOfModel
  | None => OutOfModel
  end.

(** [caip2ToChainId(network)] of networks.ts; what is thrown is an [Error],
    kept by its message. pricing.ts has the same function, with the message
    [Invalid CAIP-2 identifier]. *)
Definition caip2ToChainId (network : string) : outcome string number :=
  match match_eip155 network with
  | None => Throw ("Invalid EVM CAIP-2 identifier: " +:+ network)
  | Some digits => parseInt_digits digits
  end.

Record NetworkConfig : Type := {
  caip2 : string;
  chainId : number;
  name : string;
  usdc : string;
  facilitatorSupported : bool;
  explorer : string;
  testnet : bool;
}.

(** [NETWORKS], its properties in the order they are written. *)
Definition NETWORKS : list (string * NetworkConfig) :=
  [ ("eip155:84532",
     {| caip2 := "eip155:84532"; chainId := Int 84532; name := "Base Sepolia";
        usdc := "0x036CbD53842c5426634e7929541eC2318f3dCF7e";
        facilitatorSupported := true; explorer := "https://sepolia.basescan.org";
        testnet := true |});
    ("eip155:8453",
     {| caip2 := "eip155:8453"; chainId := Int 8453; name := "Base";
        usdc := "0x833589fCD6eDb6E08f4c7C32D4f71b54bdA02913";
        facilitatorSupported := true; explorer := "https://basescan.org";
        testnet := false |});
    ("eip155:25",
     {| caip2 := "eip155:25"; chainId := Int 25; name := "Cronos";
        usdc := "0xc21223249CA28397B4B6541dfFaEcC539BfF0c59";
        facilitatorSupported := false; explorer := "https://cronoscan.com";
        testnet := false |});
    ("eip155:338",
     {| caip2 := "eip155:338"; chainId := Int 338; name := "Cronos Testnet";
        usdc := "0x6a3173618859C7cd40fAF6921b5E9eB6A76f1fD4";
        facilitatorSupported := false; explorer := "https://testnet.cronoscan.com";
        testnet := true |});
    ("eip155:1",
     {| caip2 := "eip155:1"; chainId := Int 1; name := "Ethereum";
        usdc := "0xA0b86991c6218b36c1d19D4a2e9Eb0cE3606eB48";
        facilitatorSupported := false; explorer := "https://etherscan.io";
        testnet := false |});
    ("solana:EtWTRABZaYq6iMfeYKouRu166VU2xqa1",
     {| caip2 := "solana:EtWTRABZaYq6iMfeYKouRu166VU2xqa1"; chainId := Int 0;
        name := "Solana Devnet";
        usdc := "Gh9ZwEmdLJ8DscKNTkTqPbNwLNNBjuSzaG9Vp2KGtKJr";
        facilitatorSupported := true; explorer := "https://explorer.solana.com";
        testnet := true |}) ].

(** The properties every object inherits from [Object.prototype]. *)
Definition inherited_names : list string :=
  [ "constructor"; "__proto__"; "hasOwnProperty"; "isPrototypeOf";
    "propertyIsEnumerable"; "toLocaleString"; "toString"; "valueOf";
    "__defineGetter__"; "__defineSetter__"; "__lookupGetter__"; "__lookupSetter__" ].

Fixpoint own_property {A} (key : string) (o : list (string * A)) : option A :=
  match o with
  | [] => None
  | (k, v) :: rest => if String.eqb k key then Some v else own_property key rest
  end.

(** [getNetworkByCAIP2(caip2)]: [NETWORKS[caip2]]. A name [Object.prototype]
    defines yields what it inherits, which is no [NetworkConfig]. *)
Definition getNetworkByCAIP2 (caip2 : string) : outcome string (option NetworkConfig) :=
  if includes inherited_names caip2 then OutOfModel
  else Ret (own_property caip2 NETWORKS).

(** [getNetworkByChainId(chainId)]:
    [Object.values(NETWORKS).find(n => n.chainId === chainId)]. *)
Definition getNetworkByChainId (id : number) : option NetworkConfig :=
  find (fun n => num_strict_eq (chainId n) id) (map snd NETWORKS).

(** [getUsdcAddress(chainId)] *)
Definition getUsdcAddress (id : number) : option string :=
  usdc <$> getNetworkByChainId id.

(** [isFacilitatorSupported(chainId)] *)
Definition isFacilitatorSupported (id : number) : bool :=
  default false (facilitatorSupported <$> getNetworkByChainId id).

(** [getExplorerTxUrl(chainId, txHash)] *)
Definition getExplorerTxUrl (id : number) (txHash : string) : option string :=
  (fun n => explorer n +:+ "/tx/" +:+ txHash) <$> getNetworkByChainId id.

(** [getExplorerAddressUrl(chainId, address)] *)
Definition getExplorerAddressUrl (id : number) (address : string) : option string :=
  (fun n => explorer n +:+ "/address/" +:+ address) <$> getNetworkByChainId id.

End Networks.

Module Router.
Import JS Worker.

(** What [createPaywallRouter(config)] keeps for a pattern: a handler behind
    the paywall, or a free one. *)
Inductive Route : Type :=
| PaidRoute (handler : WorkerHandler)
| FreeRoute (handler : Request -> Response).

(** The [Map] of routes, in insertion order. *)
Definition Routes : Type := list (string * Route).

(** [routes.set(pattern, route)] *)
Fixpoint routes_set (routes : Routes) (pattern : string) (route : Route) : Routes :=
  match routes with
  | [] => [(pattern, route)]
  | (k, v) :: rest =>
      if String.eqb k pattern then (k, route) :: rest
      else (k, v) :: routes_set rest pattern route
  end.

(** [routes.get(pathname)] *)
Fixpoint routes_get (routes : Routes) (pathname : string) : option Route :=
  match routes with
  | [] => None
  | (k, v) :: rest => if String.eqb k pathname then Some v else routes_get rest pathname
  end.

(** [router.paid(pattern, handler)] and [router.free(pattern, handler)] *)
Definition paid (routes : Routes) (pattern : string) (handler : WorkerHandler) : Routes :=
  routes_set routes pattern (PaidRoute handler).

Definition free (routes : Routes) (pattern : string) (handler : Request -> Response)
    : Routes :=
  routes_set routes pattern (FreeRoute handler).

Section WithRuntime.
Context `{JSRuntime}.

(** [router.handle(request, env, ctx)]: the route registered for the exact
    path, or 404. The paywall context [handle] builds reaches no handler: a
    free handler is called without it, and the wrapper of a paid one takes
    three arguments. *)
Definition handle (routes : Routes) (config : PaywallConfig) (amb : Ambient)
    (request : Request) : Eff World builtin_exn Response :=
  match routes_get routes (pathname (url request)) with
  | None =>
      mret {| status := 404; statusText := EmptyString;
              resp_headers := [("content-type", "text/plain;charset=UTF-8")];
              resp_body := "Not Found" |}
  | Some (PaidRoute handler) => withX402Paywall handler config amb request
  | Some (FreeRoute handler) => mret (handler request)
  end.

End WithRuntime.
End Router.

(* ================================================================== *)
(** * The mock wallet of payment.ts and the digest of verification.ts *)
(* ================================================================== *)

Module Signing.
Import JS.

(** [s.padStart(n, c)] for a one-character filler. *)
Definition padStart (n : nat) (c : ascii) (s : string) : string :=
  string_of_list_ascii (repeat c (n - String.length s)) +:+ s.

(** [c.repeat(count)]: a RangeError when [count] is negative. *)
Definition String_repeat (c : ascii) (count : Z) : outcome builtin_exn string :=
  if count <? 0 then Throw RangeError
  else Ret (string_of_list_ascii (repeat c (Z.to_nat count))).

(** The loop of [hashMessage] (verification.ts) and of [simpleHash]
    (payment.ts): [hash = ((hash << 5) - hash) + char; hash = hash & hash]. *)
Fixpoint hash31_loop (hash : Z) (s : string) : Z :=
  match s with
  | EmptyString => hash
  | String c s' =>
      hash31_loop (to_int32 (to_int32 (hash * 32) - hash + Z.of_N (code c))) s'
  end.

(** [hashMessage(message)] of verification.ts. *)
Definition hashMessage (message : string) : string :=
  "0x" +:+ padStart 64 "0" (to_radix 16 (Z.abs (hash31_loop 0 message))).

(** [simpleHash(str)] of payment.ts. *)
Definition simpleHash (str : string) : string :=
  to_radix 16 (Z.abs (hash31_loop 0 str)).

Section WithRuntime.
Context `{JSRuntime}.

(** [createPaymentMessage(params)] of verification.ts. *)
Definition createPaymentMessage (params : Client.SignParams) : string :=
  JSON_stringify
    (JObj [ ("seller", JStr (toLowerCase (Client.sp_seller params)));
            ("amount", JStr (Client.sp_amount params));
            ("token", JStr (toLowerCase (Client.sp_token params)));
            ("chainId", JNum (Client.sp_chainId params));
            ("nonce", JStr (Client.sp_nonce params));
            ("expiry", JNum (Client.sp_expiry params)) ]).

(** [createMockWallet(privateKey).getAddress()] *)
Definition mock_address (privateKey : string) : string :=
  "0x" +:+ padStart 40 "0" (String.substring 0 40 privateKey).

(** [createMockWallet(privateKey).signPayment(params)], for [params] with
    the properties in the order [x402Fetch] writes them. *)
Definition mock_signPayment (params : Client.SignParams) : outcome builtin_exn string :=
  let message :=
    JSON_stringify
      (JObj [ ("seller", JStr (Client.sp_seller params));
              ("amount", JStr (Client.sp_amount params));
              ("token", JStr (Client.sp_token params));
              ("chainId", JNum (Client.sp_chainId params));
              ("nonce", JStr (Client.sp_nonce params));
              ("expiry", JNum (Client.sp_expiry params)) ]) in
  let hash := simpleHash message in
  zeros ← String_repeat "0" (130 - Z.of_nat (String.length hash));
  Ret ("0x" +:+ hash +:+ zeros).

(** [createMockWallet(privateKey)] as a [WalletAdapter]. *)
Definition createMockWallet (privateKey : string) : Client.WalletAdapter :=
  {| Client.getAddress := Ret (mock_address privateKey);
     Client.signPayment := fun params => lift_exn Client.Builtin (mock_signPayment params) |}.

End WithRuntime.
End Signing.

(* ================================================================== *)
(** * packages/x402-client: the rest of payment.ts and storage.ts *)
(* ================================================================== *)
Module ClientPayment.
Import JS PolicyEngine Client.

(** [caip2ToChainId(network)] of payment.ts: [0] when the text is not
    [eip155:] and digits. *)
Definition caip2ToChainId (network : string) : outcome string number :=
  match Networks.match_eip155 network with
  | None => Ret (Int 0)
  | Some digits => Networks.parseInt_digits digits
  end.

(** [expiry * 1000], exact while the product is a safe integer. *)
Definition times_1000 (expiry : number) : outcome builtin_exn number :=
  match expiry with
  | Int z => if safe_integer (z * 1000) then Ret (Int (z * 1000)) else OutOfModel
  | other => Ret other
  end.

(** [isPaymentExpired(expiry)]: [Date.now() > expiry * 1000]. *)
Definition isPaymentExpired (expiry : number) (now : Z) : outcome builtin_exn bool :=
  ms ← times_1000 expiry; Ret (num_lt ms (Int now)).

(** [secondsUntilExpiry(expiry)]:
    [Math.max(0, expiry - Math.floor(Date.now() / 1000))]. *)
Definition secondsUntilExpiry (expiry : number) (now : Z) : outcome builtin_exn number :=
  match expiry with
  | Int z =>
      if safe_integer (z - now / 1000) then Ret (Int (Z.max 0 (z - now / 1000)))
      else OutOfModel
  | PosInf => Ret PosInf
  | NegInf => Ret (Int 0)
  | NaN => Ret NaN
  end.

(** The helpers of [InMemorySpendStorage]. *)
Definition getPayments (st : InMemorySpendStorage) : list PaymentRecord := payments st.

Definition getDecisions (st : InMemorySpendStorage) : list DecisionRecord := decisions st.

Definition getBlockedDecisions (st : InMemorySpendStorage) : list DecisionRecord :=
  List.filter (fun d => negb (allow (dec_decision d))) (decisions st).

Definition clear (st : InMemorySpendStorage) : InMemorySpendStorage := empty_storage.

End ClientPayment.

(* ================================================================== *)
(** * A runtime to run examples on *)
(* ================================================================== *)

(** An instance of [JSRuntime] for the closed examples of this file. The
    theorems that hold for every runtime do not depend on it.
    - [toFixed] is exact for NaN, zeros and finite doubles below 10^21 in
      magnitude (above, JavaScript switches to exponent notation);
    - [toString] is exact for integral doubles below 10^21 and prints the
      full decimal expansion of the others (JavaScript stops at the shortest
      digits that read back as the same double);
    - [RegExp] covers the patterns [matchPattern] builds from literal
      characters and wildcards, and is out of the model on any other
      metacharacter;
    - [toISOString] follows the proleptic Gregorian calendar. *)
Module SampleRuntime.
Import JS.

Definition pad_left (width : nat) (s : string) : string :=
  String.concat EmptyString (repeat "0" (width - String.length s)) +:+ s.

(** The digits of [n >= 0] with a point before the last [f] of them. *)
Definition fixed_digits (n : Z) (f : nat) : string :=
  let m := pad_left (S f) (Z_toString n) in
  match f with
  | O => m
  | _ => String.substring 0 (String.length m - f) m +:+ "."
         +:+ String.substring (String.length m - f) f m
  end.

(** [floor (m * 2^e * 10^f + 1/2)] for [m >= 0]. *)
Definition scaled_round (m e : Z) (f : nat) : Z :=
  let scaled := m * 10 ^ Z.of_nat f in
  if 0 <=? e then scaled * 2 ^ e
  else (2 * scaled + 2 ^ (- e)) / 2 ^ (1 - e).

Definition toFixed (x : float) (f : nat) : string :=
  match Prim2SF x with
  | S754_nan => "NaN"
  | S754_infinity false => "Infinity"
  | S754_infinity true => "-Infinity"
  | S754_zero _ => fixed_digits 0 f
  | S754_finite s m e =>
      (if s then "-" else EmptyString) +:+ fixed_digits (scaled_round (Z.pos m) e f) f
  end.

(** The fractional digits of [m * 2^e], [e < 0], without trailing zeros. *)
Definition strip_zeros (s : string) : string :=
  let fix go (l : list ascii) : list ascii :=
    match l with
    | c :: rest => if Ascii.eqb c "0" then go rest else l
    | [] => []
    end in
  string_of_list_ascii (rev (go (rev (list_ascii_of_string s)))).

Definition toString (x : float) : string :=
  match Prim2SF x with
  | S754_nan => "NaN"
  | S754_infinity false => "Infinity"
  | S754_infinity true => "-Infinity"
  | S754_zero _ => "0"
  | S754_finite s m e =>
      let sign := if s then "-" else EmptyString in
      if 0 <=? e then sign +:+ Z_toString (Z.pos m * 2 ^ e)
      else
        let f := Z.to_nat (- e) in
        let digits := pad_left (S f) (Z_toString (Z.pos m * 5 ^ (- e))) in
        let whole := String.substring 0 (String.length digits - f) digits in
        let frac := strip_zeros (String.substring (String.length digits - f) f digits) in
        match frac with
        | EmptyString => sign +:+ whole
        | _ => sign +:+ whole +:+ "." +:+ frac
        end
  end.

(** The regular expressions [matchPattern] builds: [^], then literal
    characters, [[^/]*] and [.*], then [$]. *)
Inductive rx_item : Type :=
| Lit (c : ascii)
| NoSlashStar
| AnyStar.

Definition is_metachar (c : ascii) : bool :=
  existsb (Ascii.eqb c)
    (list_ascii_of_string ("^$.|?*+()[]{}" +:+ backslash)).

Fixpoint rx_items (fuel : nat) (s : string) : option (list rx_item) :=
  match fuel with
  | O => None
  | S fuel' =>
      match s with
      | EmptyString => Some []
      | String "[" (String "^" (String "/" (String "]" (String "*" rest)))) =>
          cons NoSlashStar <$> rx_items fuel' rest
      | String "." (String "*" rest) => cons AnyStar <$> rx_items fuel' rest
      | String c rest =>
          if is_metachar c then None else cons (Lit c) <$> rx_items fuel' rest
      end
  end.

Definition is_line_terminator (c : ascii) : bool :=
  ((code c =? 10) || (code c =? 13))%N.

Fixpoint matches (ts : list rx_item) (s : string) : bool :=
  match ts with
  | [] => match s with EmptyString => true | _ => false end
  | Lit c :: ts' =>
      match s with
      | String d s' => Ascii.eqb c d && matches ts' s'
      | EmptyString => false
      end
  | NoSlashStar :: ts' =>
      (fix star (s : string) : bool :=
         matches ts' s ||
         match s with
         | String d s' => negb (Ascii.eqb d "/") && star s'
         | EmptyString => false
         end) s
  | AnyStar :: ts' =>
      (fix star (s : string) : bool :=
         matches ts' s ||
         match s with
         | String d s' => negb (is_line_terminator d) && star s'
         | EmptyString => false
         end) s
  end.

Definition regexp_test (source subject : string) : outcome builtin_exn bool :=
  match source with
  | String "^" body =>
      let n := String.length body in
      if String.eqb (String.substring (n - 1) 1 body) "$" then
        match rx_items (S n) (String.substring 0 (n - 1) body) with
        | Some ts => Ret (matches ts subject)
        | None => OutOfModel
        end
      else OutOfModel
  | _ => OutOfModel
  end.

(** Days since 1970-01-01 to (year, month, day). *)
Definition civil_from_days (days : Z) : Z * Z * Z :=
  let z := days + 719468 in
  let era := z / 146097 in
  let doe := z - era * 146097 in
  let yoe := (doe - doe / 1460 + doe / 36524 - doe / 146096) / 365 in
  let doy := doe - (365 * yoe + yoe / 4 - yoe / 100) in
  let mp := (5 * doy + 2) / 153 in
  let d := doy - (153 * mp + 2) / 5 + 1 in
  let m := if mp <? 10 then mp + 3 else mp - 9 in
  let y := yoe + era * 400 + (if m <=? 2 then 1 else 0) in
  (y, m, d).

Definition two (n : Z) : string := pad_left 2 (Z_toString n).

Definition toISOString (ms : Z) : string :=
  let '(y, m, d) := civil_from_days (ms / 86400000) in
  let t := ms mod 86400000 in
  let year :=
    if (0 <=? y) && (y <=? 9999) then pad_left 4 (Z_toString y)
    else (if y <? 0 then "-" else "+") +:+ pad_left 6 (Z_toString (Z.abs y)) in
  year +:+ "-" +:+ two m +:+ "-" +:+ two d +:+ "T"
  +:+ two (t / 3600000) +:+ ":" +:+ two (t / 60000 mod 60) +:+ ":"
  +:+ two (t / 1000 mod 60) +:+ "." +:+ pad_left 3 (Z_toString (t mod 1000)) +:+ "Z".

#[global] Instance runtime : JSRuntime := {|
  Number_toFixed := toFixed;
  Double_toString := toString;
  RegExp_test := regexp_test;
  Date_toISOString := toISOString;
|}.

End SampleRuntime.

(* ================================================================== *)
(** * Properties of the policy engine *)
(* ================================================================== *)
Module PolicyEngineProps.
Import JS PolicyEngine.

Section Evaluation.
Context `{JSRuntime}.

(** A verdict that fails. *)
Definition failed (t : RuleTrace) : Prop := passed t = false.

#[local] Instance failed_dec t : Decision (failed t).
Proof. unfold failed. apply _. Defined.

(** The rule loop, read off the list of verdicts: it stops after the first
    failing one unless [fullTrace], clears [allow] on a failure and keeps the
    first failure it met. *)
Lemma runRules_spec rules ft p r c tr al fr :
  runRules rules ft p r c tr al fr =
  let verdicts := map (fun rule : RuleFunction => rule p r c) rules in
  match list_find failed verdicts with
  | None => ((tr ++ verdicts)%list, al, fr)
  | Some (k, t) =>
      ((tr ++ (if ft then verdicts else take (S k) verdicts))%list,
       false, Some (default t fr))
  end.
Proof.
  revert tr al fr. induction rules as [|rule rest IH]; intros tr al fr; simpl.
  - by rewrite app_nil_r.
  - destruct (passed (rule p r c)) eqn:Hpass; simpl.
    + rewrite IH. simpl. rewrite decide_False by (unfold failed; congruence).
      destruct (list_find failed _) as [[k t]|]; simpl;
        rewrite <- app_assoc; simpl; [destruct ft|]; reflexivity.
    + rewrite decide_True by exact Hpass. simpl.
      destruct ft; simpl.
      * rewrite IH. simpl.
        destruct (list_find failed _) as [[k t]|]; simpl;
          rewrite <- app_assoc; simpl; destruct fr; reflexivity.
      * destruct fr; reflexivity.
Qed.

(** The verdicts of the eight default rules, in rule order. *)
Definition verdicts (p : Policy) (r : PaymentRequest) (c : SpendContext) : list RuleTrace :=
  map (fun rule : RuleFunction => rule p r c) ALL_RULES.

Lemma evaluatePolicy_default p r c ft now :
  let d := evaluatePolicy p r c {| rules := None; fullTrace := ft |} now in
  match list_find failed (verdicts p r c) with
  | None =>
      trace d = verdicts p r c /\ allow d = true
      /\ ruleId d = "all_passed" /\ reason d = "All policy rules passed"
  | Some (k, t) =>
      trace d = (if default false ft then verdicts p r c else take (S k) (verdicts p r c))
      /\ allow d = false /\ ruleId d = rt_ruleId t /\ reason d = rt_reason t
  end.
Proof.
  unfold evaluatePolicy. cbn [rules fullTrace default].
  rewrite runRules_spec. fold (verdicts p r c). cbn zeta.
  destruct (list_find failed (verdicts p r c)) as [[k t]|]; cbn; auto.
Qed.

(** Every default rule passed when the decision allows. *)
Lemma allow_all_passed p r c ft now :
  allow (evaluatePolicy p r c {| rules := None; fullTrace := ft |} now) = true ->
  Forall (fun t => passed t = true) (verdicts p r c).
Proof.
  intros Hallow. pose proof (evaluatePolicy_default p r c ft now) as Hd.
  cbn zeta in Hd.
  destruct (list_find failed (verdicts p r c)) as [[k t]|] eqn:Hfind.
  - destruct Hd as (_ & Hfalse & _). congruence.
  - apply list_find_None in Hfind. eapply Forall_impl; [exact Hfind|].
    intros t Ht. unfold failed in Ht. by destruct (passed t).
Qed.



(** The first verdicts, by name. *)
Lemma verdicts_unfold p r c :
  verdicts p r c =
  [ policyEnabledRule p r c; toolDenylistRule p r c; domainDenylistRule p r c;
    toolAllowlistRule p r c; domainAllowlistRule p r c; perCallCapRule p r c;
    dailyCapRule p r c; weeklyCapRule p r c ].
Proof. reflexivity. Qed.

Definition toolDenied (p : Policy) (r : PaymentRequest) : bool :=
  includes (entries (denyTools p)) (tool r).

Definition domainDenied (p : Policy) (r : PaymentRequest) : bool :=
  existsb (domainMatches (domain r)) (entries (denyDomains p)).

Lemma toolDenylistRule_passed p r c :
  passed (toolDenylistRule p r c) = negb (toolDenied p r).
Proof.
  unfold toolDenylistRule, toolDenied, entries, unconfigured.
  destruct (denyTools p) as [[|x l]|]; reflexivity.
Qed.

Lemma toolDenylistRule_id p r c : rt_ruleId (toolDenylistRule p r c) = "tool_denylist".
Proof. unfold toolDenylistRule. destruct (unconfigured _); reflexivity. Qed.

Lemma domainDenylistRule_passed p r c :
  passed (domainDenylistRule p r c) = negb (domainDenied p r).
Proof.
  unfold domainDenylistRule, domainDenied, entries, unconfigured.
  destruct (denyDomains p) as [[|x l]|]; reflexivity.
Qed.

Lemma domainDenylistRule_id p r c : rt_ruleId (domainDenylistRule p r c) = "domain_denylist".
Proof. unfold domainDenylistRule. destruct (unconfigured _); reflexivity. Qed.

(** An enabled policy blocks a denylisted tool or domain, whatever the
    allowlists hold, and reports the denylist rule that failed first. *)
Lemma denylist_blocks p r c ft now :
  enabled p = true ->
  toolDenied p r = true \/ domainDenied p r = true ->
  let d := evaluatePolicy p r c {| rules := None; fullTrace := ft |} now in
  allow d = false /\
  ruleId d = if toolDenied p r then "tool_denylist" else "domain_denylist".
Proof.
  intros Hen Hdeny. pose proof (evaluatePolicy_default p r c ft now) as Hd.
  cbn zeta in *. rewrite verdicts_unfold in Hd.
  cbn [list_find] in Hd.
  rewrite decide_False in Hd by (unfold failed; cbn; congruence).
  destruct (toolDenied p r) eqn:Htool.
  - rewrite decide_True in Hd
      by (unfold failed; rewrite toolDenylistRule_passed, Htool; reflexivity).
    cbn in Hd. destruct Hd as (_ & -> & -> & _).
    by rewrite toolDenylistRule_id.
  - rewrite decide_False in Hd
      by (unfold failed; rewrite toolDenylistRule_passed, Htool; discriminate).
    destruct Hdeny as [|Hdom]; [discriminate|].
    rewrite decide_True in Hd
      by (unfold failed; rewrite domainDenylistRule_passed, Hdom; reflexivity).
    cbn in Hd. destruct Hd as (_ & -> & -> & _).
    by rewrite domainDenylistRule_id.
Qed.


(** The caps behind an allowing decision: the projected daily spend is
    within the daily cap, the price within the effective per-call cap, and
    the projected weekly spend within the weekly cap the rule enforces (a
    cap that is present, not zero and not NaN). *)
Theorem allow_implies_caps p r c ft now :
  let d := evaluatePolicy p r c {| rules := None; fullTrace := ft |} now in
  allow d = true ->
  projectedSpend d = (dailySpentUsd c + priceUsd r)%float
  /\ (projectedSpend d <=? dailyCapUsd p)%float = true
  /\ (priceUsd r <=? effectivePerCallCap p r)%float = true
  /\ forall cap, weeklyCapUsd p = Some cap -> truthy_float cap = true ->
       (weeklySpentUsd c + priceUsd r <=? cap)%float = true.
Proof.
  intros d Hallow. apply allow_all_passed in Hallow.
  rewrite verdicts_unfold in Hallow.
  repeat (apply Forall_cons in Hallow as [? Hallow]).
  assert (Hproj : projectedSpend d = (dailySpentUsd c + priceUsd r)%float).
  { subst d. unfold evaluatePolicy.
    destruct (runRules _ _ p r c [] true None) as [[tr al] fr]. reflexivity. }
  rewrite Hproj.
  split; [reflexivity|]. split; [assumption|]. split; [assumption|].
  intros cap Hcap Htruthy.
  match goal with Hw : passed (weeklyCapRule p r c) = true |- _ =>
    unfold weeklyCapRule, enforcedWeeklyCap in Hw; rewrite Hcap, Htruthy in Hw;
    exact Hw end.
Qed.

End Evaluation.

(** ** Closed examples, on the sample runtime *)

Import SampleRuntime.

(** A request from the spec's running example. *)
Definition quote_request : PaymentRequest :=
  {| endpoint := "/tool/quote"; tool := "quote"; domain := "api.example.com";
     priceUsd := 0.25%float; callerId := "agent-123" |}.

Definition fresh_context : SpendContext := createSpendContext "agent-123" 0.

(** A policy with a weekly cap of zero dollars. *)
Definition zero_weekly_policy : Policy :=
  {| id := "p"; name := "P"; dailyCapUsd := 1%float; weeklyCapUsd := Some 0%float;
     perCallCapUsd := 0.5%float; allowTools := Some []; denyTools := Some [];
     allowDomains := Some []; denyDomains := Some []; endpointCaps := Some ∅;
     enabled := true |}.

(** C1 at a weekly cap of [0]: the policy configures a weekly cap, the
    decision allows the payment with every rule passing, and the projected
    weekly spend (0.25) is above the cap (0). The weekly rule reports that
    no weekly cap is configured. *)
Theorem zero_weekly_cap_is_not_enforced :
  let d := evaluatePolicy zero_weekly_policy quote_request fresh_context no_options 0 in
  weeklyCapUsd zero_weekly_policy = Some 0%float
  /\ allow d = true
  /\ ruleId d = "all_passed"
  /\ (weeklySpentUsd fresh_context + priceUsd quote_request <=? 0)%float = false
  /\ rt_reason <$> last (trace d) = Some "No weekly cap configured".
Proof. vm_compute. repeat split. Qed.

(** A policy whose deny lists hold both the tool and the domain of
    [quote_request], and whose domain allowlist holds the domain too. *)
Definition double_deny_policy : Policy :=
  {| id := "p"; name := "P"; dailyCapUsd := 1%float; weeklyCapUsd := None;
     perCallCapUsd := 0.5%float; allowTools := Some [];
     denyTools := Some ["quote"];
     allowDomains := Some ["example.com"]; denyDomains := Some ["example.com"];
     endpointCaps := None; enabled := true |}.



(** The demo policy: one dollar a day, fifty cents a call, five a week. *)
Definition demo_policy : Policy :=
  {| id := "demo"; name := "Demo"; dailyCapUsd := 1%float; weeklyCapUsd := Some 5%float;
     perCallCapUsd := 0.5%float; allowTools := Some []; denyTools := None;
     allowDomains := None; denyDomains := None;
     endpointCaps := Some (<["/tool/quote" := 0.25%float]> ∅);
     enabled := true |}.

Lemma allow_implies_caps_witness :
  let d := evaluatePolicy demo_policy quote_request fresh_context no_options 0 in
  projectedSpend d = (dailySpentUsd fresh_context + priceUsd quote_request)%float
  /\ (projectedSpend d <=? dailyCapUsd demo_policy)%float = true
  /\ (priceUsd quote_request <=? effectivePerCallCap demo_policy quote_request)%float = true
  /\ forall cap, weeklyCapUsd demo_policy = Some cap -> truthy_float cap = true ->
       (weeklySpentUsd fresh_context + priceUsd quote_request <=? cap)%float = true.
Proof.
  apply (allow_implies_caps demo_policy quote_request fresh_context None 0).
  vm_compute. reflexivity.
Defined.

End PolicyEngineProps.

(* ================================================================== *)
(** * Properties of the seller middleware *)
(* ================================================================== *)
Module WorkerProps.
Import JS Wire Worker.

Section Verification.
Context `{JSRuntime}.

Lemma BigInt_Ret s z : BigInt s = Ret z <-> StringToBigInt s = Some z.
Proof.
  unfold BigInt. destruct (StringToBigInt s); split; intros Heq;
    inversion Heq; reflexivity.
Qed.

(** What [verifyPayment] returns when signatures are not verified, check by
    check. *)
Lemma verifyPayment_unfold payment pricing config amb :
  default false (verifySignatures config) = false ->
  verifyPayment payment pricing config amb =
  if num_lt (expiry payment) (Int (unix_seconds amb)) then
    Ret (rejected "Payment has expired")
  else if negb (String.eqb (toLowerCase (pp_token payment)) (toLowerCase (token pricing))) then
    Ret (rejected "Token mismatch")
  else if negb (num_strict_eq (pp_chainId payment) (chainId pricing)) then
    Ret (rejected "Chain ID mismatch")
  else
    match StringToBigInt (amount payment), StringToBigInt (priceToken pricing) with
    | Some paid, Some required =>
        if paid <? required then Ret (rejected "Insufficient payment amount")
        else Ret {| valid := true; reason := None |}
    | _, _ => Throw SyntaxError
    end.
Proof.
  intros Hoff. unfold verifyPayment, BigInt.
  destruct (num_lt _ _); [reflexivity|].
  destruct (negb (String.eqb _ _)); [reflexivity|].
  destruct (negb (num_strict_eq _ _)); [reflexivity|].
  destruct (StringToBigInt (amount payment)) as [paid|]; cbn; [|reflexivity].
  destruct (StringToBigInt (priceToken pricing)) as [required|]; cbn; [|reflexivity].
  rewrite Hoff. destruct (paid <? required); reflexivity.
Qed.


End Verification.

Section Middleware.
Context `{JSRuntime}.

(** No pattern of the price schedule matches the endpoint. *)
Definition no_pattern_matches (endpoint : string) (entries : list (string * PricingEntry))
    : Prop :=
  Forall (fun entry => matchPattern endpoint (fst entry) = Ret false) entries.

Lemma first_match_None endpoint entries :
  first_match endpoint entries = Ret None <-> no_pattern_matches endpoint entries.
Proof.
  unfold no_pattern_matches. induction entries as [|[pattern price] rest IH]; cbn.
  - split; [constructor | reflexivity].
  - destruct (matchPattern endpoint pattern) as [[|]| |] eqn:Hm; cbn.
    + split; [discriminate|]. intros Hall. inversion Hall; subst. cbn in *. congruence.
    + rewrite IH. split.
      * intros Hrest. constructor; [exact Hm | exact Hrest].
      * intros Hall. inversion Hall; assumption.
    + split; [discriminate|]. intros Hall. inversion Hall; subst. cbn in *. congruence.
    + split; [discriminate|]. intros Hall. inversion Hall; subst. cbn in *. congruence.
Qed.

Lemma normalizePricing_Some entry config :
  Some <$> normalizePricing entry config <> Ret None.
Proof.
  destruct entry as [usd|p]; cbn; [|discriminate].
  destruct (usdToToken usd); cbn; discriminate.
Qed.

(** [getPriceForEndpoint] returns [null] exactly when the endpoint has no
    entry of its own, no pattern matches it and no default price is set. *)
Lemma getPriceForEndpoint_None endpoint config :
  getPriceForEndpoint endpoint config = Ret None <->
  lookup_pricing endpoint (pricing config) = None
  /\ no_pattern_matches endpoint (pricing config)
  /\ defaultPriceUsd config = None.
Proof.
  unfold getPriceForEndpoint.
  destruct (lookup_pricing endpoint (pricing config)) as [entry|] eqn:Hlook.
  - split.
    + intros Hret. by apply normalizePricing_Some in Hret.
    + intros (Hnone & _). discriminate.
  - rewrite <- first_match_None.
    destruct (first_match endpoint (pricing config)) as [[price|]| |];
      cbn -[normalizePricing].
    + split; [intros Hret; by apply normalizePricing_Some in Hret|].
      intros (_ & Hfm & _). discriminate.
    + destruct (defaultPriceUsd config) as [usd|].
      * split; [intros Hret; by apply normalizePricing_Some in Hret|].
        intros (_ & _ & Hdef). discriminate.
      * split; auto.
    + split; [discriminate|]. intros (_ & Hfm & _). discriminate.
    + split; [discriminate|]. intros (_ & Hfm & _). discriminate.
Qed.

(** C9. A request whose endpoint resolves to no pricing entry (no entry of
    its own, no matching pattern, no default price) is answered by one call
    of the handler with the context [{paid: false, priceUsd: 0, nonce: ''}];
    the handler's response is returned as it is, the KV namespace and the
    receipts are left as they were, and the call of the handler is the only
    thing the middleware does: no KV read or write, no receipt, no
    challenge. *)
Theorem unpriced_passes_through handler config amb request w :
  lookup_pricing (pathname (url request)) (pricing config) = None ->
  no_pattern_matches (pathname (url request)) (pricing config) ->
  defaultPriceUsd config = None ->
  getPriceForEndpoint (pathname (url request)) config = Ret None
  /\ paid unpaid_context = false
  /\ ctx_priceUsd unpaid_context = 0%float
  /\ ctx_nonce unpaid_context = EmptyString
  /\ withX402Paywall handler config amb request w =
     (Ret (handler request unpaid_context),
      {| kv_store := kv_store w;
         receipts := receipts w;
         events := events w ++ [HandlerCalled request unpaid_context] |}).
Proof.
  intros Hlook Hpat Hdef.
  assert (Hnone : getPriceForEndpoint (pathname (url request)) config = Ret None)
    by (apply getPriceForEndpoint_None; auto).
  repeat split; try assumption.
  unfold withX402Paywall, mbind, eff_mbind, eff_bind, eff_lift.
  rewrite Hnone. reflexivity.
Qed.

(** The request is for a priced endpoint and carries a payment header that
    parses to [payment] and passes [verifyPayment]. *)
Definition carries_valid_proof (config : PaywallConfig) (amb : Ambient)
    (request : Request) (payment : ParsedPayment) : Prop :=
  exists pricing header raw verification,
    getPriceForEndpoint (pathname (url request)) config = Ret (Some pricing)
    /\ paymentHeaderOf request = Some header
    /\ truthy_string header = true
    /\ parsePaymentHeader header = Ret (Some raw)
    /\ typed raw = Some payment
    /\ verifyPayment payment pricing config amb = Ret verification
    /\ valid verification = true.

(** The calls of the handler made for a nonce, among some events. *)
Fixpoint handler_calls (n : string) (evs : list Event) : nat :=
  match evs with
  | [] => 0
  | HandlerCalled _ ctx :: rest =>
      (if String.eqb (ctx_nonce ctx) n then 1 else 0) + handler_calls n rest
  | _ :: rest => handler_calls n rest
  end.

Definition is_receipt (e : Event) : Prop :=
  match e with ReceiptStored _ => True | _ => False end.

Lemma handler_calls_app n evs evs' :
  handler_calls n (evs ++ evs') = (handler_calls n evs + handler_calls n evs')%nat.
Proof.
  induction evs as [|e evs IH]; [reflexivity|].
  destruct e; cbn; rewrite IH; lia.
Qed.

Lemma handler_calls_receipts n evs :
  Forall is_receipt evs -> handler_calls n evs = 0%nat.
Proof.
  induction 1 as [|e evs He _ IH]; [reflexivity|].
  destruct e; cbn in *; try contradiction. exact IH.
Qed.

(** A request with a valid proof goes through the replay check and then to
    the handler. *)
Lemma paid_path handler config amb request payment w :
  carries_valid_proof config amb request payment ->
  exists pricing verification,
    withX402Paywall handler config amb request w =
    match check_replay config amb payment w with
    | (Ret (Some response), w') => (Ret response, w')
    | (Ret None, w') =>
        fulfil handler config amb request pricing payment verification
          (generateNonce amb) w'
    | (Throw e, w') => (Throw e, w')
    | (OutOfModel, w') => (OutOfModel, w')
    end.
Proof.
  intros (pricing & header & raw & verification & Hprice & Hhdr & Htruthy
          & Hparse & Htyped & Hverify & Hvalid).
  exists pricing, verification.
  unfold withX402Paywall, mbind, eff_mbind, eff_bind, eff_lift.
  rewrite Hprice, Hhdr, Htruthy. cbn [negb].
  rewrite Hparse, Htyped, Hverify, Hvalid. cbn [negb].
  destruct (check_replay config amb payment w) as [[[response|]| |] w']; reflexivity.
Qed.

(** What [fulfil] does to the world: it calls the handler, then at most
    stores a receipt; the KV namespace is not touched. *)
Lemma fulfil_world handler config amb request pricing payment verification nonce w :
  let w' := snd (fulfil handler config amb request pricing payment verification nonce w) in
  exists ctx rest,
    events w' = events w ++ HandlerCalled request ctx :: rest
    /\ paid ctx = true
    /\ ctx_nonce ctx = Worker.nonce payment
    /\ Forall is_receipt rest
    /\ kv_store w' = kv_store w.
Proof.
  unfold fulfil, mbind, eff_mbind, eff_bind, call_handler.
  cbn -[PolicyEngine.createContentHash PolicyEngine.generateId].
  destruct (db config).
  - unfold eff_lift.
    destruct (iso_of_seconds (expiry payment)) as [text| |];
      cbn -[PolicyEngine.createContentHash PolicyEngine.generateId];
      eexists _, _;
      (split; [rewrite <- ?app_assoc; cbn [app]; reflexivity|]);
      repeat split; repeat constructor.
  - cbn -[PolicyEngine.createContentHash PolicyEngine.generateId].
    eexists _, _; (split; [reflexivity|]); repeat split; repeat constructor.
Qed.

(** C2, amended. With replay checking configured, take two requests that
    carry valid proofs with the same nonce, the first arriving while the
    nonce is not marked and the second before the mark expires, 86400
    seconds after the first. The first reads the mark, sets it and only
    then calls the handler; the second is answered 400 with the error
    "Payment nonce already used" after reading the mark, and neither calls
    the handler nor writes anything. Over both requests the handler is
    called once for the nonce. *)
Theorem replayed_nonce_is_rejected handler config amb1 amb2
    request1 request2 payment1 payment2 w0 :
  default false (checkReplay config) = true ->
  kv config = true ->
  carries_valid_proof config amb1 request1 payment1 ->
  carries_valid_proof config amb2 request2 payment2 ->
  nonce payment1 = nonce payment2 ->
  present (kv_lookup w0 ("nonce:" +:+ nonce payment1) (now amb1)) = false ->
  now amb2 < now amb1 + 86400 * 1000 ->
  let key := "nonce:" +:+ nonce payment1 in
  let run1 := withX402Paywall handler config amb1 request1 w0 in
  let run2 := withX402Paywall handler config amb2 request2 (snd run1) in
  (exists ctx rest,
     events (snd run1) =
       events w0 ++ [KvGet key; KvPut key "1" 86400; HandlerCalled request1 ctx] ++ rest
     /\ paid ctx = true
     /\ ctx_nonce ctx = nonce payment1
     /\ Forall is_receipt rest)
  /\ (exists response,
        fst run2 = Ret response
        /\ status response = 400
        /\ resp_body response =
           "{" +:+ dquote +:+ "error" +:+ dquote +:+ ":" +:+ dquote
           +:+ "Payment nonce already used" +:+ dquote +:+ "}")
  /\ events (snd run2) = events (snd run1) ++ [KvGet key]
  /\ kv_store (snd run2) = kv_store (snd run1)
  /\ receipts (snd run2) = receipts (snd run1)
  /\ (exists done, events (snd run2) = events w0 ++ done
                   /\ handler_calls (nonce payment1) done = 1%nat).
Proof.
  intros Hreplay Hkv Hvalid1 Hvalid2 Hnonce Hfresh Hwindow key run1 run2.
  destruct (paid_path handler config amb1 request1 payment1 w0 Hvalid1)
    as (pricing1 & verification1 & Hrun1).
  (* the first request: the mark is read, set, and the handler runs *)
  assert (Hcheck1 : check_replay config amb1 payment1 w0 =
            (Ret None,
             {| kv_store := <[key := {| kv_value := "1";
                                        kv_expires := now amb1 + 86400 * 1000 |}]>
                              (kv_store w0);
                receipts := receipts w0;
                events := (events w0 ++ [KvGet key]) ++ [KvPut key "1" 86400] |})).
  { unfold check_replay. rewrite Hreplay, Hkv. cbn [andb].
    unfold mbind, eff_mbind, eff_bind, kv_get. cbv beta iota.
    rewrite Hfresh. reflexivity. }
  rewrite Hcheck1 in Hrun1.
  pose proof (fulfil_world handler config amb1 request1 pricing1 payment1 verification1
                (generateNonce amb1)
                {| kv_store := <[key := {| kv_value := "1";
                                           kv_expires := now amb1 + 86400 * 1000 |}]>
                                 (kv_store w0);
                   receipts := receipts w0;
                   events := (events w0 ++ [KvGet key]) ++ [KvPut key "1" 86400] |})
    as (ctx & rest & Hev1 & Hpaid & Hctx & Hrest & Hkv1).
  cbn zeta in Hev1, Hkv1. rewrite <- Hrun1 in Hev1, Hkv1. fold run1 in Hev1, Hkv1.
  cbn [events kv_store] in Hev1, Hkv1.
  assert (Hevents1 : events (snd run1) =
            events w0 ++ [KvGet key; KvPut key "1" 86400; HandlerCalled request1 ctx] ++ rest).
  { rewrite Hev1. rewrite <- !app_assoc. reflexivity. }
  (* the second request: the mark is found *)
  destruct (paid_path handler config amb2 request2 payment2 (snd run1) Hvalid2)
    as (pricing2 & verification2 & Hrun2).
  assert (Hcheck2 : check_replay config amb2 payment2 (snd run1) =
            (Ret (Some (json_response 400 []
                          (JObj [("error", JStr "Payment nonce already used")]))),
             log (KvGet key) (snd run1))).
  { unfold check_replay. rewrite Hreplay, Hkv. cbn [andb].
    unfold mbind, eff_mbind, eff_bind, kv_get. cbv beta iota.
    rewrite <- Hnonce. unfold kv_lookup.
    rewrite Hkv1. unfold key. rewrite lookup_insert_eq. cbn [kv_expires kv_value].
    replace (now amb2 <? now amb1 + 86400 * 1000) with true
      by (symmetry; apply Z.ltb_lt; exact Hwindow).
    reflexivity. }
  rewrite Hcheck2 in Hrun2. fold run2 in Hrun2.
  split; [exists ctx, rest; auto|].
  split; [eexists; rewrite Hrun2; split; [reflexivity|]; split; reflexivity|].
  rewrite Hrun2. cbn [snd log events kv_store receipts].
  repeat split.
  exists ([KvGet key; KvPut key "1" 86400; HandlerCalled request1 ctx] ++ rest ++ [KvGet key]).
  split.
  - rewrite Hevents1. rewrite <- !app_assoc. reflexivity.
  - cbn [app handler_calls]. rewrite Hctx, String.eqb_refl.
    rewrite handler_calls_app, (handler_calls_receipts _ _ Hrest). reflexivity.
Qed.

End Middleware.

(** ** Closed examples, on the sample runtime *)

Import SampleRuntime.

Definition usdc : string := "0x036CbD53842c5426634e7929541eC2318f3dCF7e".

(** A shop with one priced endpoint, replay checking and a receipts table. *)
Definition shop : PaywallConfig :=
  {| sellerAddress := "0x5e11e5";
     defaultToken := usdc;
     defaultChainId := Int 84532;
     pricing := [("/tool/quote", PriceUsd 0.25)];
     defaultPriceUsd := None;
     expiryDuration := None;
     verifySignatures := None;
     checkReplay := Some true;
     db := true;
     kv := true |}.

(** A proof for that endpoint, its token address written in lower case. *)
Definition buyer_proof : Client.PaymentProof :=
  {| Client.signature := "0xfeedbeef";
     Client.payer := "0xb0b";
     Client.p_nonce := "nonce_1";
     Client.p_expiry := Int 1800000000;
     Client.amount := "250000";
     Client.p_token := toLowerCase usdc;
     Client.p_chainId := Int 84532;
     Client.txHash := None |}.

Definition buyer_header : string :=
  Eval vm_compute in
    match Client.createPaymentHeader buyer_proof with
    | Ret header => header
    | _ => EmptyString
    end.

Definition buyer_payment : ParsedPayment :=
  {| signature := "0xfeedbeef"; payer := "0xb0b"; nonce := "nonce_1";
     expiry := Int 1800000000; amount := "250000"; pp_token := toLowerCase usdc;
     pp_chainId := Int 84532; txHash := None |}.

Definition quote_url : URL :=
  {| href := "https://api.example.com/tool/quote";
     pathname := "/tool/quote";
     hostname := "api.example.com" |}.

Definition paid_request : Request :=
  {| url := quote_url; method := "POST";
     req_headers := [("X-PAYMENT", buyer_header)]; req_body := "{}" |}.

Definition free_request : Request :=
  {| url := {| href := "https://api.example.com/catalog";
               pathname := "/catalog"; hostname := "api.example.com" |};
     method := "GET"; req_headers := []; req_body := EmptyString |}.

Definition done_handler : WorkerHandler := fun _ _ =>
  {| status := 200; statusText := "OK"; resp_headers := []; resp_body := "done" |}.

Definition at_instant (t : Z) : Ambient :=
  {| now := t; random_nonce := "abcdefgh"; random_receipt := "ijklmnop" |}.

Definition empty_world : World := {| kv_store := ∅; receipts := []; events := [] |}.

Definition quote_pricing : EndpointPricing :=
  {| priceUsd := 0.25; priceToken := "250000"; token := usdc; chainId := Int 84532;
     description := None; schemes := None |}.

Lemma paid_request_valid t :
  t / 1000 <= 1800000000 ->
  carries_valid_proof shop (at_instant t) paid_request buyer_payment.
Proof.
  intros Ht. exists quote_pricing, buyer_header.
  eexists _, {| valid := true; reason := None |}.
  split; [vm_compute; reflexivity|].
  split; [reflexivity|]. split; [reflexivity|].
  split; [vm_compute; reflexivity|]. split; [vm_compute; reflexivity|].
  split; [|reflexivity].
  rewrite verifyPayment_unfold by reflexivity.
  replace (num_lt (expiry buyer_payment) (Int (unix_seconds (at_instant t)))) with false.
  - vm_compute. reflexivity.
  - symmetry. apply Z.ltb_ge. exact Ht.
Qed.



Lemma unpriced_passes_through_witness :
  withX402Paywall done_handler shop (at_instant 1700000000000) free_request empty_world =
  (Ret (done_handler free_request unpaid_context),
   {| kv_store := ∅; receipts := [];
      events := [HandlerCalled free_request unpaid_context] |}).
Proof.
  apply (unpriced_passes_through done_handler shop (at_instant 1700000000000)
           free_request empty_world).
  - reflexivity.
  - repeat constructor.
  - reflexivity.
Defined.

(** C2 as stated fails: the same valid proof presented a second time a day
    after the first is served again, the mark of its nonce having expired. *)
Lemma replay_after_a_day_is_served :
  let first := at_instant 1700000000000 in
  let second := at_instant (1700000000000 + 86400 * 1000) in
  let run1 := withX402Paywall done_handler shop first paid_request empty_world in
  let run2 := withX402Paywall done_handler shop second paid_request (snd run1) in
  carries_valid_proof shop first paid_request buyer_payment
  /\ carries_valid_proof shop second paid_request buyer_payment
  /\ checkReplay shop = Some true /\ kv shop = true
  /\ status <$> (match fst run2 with Ret r => Some r | _ => None end) = Some 200
  /\ handler_calls (nonce buyer_payment) (events (snd run2)) = 2%nat.
Proof.
  split; [apply paid_request_valid; vm_compute; discriminate|].
  split; [apply paid_request_valid; vm_compute; discriminate|].
  vm_compute. repeat split.
Qed.

Lemma replayed_nonce_is_rejected_witness :
  let first := at_instant 1700000000000 in
  let second := at_instant 1700000060000 in
  let run1 := withX402Paywall done_handler shop first paid_request empty_world in
  let run2 := withX402Paywall done_handler shop second paid_request (snd run1) in
  (exists response, fst run2 = Ret response /\ status response = 400
     /\ resp_body response =
        "{" +:+ dquote +:+ "error" +:+ dquote +:+ ":" +:+ dquote
        +:+ "Payment nonce already used" +:+ dquote +:+ "}")
  /\ exists done, events (snd run2) = events empty_world ++ done
                  /\ handler_calls (nonce buyer_payment) done = 1%nat.
Proof.
  pose proof (replayed_nonce_is_rejected done_handler shop
                (at_instant 1700000000000) (at_instant 1700000060000)
                paid_request paid_request buyer_payment buyer_payment empty_world)
    as Hthm.
  cbn zeta in Hthm |- *.
  destruct Hthm as (_ & Hresp & _ & _ & _ & Hcalls).
  - reflexivity.
  - reflexivity.
  - apply paid_request_valid. vm_compute. discriminate.
  - apply paid_request_valid. vm_compute. discriminate.
  - reflexivity.
  - reflexivity.
  - vm_compute. reflexivity.
  - split; assumption.
Defined.

End WorkerProps.

(* ================================================================== *)
(** * Properties of the caller orchestrator *)
(* ================================================================== *)
Module ClientProps.
Import JS Wire PolicyEngine Client.

Section Orchestration.
Context `{JSRuntime} {S : Type} `{SpendStorage S}.
Variable network : nat -> URL -> RequestInit -> outcome exn Response.
Variable parse402Headers : Response -> Ambient -> option X402Headers.

#[local] Abbreviation World := (@World S).
#[local] Abbreviation x402Fetch := (x402Fetch network parse402Headers).
#[local] Abbreviation retry := (retry network).
#[local] Abbreviation fetch := (fetch network).

(** ** The orchestrator only ever adds to its record *)

Definition grows {A} (m : Eff World exn A) : Prop :=
  forall w, exists added, events (snd (m w)) = events w ++ added.

Lemma grows_ret {A} (a : A) : grows (mret a : Eff World exn A).
Proof. intros w. exists []. cbn. by rewrite app_nil_r. Qed.

Lemma grows_throw {A} e : grows (eff_throw e : Eff World exn A).
Proof. intros w. exists []. cbn. by rewrite app_nil_r. Qed.

Lemma grows_lift {A} (m : outcome exn A) : grows (eff_lift m : Eff World exn A).
Proof. intros w. exists []. cbn. by rewrite app_nil_r. Qed.

Lemma grows_bind {A B} (m : Eff World exn A) (k : A -> Eff World exn B) :
  grows m -> (forall a, grows (k a)) -> grows (m ≫= k).
Proof.
  intros Hm Hk w. unfold mbind, eff_mbind, eff_bind.
  destruct (Hm w) as [added Hadded].
  destruct (m w) as [[a|e|] w']; cbn in *; eauto.
  destruct (Hk a w') as [added' Hadded'].
  exists (added ++ added'). rewrite Hadded', Hadded. by rewrite app_assoc.
Qed.

Lemma grows_try {A} (m : Eff World exn A) (h : exn -> Eff World exn A) :
  grows m -> (forall e, grows (h e)) -> grows (eff_try m h).
Proof.
  intros Hm Hh w. unfold eff_try.
  destruct (Hm w) as [added Hadded].
  destruct (m w) as [[a|e|] w']; cbn in *; eauto.
  destruct (Hh e w') as [added' Hadded'].
  exists (added ++ added'). rewrite Hadded', Hadded. by rewrite app_assoc.
Qed.

Lemma grows_log {A} (f : World -> outcome exn A * World) (e : Event) :
  (forall w, events (snd (f w)) = events w ++ [e]) -> grows f.
Proof. intros Hf w. exists [e]. apply Hf. Qed.

Lemma grows_fetch input init : grows (fetch input init).
Proof. apply (grows_log _ (Fetched input init)). reflexivity. Qed.

Lemma grows_recordPayment cid amountUsd meta amb :
  grows (storage_recordPayment cid amountUsd meta amb).
Proof. apply (grows_log _ (PaymentRecorded cid amountUsd meta)). reflexivity. Qed.

Lemma grows_notify given e : grows (notify given e).
Proof.
  intros w. unfold notify. destruct given; cbn.
  - by exists [e].
  - exists []. by rewrite app_nil_r.
Qed.

Lemma grows_sign wallet params : grows (wallet_signPayment wallet params).
Proof. apply (grows_log _ (SignRequested params)). reflexivity. Qed.

Lemma grows_address wallet : grows (wallet_getAddress wallet).
Proof. apply (grows_log _ AddressRequested). reflexivity. Qed.

Create HintDb grows.
#[local] Hint Resolve grows_ret grows_throw grows_lift grows_fetch grows_recordPayment
  grows_notify grows_sign grows_address : grows.

Lemma grows_retry remaining lastError input init cid maxRetries headers
    paymentRequest proof decision amb :
  grows (retry remaining lastError input init cid maxRetries headers
           paymentRequest proof decision amb).
Proof.
  revert lastError. induction remaining as [|remaining IH]; intros lastError; cbn [Client.retry].
  - apply grows_throw.
  - apply grows_try; [|intros e; apply IH].
    apply grows_bind; [auto with grows|]. intros paymentHeader.
    apply grows_bind; [auto with grows|]. intros response.
    apply grows_bind; [destruct (ok response); auto with grows|]. intros _.
    apply grows_ret.
Qed.

Lemma grows_getSpendContext cid amb : grows (storage_getSpendContext cid amb).
Proof.
  intros w. exists [SpendContextRead cid]. unfold storage_getSpendContext.
  destruct (getSpendContext cid amb (storage w)). reflexivity.
Qed.

Lemma grows_recordDecision cid decision meta amb :
  grows (storage_recordDecision cid decision meta amb).
Proof. apply (grows_log _ (DecisionRecorded cid decision meta)). reflexivity. Qed.

Ltac grows_steps :=
  repeat first
    [ apply grows_retry | apply grows_ret | apply grows_throw | apply grows_lift
    | apply grows_fetch | apply grows_recordPayment | apply grows_notify
    | apply grows_sign | apply grows_address
    | apply grows_getSpendContext | apply grows_recordDecision
    | apply grows_bind; [|intros ?]
    | apply grows_try; [|intros ?]
    | match goal with |- grows (if ?b then _ else _) => destruct b end ].

(** One step of a sequence whose first computation returns. *)
Lemma bind_Ret {A B} (m : Eff World exn A) (k : A -> Eff World exn B) w a w' :
  m w = (Ret a, w') -> (m ≫= k) w = k a w'.
Proof. intros Hm. unfold mbind, eff_mbind, eff_bind. by rewrite Hm. Qed.

Lemma bind_Throw {A B} (m : Eff World exn A) (k : A -> Eff World exn B) w e w' :
  m w = (Throw e, w') -> (m ≫= k) w = (Throw e, w').
Proof. intros Hm. unfold mbind, eff_mbind, eff_bind. by rewrite Hm. Qed.

(** ** The paid retry *)

(** The header [createPaymentHeader] builds; in this model it never throws. *)
Definition header_of (proof : PaymentProof) : string :=
  match createPaymentHeader proof with
  | Ret header => header
  | _ => EmptyString
  end.

Lemma createPaymentHeader_Ret proof : createPaymentHeader proof = Ret (header_of proof).
Proof. reflexivity. Qed.

(** The request of the paid retry: [init] with the two payment headers. *)
Definition paid_init (init : RequestInit) (proof : PaymentProof) : RequestInit :=
  {| init_method := init_method init;
     init_headers :=
       object_set (object_set (init_headers init) "PAYMENT-SIGNATURE" (header_of proof))
         "X-PAYMENT" (header_of proof);
     init_body := init_body init |}.

(** [response.headers.get('X-RECEIPT-ID') || undefined] *)
Definition receipt_id_of (response : Response) : option string :=
  match headers_get (resp_headers response) "X-RECEIPT-ID" with
  | Some rid => if truthy_string rid then Some rid else None
  | None => None
  end.

Section Retry.
Variables (input : URL) (init : RequestInit) (cid : string) (maxRetries : Z)
  (headers : X402Headers) (paymentRequest : PaymentRequest)
  (proof : PaymentProof) (decision : PolicyDecision) (amb : Ambient)
  (response : Response).

Let metadata : PaymentMetadata :=
  {| pm_endpoint := endpoint paymentRequest;
     pm_nonce := nonce headers;
     pm_paymentRef := String.substring 0 16 (signature proof) |}.

(** The loop when its first [k] requests are rejected and the next one
    resolves, whatever the status of the response: the response is returned
    marked as paid, and the payment is recorded exactly when the response is
    [ok]. *)
Lemma retry_resolves (k : nat) :
  forall (remaining : nat) (lastError : option exn) (w : World),
  (k < remaining)%nat ->
  (forall j, (j < k)%nat ->
     exists e, network (sent w + j)%nat input (paid_init init proof) = Throw e) ->
  network (sent w + k)%nat input (paid_init init proof) = Ret response ->
  let run := retry remaining lastError input init cid maxRetries headers
               paymentRequest proof decision amb w in
  fst run = Ret {| Client.response := response; x402Paid := true;
                   x402Payment := Some proof; x402Decision := Some decision;
                   x402ReceiptId := receipt_id_of response |}
  /\ storage (snd run) =
       (if ok response
        then recordPayment cid (h_priceUsd headers) metadata amb (storage w)
        else storage w)
  /\ sent (snd run) = (sent w + Datatypes.S k)%nat
  /\ events (snd run) =
       events w ++ repeat (Fetched input (paid_init init proof)) (Datatypes.S k)
       ++ (if ok response
           then [PaymentRecorded cid (h_priceUsd headers) metadata] else []).
Proof.
  induction k as [|k IH]; intros remaining lastError w Hlt Hfail Hok;
    (destruct remaining as [|remaining]; [lia|]); cbn [Client.retry].
  - rewrite Nat.add_0_r in Hok.
    unfold eff_try. rewrite createPaymentHeader_Ret. cbn [lift_exn].
    erewrite bind_Ret by reflexivity. fold (paid_init init proof).
    erewrite bind_Ret by (unfold Client.fetch; rewrite Hok; reflexivity).
    fold metadata. fold (receipt_id_of response).
    destruct (ok response); erewrite bind_Ret by reflexivity;
      unfold mret, eff_mret, eff_ret, log, on_storage;
      cbn [fst snd storage sent events repeat]; repeat split;
      rewrite <- ?app_assoc, ?app_nil_r; try reflexivity; lia.
  - destruct (Hfail 0%nat ltac:(lia)) as [e He]. rewrite Nat.add_0_r in He.
    unfold eff_try. rewrite createPaymentHeader_Ret. cbn [lift_exn].
    erewrite bind_Ret by reflexivity. fold (paid_init init proof).
    erewrite bind_Throw by (unfold Client.fetch; rewrite He; reflexivity).
    set (w1 := log _ _).
    specialize (IH remaining (Some (as_Error e)) w1).
    assert (Hsent : sent w1 = Datatypes.S (sent w)) by reflexivity.
    destruct IH as (Hret & Hst & Hsn & Hev).
    + lia.
    + intros j Hj. rewrite Hsent.
      replace (Datatypes.S (sent w) + j)%nat with (sent w + Datatypes.S j)%nat by lia.
      apply Hfail. lia.
    + rewrite Hsent.
      replace (Datatypes.S (sent w) + k)%nat with (sent w + Datatypes.S k)%nat by lia.
      exact Hok.
    + cbn zeta in *. rewrite Hret, Hst, Hsn, Hev, Hsent. repeat split; try lia.
      unfold w1, log. cbn [events repeat]. rewrite <- !app_assoc. reflexivity.
Qed.

End Retry.

(** ** The call up to the recorded decision *)

Section Challenged.
Variables (input : URL) (init : RequestInit) (options : X402FetchOptions)
  (amb : Ambient) (w : World) (probe : Response) (headers : X402Headers).
Hypothesis probe_resolves : network (sent w) input init = Ret probe.
Hypothesis probe_is_402 : status probe = 402.
Hypothesis challenge_decodes : parse402Headers probe amb = Some headers.

Let cid := callerId options.
Let context := fst (getSpendContext cid amb (storage w)).
Let ledger := snd (getSpendContext cid amb (storage w)).
Let paymentRequest := parsePaymentRequest input (h_priceUsd headers) cid.
Let decision :=
  evaluatePolicy (policy options) paymentRequest context
    {| rules := None; fullTrace := Some true |} (now amb).
Let metadata :=
  {| dm_endpoint := endpoint paymentRequest; dm_priceUsd := h_priceUsd headers |}.

(** The world once the decision is recorded and notified. *)
Let decided : World :=
  {| storage := recordDecision cid decision metadata amb ledger;
     sent := Datatypes.S (sent w);
     events := events w
               ++ [Fetched input init; SpendContextRead cid;
                   DecisionRecorded cid decision metadata]
               ++ (if onPaymentRequired options
                   then [PaymentRequiredNotified headers decision] else []) |}.

(** What is left of [x402Fetch] from there. *)
Let settle : Eff World exn X402Response :=
  if negb (allow decision) then
    notify (onPolicyBlocked options) (PolicyBlockedNotified decision) ≫= fun _ =>
    eff_throw (X402PolicyError ("Payment blocked by policy: " +:+ reason decision)
                 decision headers)
  else if negb (default true (autoPay options)) then
    eff_throw (X402PolicyError "Payment required but autoPay is disabled" decision headers)
  else
    eff_try
      (wallet_signPayment (wallet options)
         {| sp_seller := seller headers; sp_amount := price headers;
            sp_token := token headers; sp_chainId := chainId headers;
            sp_nonce := nonce headers; sp_expiry := expiry headers |} ≫= fun signature =>
       wallet_getAddress (wallet options) ≫= fun payer =>
       mret {| signature := signature; payer := payer;
               p_nonce := nonce headers; p_expiry := expiry headers;
               amount := price headers; p_token := token headers;
               p_chainId := chainId headers; txHash := None |})
      (fun error =>
         eff_throw (X402PaymentError "Failed to generate payment" headers (if_Error error)))
    ≫= fun paymentProof =>
    notify (onPaymentMade options) (PaymentMadeNotified paymentProof) ≫= fun _ =>
    retry (Z.to_nat (default 1 (maxRetries options))) None input init cid
      (default 1 (maxRetries options)) headers paymentRequest paymentProof decision amb.

Lemma x402Fetch_decided :
  x402Fetch input init options amb w = settle decided.
Proof using probe_resolves probe_is_402 challenge_decodes.
  unfold Client.x402Fetch.
  erewrite bind_Ret
    by (unfold Client.fetch; rewrite probe_resolves; reflexivity).
  rewrite probe_is_402. cbn [Z.eqb Pos.eqb negb].
  rewrite challenge_decodes.
  erewrite bind_Ret; cycle 1.
  { unfold storage_getSpendContext. cbn [storage].
    rewrite (surjective_pairing (getSpendContext _ _ _)). reflexivity. }
  erewrite bind_Ret by reflexivity.
  erewrite bind_Ret by reflexivity.
  unfold settle, decided, decision, metadata, paymentRequest, context, ledger, cid.
  unfold notify, log, on_storage. cbn [storage sent events].
  rewrite <- !app_assoc.
  destruct (onPaymentRequired options); cbn [app]; rewrite ?app_nil_r; reflexivity.
Qed.

Lemma grows_settle : grows settle.
Proof. unfold settle. grows_steps. Qed.


(** ** The allowed path *)

Section Allowed.
Variables (signed : string) (address : string).
Hypothesis allowed : allow decision = true.
Hypothesis pays : default true (autoPay options) = true.
Hypothesis wallet_signs :
  signPayment (wallet options)
    {| sp_seller := seller headers; sp_amount := price headers;
       sp_token := token headers; sp_chainId := chainId headers;
       sp_nonce := nonce headers; sp_expiry := expiry headers |} = Ret signed.
Hypothesis wallet_answers : getAddress (wallet options) = Ret address.

Let paymentProof : PaymentProof :=
  {| signature := signed; payer := address;
     p_nonce := nonce headers; p_expiry := expiry headers;
     amount := price headers; p_token := token headers;
     p_chainId := chainId headers; txHash := None |}.

Let payment_metadata : PaymentMetadata :=
  {| pm_endpoint := endpoint paymentRequest;
     pm_nonce := nonce headers;
     pm_paymentRef := String.substring 0 16 signed |}.

(** The world when the paid retry starts. *)
Let signed_world : World :=
  {| storage := storage decided;
     sent := sent decided;
     events := events decided
               ++ [SignRequested
                     {| sp_seller := seller headers; sp_amount := price headers;
                        sp_token := token headers; sp_chainId := chainId headers;
                        sp_nonce := nonce headers; sp_expiry := expiry headers |};
                   AddressRequested]
               ++ (if onPaymentMade options
                   then [PaymentMadeNotified paymentProof] else []) |}.

Lemma x402Fetch_signed :
  x402Fetch input init options amb w =
  retry (Z.to_nat (default 1 (maxRetries options))) None input init cid
    (default 1 (maxRetries options)) headers paymentRequest paymentProof decision amb
    signed_world.
Proof using probe_resolves probe_is_402 challenge_decodes allowed pays
  wallet_signs wallet_answers.
  rewrite x402Fetch_decided. unfold settle. rewrite allowed, pays. cbn [negb].
  erewrite bind_Ret; cycle 1.
  { unfold eff_try.
    erewrite bind_Ret
      by (unfold wallet_signPayment; rewrite wallet_signs; reflexivity).
    erewrite bind_Ret
      by (unfold wallet_getAddress; rewrite wallet_answers; reflexivity).
    reflexivity. }
  erewrite bind_Ret by reflexivity.
  fold paymentProof. f_equal.
  unfold signed_world, notify, log. cbn [storage sent events].
  destruct (onPaymentMade options); cbn [storage sent events];
    rewrite <- ?app_assoc, ?app_nil_r; reflexivity.
Qed.


End Allowed.
End Challenged.
End Orchestration.

(** ** Closed examples, on the sample runtime and the in-memory ledger *)

Import SampleRuntime.

Definition challenge_headers : X402Headers :=
  {| price := "250000"; h_priceUsd := 0.25;
     token := "0x036CbD53842c5426634e7929541eC2318f3dCF7e";
     seller := "0x5e11e5"; chainId := Int 84532; expiry := Int 1800000000;
     nonce := "nonce_1"; description := None; schemes := None |}.

(** A decoder for the examples: a response that carries an [X-NONCE] header
    decodes to [challenge_headers]. *)
Definition sample_decoder (r : Response) (_ : Ambient) : option X402Headers :=
  match headers_get (resp_headers r) "X-NONCE" with
  | Some _ => Some challenge_headers
  | None => None
  end.

Definition challenge : Response :=
  {| status := 402; statusText := "Payment Required";
     resp_headers := [("X-NONCE", "nonce_1")]; resp_body := EmptyString |}.

Definition server_error : Response :=
  {| status := 500; statusText := "Internal Server Error";
     resp_headers := []; resp_body := EmptyString |}.

(** A network that challenges the probe, drops the first paid request and
    answers the second with a 500. *)
Definition flaky_network (n : nat) (_ : URL) (_ : RequestInit) : outcome exn Response :=
  match n with
  | 0%nat => Ret challenge
  | 1%nat => Throw (External true "fetch failed")
  | _ => Ret server_error
  end.

Definition test_wallet : WalletAdapter :=
  {| getAddress := Ret "0xb0b"; signPayment := fun _ => Ret "0xfeedbeef" |}.

Definition tool_url : URL :=
  {| href := "https://api.example.com/tool/quote";
     pathname := "/tool/quote"; hostname := "api.example.com" |}.

Definition post : RequestInit :=
  {| init_method := Some "POST"; init_headers := []; init_body := Some "{}" |}.

Definition policy_with_cap (perCall : float) : Policy :=
  {| id := "demo"; name := "Demo"; dailyCapUsd := 1%float; weeklyCapUsd := None;
     perCallCapUsd := perCall; allowTools := Some []; denyTools := None;
     allowDomains := None; denyDomains := None; endpointCaps := None;
     enabled := true |}.

Definition options_with_cap (perCall : float) : X402FetchOptions :=
  {| policy := policy_with_cap perCall; wallet := test_wallet; callerId := "agent-123";
     autoPay := None; onPaymentRequired := true; onPaymentMade := true;
     onPolicyBlocked := true; maxRetries := Some 3 |}.

Definition this_instant : Ambient :=
  {| now := 1700000000000; random_decision := "abcdefgh"; random_payment := "ijklmnop" |}.

Definition new_world : @World InMemorySpendStorage :=
  {| storage := empty_storage; sent := 0; events := [] |}.

Definition is_wallet_event (e : Event) : bool :=
  match e with
  | SignRequested _ | AddressRequested => true
  | _ => false
  end.



End ClientProps.

(* ================================================================== *)
(** * The payment header survives the wire *)
(* ================================================================== *)
Module CodecProps.
Import JS Wire.

(** [lia] on the quotients and remainders of the base64 arithmetic. *)
Ltac Zify.zify_post_hook ::= Z.to_euclidean_division_equations.

(** ** base64: [atob] after [btoa] *)

(** Induction on strings three characters at a time. *)
Lemma string_ind3 (P : string -> Prop) :
  P EmptyString ->
  (forall a, P (String a EmptyString)) ->
  (forall a b, P (String a (String b EmptyString))) ->
  (forall a b c rest, P rest -> P (String a (String b (String c rest)))) ->
  forall s, P s.
Proof.
  intros H0 H1 H2 H3.
  assert (Hall : forall s, P s /\ (forall a, P (String a s)) /\ (forall a b, P (String a (String b s)))).
  { induction s as [|c s (IHs & IH1 & IH2)]; [auto|].
    split; [apply IH1|]. split; [intros a; apply IH2|].
    intros a b. apply H3. exact IHs. }
  intros s. apply Hall.
Qed.

Lemma code_bound c : (code c < 256)%N.
Proof. apply N_ascii_bounded. Qed.

Lemma b64_value_char n : (n < 64)%N -> b64_value (b64_char n) = Some n.
Proof.
  intros Hn. assert (Hk : exists k, (k < 64)%nat /\ n = N.of_nat k)
    by (exists (N.to_nat n); lia).
  destruct Hk as (k & Hk & ->).
  do 64 (destruct k as [|k]; [vm_compute; reflexivity|]). lia.
Qed.

Lemma b64_char_plain n : (n < 64)%N ->
  is_ascii_ws (b64_char n) = false /\ b64_char n <> "="%char.
Proof.
  intros Hn. assert (Hk : exists k, (k < 64)%nat /\ n = N.of_nat k)
    by (exists (N.to_nat n); lia).
  destruct Hk as (k & Hk & ->).
  do 64 (destruct k as [|k]; [vm_compute; split; [reflexivity|discriminate]|]). lia.
Qed.

(** The six-bit groups of a string, and the padding of its encoding. *)
Fixpoint sextets (s : string) : list N :=
  match s with
  | EmptyString => []
  | String a EmptyString => [code a / 4; code a mod 4 * 16]%N
  | String a (String b EmptyString) =>
      [code a / 4; code a mod 4 * 16 + code b / 16; code b mod 16 * 4]%N
  | String a (String b (String c rest)) =>
      [code a / 4; code a mod 4 * 16 + code b / 16;
       code b mod 16 * 4 + code c / 64; code c mod 64]%N ++ sextets rest
  end.

Fixpoint padding (s : string) : list ascii :=
  match s with
  | EmptyString => []
  | String a EmptyString => ["="; "="]%char
  | String a (String b EmptyString) => ["="%char]
  | String a (String b (String c rest)) => padding rest
  end.

Lemma sextets_bound s : Forall (fun v => (v < 64)%N) (sextets s).
Proof.
  induction s as [|a|a b|a b c rest IH] using string_ind3; cbn [sextets app];
    repeat constructor; try assumption;
    pose proof (code_bound a); try pose proof (code_bound b);
    try pose proof (code_bound c); lia.
Qed.

Lemma remove_ws_encode s :
  remove_ascii_ws (b64_encode s) = map b64_char (sextets s) ++ padding s.
Proof.
  induction s as [|a|a b|a b c rest IH] using string_ind3.
  - reflexivity.
  - pose proof (sextets_bound (String a EmptyString)) as Hb. cbn [sextets] in Hb.
    repeat (apply Forall_cons in Hb as [?%b64_char_plain Hb]).
    cbn [b64_encode remove_ascii_ws sextets padding map app].
    repeat match goal with Hp : _ /\ _ |- _ => destruct Hp as [-> _] end.
    reflexivity.
  - pose proof (sextets_bound (String a (String b EmptyString))) as Hb. cbn [sextets] in Hb.
    repeat (apply Forall_cons in Hb as [?%b64_char_plain Hb]).
    cbn [b64_encode remove_ascii_ws sextets padding map app].
    repeat match goal with Hp : _ /\ _ |- _ => destruct Hp as [-> _] end.
    reflexivity.
  - pose proof (sextets_bound (String a (String b (String c EmptyString)))) as Hb.
    cbn [sextets app] in Hb.
    repeat (apply Forall_cons in Hb as [?%b64_char_plain Hb]).
    cbn [b64_encode remove_ascii_ws sextets padding map app].
    repeat match goal with Hp : _ /\ _ |- _ => destruct Hp as [-> _] end.
    rewrite IH. reflexivity.
Qed.

Lemma encode_length s :
  exists k, length (map b64_char (sextets s) ++ padding s) = (k * 4)%nat.
Proof.
  induction s as [|a|a b|a b c rest [k IH]] using string_ind3.
  - by exists 0%nat.
  - by exists 1%nat.
  - by exists 1%nat.
  - exists (S k). cbn [sextets padding map app length] in *. rewrite IH. lia.
Qed.

Lemma sextets_length s :
  exists k j, length (sextets s) = (j + k * 4)%nat /\ (j = 0 \/ j = 2 \/ j = 3)%nat.
Proof.
  induction s as [|a|a b|a b c rest (k & j & IH & Hj)] using string_ind3.
  - exists 0%nat, 0%nat. auto.
  - exists 0%nat, 2%nat. auto.
  - exists 0%nat, 3%nat. auto.
  - exists (S k), j. cbn [sextets app length]. rewrite IH. split; [lia|exact Hj].
Qed.

Lemma strip_padding_app l p :
  Forall (fun c => c <> "="%char) l ->
  p = [] \/ p = ["="%char] \/ p = ["="; "="]%char ->
  strip_padding (l ++ p) = l.
Proof.
  intros Hl Hp. induction Hl as [|c l Hc Hl IH].
  - destruct Hp as [->|[->| ->]]; reflexivity.
  - destruct Hl as [|c' l' Hc' Hl'].
    + apply Ascii.eqb_neq in Hc.
      destruct Hp as [->|[->| ->]]; cbn; rewrite ?Hc; reflexivity.
    + cbn [app] in *. destruct l' as [|c'' l''].
      * apply Ascii.eqb_neq in Hc'.
        destruct Hp as [->|[->| ->]]; cbn in *; rewrite ?Hc' in *; congruence.
      * cbn [app strip_padding] in *. f_equal. exact IH.
Qed.

Lemma b64_values_chars vs :
  Forall (fun v => (v < 64)%N) vs -> b64_values (map b64_char vs) = Some vs.
Proof.
  induction 1 as [|v vs Hv _ IH]; [reflexivity|].
  cbn [map b64_values]. by rewrite (b64_value_char v Hv), IH.
Qed.

Lemma ascii_of_code n c : n = code c -> ascii_of_N n = c.
Proof. intros ->. apply ascii_N_embedding. Qed.

Lemma b64_decode_sextets s : b64_decode (sextets s) = s.
Proof.
  induction s as [|a|a b|a b c rest IH] using string_ind3;
    cbn [sextets app b64_decode].
  - reflexivity.
  - pose proof (code_bound a). f_equal. apply ascii_of_code. lia.
  - pose proof (code_bound a). pose proof (code_bound b).
    f_equal; [apply ascii_of_code; lia|]. f_equal. apply ascii_of_code. lia.
  - pose proof (code_bound a). pose proof (code_bound b). pose proof (code_bound c).
    rewrite IH.
    f_equal; [apply ascii_of_code; lia|].
    f_equal; [apply ascii_of_code; lia|].
    f_equal. apply ascii_of_code. lia.
Qed.

(** Decoding an encoding gives the string back. *)
Lemma atob_b64_encode s : atob (b64_encode s) = Ret s.
Proof.
  unfold atob. rewrite remove_ws_encode.
  destruct (encode_length s) as [k ->].
  rewrite Nat.Div0.mod_mul. cbn [Nat.eqb].
  rewrite strip_padding_app; cycle 1.
  { eapply Forall_fmap, Forall_impl; [apply sextets_bound|].
    intros v Hv. apply (b64_char_plain v Hv). }
  { clear k. induction s as [|a|a b|a b c rest IH] using string_ind3; cbn; auto. }
  rewrite length_map.
  destruct (sextets_length s) as (k' & j & -> & Hj).
  rewrite Nat.Div0.mod_add.
  replace (j mod 4 =? 1)%nat with false
    by (destruct Hj as [->|[->| ->]]; reflexivity).
  rewrite b64_values_chars by apply sextets_bound.
  by rewrite b64_decode_sextets.
Qed.

Lemma append_nil (b : string) : "" +:+ b = b.
Proof. reflexivity. Qed.

Lemma append_cons c (a b : string) : String c a +:+ b = String c (a +:+ b).
Proof. reflexivity. Qed.

Lemma append_assoc (a b c : string) : (a +:+ b) +:+ c = a +:+ (b +:+ c).
Proof.
  induction a as [|x a IH]; [reflexivity|].
  rewrite !append_cons. f_equal. exact IH.
Qed.

Lemma append_length (a b : string) :
  String.length (a +:+ b) = (String.length a + String.length b)%nat.
Proof.
  induction a as [|x a IH]; [reflexivity|].
  rewrite append_cons. cbn [String.length]. by rewrite IH.
Qed.

(** ** Strings through [QuoteJSONString] and back *)

Lemma char_of_code c n : code c = n -> c = ascii_of_N n.
Proof. intros <-. symmetry. apply ascii_N_embedding. Qed.

Lemma parse_escape_char c rest :
  parse_string_chars (escape_char c +:+ rest) = cons_char c (parse_string_chars rest).
Proof.
  destruct (code c <? 32)%N eqn:Hctl.
  - apply N.ltb_lt in Hctl.
    assert (Hk : exists k, (k < 32)%nat /\ code c = N.of_nat k)
      by (exists (N.to_nat (code c)); lia).
    destruct Hk as (k & Hk & Hc). apply char_of_code in Hc. subst c.
    do 32 (destruct k as [|k]; [reflexivity|]). lia.
  - apply N.ltb_ge in Hctl.
    destruct (code c =? 34)%N eqn:Hq.
    { apply N.eqb_eq, char_of_code in Hq. subst c. reflexivity. }
    destruct (code c =? 92)%N eqn:Hb.
    { apply N.eqb_eq, char_of_code in Hb. subst c. reflexivity. }
    unfold escape_char. rewrite Hq, Hb.
    replace (code c =? 8)%N with false by (symmetry; apply N.eqb_neq; lia).
    replace (code c =? 12)%N with false by (symmetry; apply N.eqb_neq; lia).
    replace (code c =? 10)%N with false by (symmetry; apply N.eqb_neq; lia).
    replace (code c =? 13)%N with false by (symmetry; apply N.eqb_neq; lia).
    replace (code c =? 9)%N with false by (symmetry; apply N.eqb_neq; lia).
    replace (code c <? 32)%N with false by (symmetry; apply N.ltb_ge; lia).
    rewrite !append_cons, append_nil. cbn [parse_string_chars]. rewrite Hq, Hb.
    replace (code c <? 32)%N with false by (symmetry; apply N.ltb_ge; lia).
    reflexivity.
Qed.

Lemma parse_escaped_string s rest :
  parse_string_chars (escape_string s +:+ dquote +:+ rest) = Ret (s, rest).
Proof.
  induction s as [|c s IH]; [reflexivity|].
  cbn [escape_string]. rewrite append_assoc, parse_escape_char, IH. reflexivity.
Qed.

(** ** Integers through [Z_toString] and back *)

(** What follows a value in an object: a comma or the closing brace. *)
Definition ends_value (tail : string) : Prop :=
  exists rest, tail = String "," rest \/ tail = String "}" rest.

(** The digits of [d], most significant first, added to [acc]. *)
Fixpoint horner (acc : N) (d : Decimal.uint) : N :=
  match d with
  | Nil => acc
  | D0 d => horner (acc * 10 + 0) d
  | D1 d => horner (acc * 10 + 1) d
  | D2 d => horner (acc * 10 + 2) d
  | D3 d => horner (acc * 10 + 3) d
  | D4 d => horner (acc * 10 + 4) d
  | D5 d => horner (acc * 10 + 5) d
  | D6 d => horner (acc * 10 + 6) d
  | D7 d => horner (acc * 10 + 7) d
  | D8 d => horner (acc * 10 + 8) d
  | D9 d => horner (acc * 10 + 9) d
  end%N.

Lemma scan_digits_uint d acc tail :
  ends_value tail ->
  scan_digits acc (NilEmpty.string_of_uint d +:+ tail) = (horner acc d, tail).
Proof.
  intros Htail. revert acc.
  induction d as [|d IH|d IH|d IH|d IH|d IH|d IH|d IH|d IH|d IH|d IH]; intros acc;
    cbn [NilEmpty.string_of_uint horner]; rewrite ?append_cons, ?append_nil;
    try (cbn [scan_digits]; apply IH).
  destruct Htail as (rest & [-> | ->]); reflexivity.
Qed.

Lemma horner_pos d p : horner (Npos p) d = Npos (Pos.of_uint_acc d p).
Proof.
  revert p.
  induction d as [|d IH|d IH|d IH|d IH|d IH|d IH|d IH|d IH|d IH|d IH]; intros p;
    cbn [horner Pos.of_uint_acc]; [reflexivity|..];
    rewrite <- IH; f_equal; lia.
Qed.

Lemma horner_0 d : horner 0 d = Pos.of_uint d.
Proof.
  induction d as [|d IH|d IH|d IH|d IH|d IH|d IH|d IH|d IH|d IH|d IH];
    cbn [horner Pos.of_uint]; [reflexivity|exact IH|..];
    apply horner_pos.
Qed.

Lemma horner_to_uint p : horner 0 (Pos.to_uint p) = Npos p.
Proof. rewrite horner_0. apply Unsigned.of_to. Qed.

(** The digits of a positive number start with a digit that is not zero. *)
Lemma to_uint_head p :
  match Pos.to_uint p with Nil | D0 _ => False | _ => True end.
Proof.
  pose proof (Unsigned.to_of (Pos.to_uint p)) as Hnorm.
  rewrite Unsigned.of_to in Hnorm. cbn [N.to_uint] in Hnorm.
  pose proof (Unsigned.to_uint_nonzero p) as Hnz.
  pose proof (nzhead_nonzero (Pos.to_uint p)) as Hhead.
  unfold unorm in Hnorm.
  destruct (nzhead (Pos.to_uint p)) eqn:Hn;
    try (rewrite Hnorm; exact I).
  - congruence.
  - exfalso. eapply Hhead. reflexivity.
Qed.

Lemma safe_integer_opp z : safe_integer (- z) = safe_integer z.
Proof. unfold safe_integer. by rewrite Z.abs_opp. Qed.

Lemma parse_unsigned_pos p tail :
  ends_value tail -> safe_integer (Z.pos p) = true ->
  parse_unsigned (NilEmpty.string_of_uint (Pos.to_uint p) +:+ tail) = Ret (Z.pos p, tail).
Proof.
  intros Htail Hsafe.
  pose proof (to_uint_head p) as Hhead.
  pose proof (scan_digits_uint (Pos.to_uint p) 0 tail Htail) as Hscan.
  rewrite horner_to_uint in Hscan.
  assert (Hstop : starts_fraction_or_exponent tail = false)
    by (destruct Htail as (rest & [-> | ->]); reflexivity).
  destruct (Pos.to_uint p) as [|d|d|d|d|d|d|d|d|d|d]; try contradiction;
    cbn [NilEmpty.string_of_uint] in *; rewrite append_cons in *;
    unfold parse_unsigned; cbn [Ascii.eqb Bool.eqb is_digit];
    rewrite Hscan, Hstop; cbn [Z.of_N]; rewrite Hsafe; reflexivity.
Qed.

Lemma parse_value_number z fuel tail :
  ends_value tail -> safe_integer z = true ->
  parse_value (S fuel) (Z_toString z +:+ tail) = Ret (JNum (Int z), tail).
Proof.
  intros Htail Hsafe.
  assert (Hstop : starts_fraction_or_exponent tail = false)
    by (destruct Htail as (rest & [-> | ->]); reflexivity).
  unfold Z_toString. destruct z as [|p|p]; cbn [Z.to_int NilZero.string_of_int].
  - change (parse_value (S fuel) (String "0" tail) = Ret (JNum (Int 0), tail)).
    destruct Htail as (rest & [-> | ->]); reflexivity.
  - pose proof (parse_unsigned_pos p tail Htail Hsafe) as Hparse.
    pose proof (to_uint_head p) as Hhead.
    unfold NilZero.string_of_uint.
    destruct (Pos.to_uint p) as [|d|d|d|d|d|d|d|d|d|d]; try contradiction;
      cbn [NilEmpty.string_of_uint] in *; rewrite append_cons in *;
      lazymatch goal with
      | |- parse_value _ ?s = ?r =>
          change ((parse_unsigned s ≫= λ '(z, rest), Ret (JNum (Int z), rest)) = r)
      end;
      rewrite Hparse; reflexivity.
  - rewrite <- safe_integer_opp in Hsafe. cbn [Z.opp] in Hsafe.
    pose proof (parse_unsigned_pos p tail Htail Hsafe) as Hparse.
    pose proof (to_uint_head p) as Hhead.
    unfold NilZero.string_of_uint. rewrite append_cons.
    destruct (Pos.to_uint p) as [|d|d|d|d|d|d|d|d|d|d]; try contradiction;
      cbn [NilEmpty.string_of_uint] in *; rewrite append_cons in *;
      lazymatch goal with
      | |- parse_value _ (String _ ?s) = ?r =>
          change ((parse_unsigned s ≫= λ '(z, rest), Ret (JNum (Int (- z)), rest)) = r)
      end;
      rewrite Hparse; reflexivity.
Qed.

(** ** Flat objects through [JSON_stringify] and [JSON_parse] *)

Section Objects.
Context `{JSRuntime}.

(** The values a payment header holds: strings and safe integers. *)
Definition flat (v : JSON) : Prop :=
  match v with
  | JStr _ => True
  | JNum (Int z) => safe_integer z = true
  | _ => False
  end.

Definition member (kv : string * JSON) : string :=
  QuoteJSONString (fst kv) +:+ ":" +:+ JSON_stringify (snd kv).

Lemma stringify_object fields :
  JSON_stringify (JObj fields) = String "{" (join "," (map member fields) +:+ "}").
Proof. reflexivity. Qed.

Lemma join_cons sep x y l :
  join sep (x :: y :: l) = x +:+ sep +:+ join sep (y :: l).
Proof. reflexivity. Qed.

Lemma parse_value_quote fuel s :
  parse_value (S fuel) (dquote +:+ s)
  = parse_string_chars s ≫= λ '(str, rest), Ret (JStr str, rest).
Proof. reflexivity. Qed.

Lemma parse_value_flat v fuel tail :
  flat v -> ends_value tail ->
  parse_value (S fuel) (JSON_stringify v +:+ tail) = Ret (v, tail).
Proof.
  intros Hflat Htail. destruct v as [| |[z| | |]| |s| |]; try contradiction.
  - apply parse_value_number; assumption.
  - change (JSON_stringify (JStr s)) with (dquote +:+ escape_string s +:+ dquote).
    rewrite !append_assoc, parse_value_quote, parse_escaped_string. reflexivity.
Qed.

(** What [parse_members] does once it has read a key and its colon. *)
Definition after_value (fuel : nat) (acc : list (string * JSON)) (key : string)
    (r : JSON * string) : outcome builtin_exn (JSON * string) :=
  let '(v, s4) := r in
  match skip_ws s4 with
  | String "," s5 => parse_members fuel s5 (acc ++ [(key, v)])
  | String "}" s5 => Ret (JObj (acc ++ [(key, v)]), s5)
  | _ => Throw SyntaxError
  end.

Lemma parse_members_quote fuel s1 acc :
  parse_members (S fuel) (dquote +:+ s1) acc
  = parse_string_chars s1 ≫= λ '(key, s2),
      match skip_ws s2 with
      | String ":" s3 => parse_value fuel s3 ≫= after_value fuel acc key
      | _ => Throw SyntaxError
      end.
Proof. reflexivity. Qed.

Lemma parse_members_key fuel key s3 acc :
  parse_members (S fuel) (QuoteJSONString key +:+ String ":" s3) acc
  = parse_value fuel s3 ≫= after_value fuel acc key.
Proof.
  unfold QuoteJSONString.
  rewrite !append_assoc, parse_members_quote, parse_escaped_string. reflexivity.
Qed.

Lemma member_text k v tail :
  member (k, v) +:+ tail = QuoteJSONString k +:+ String ":" (JSON_stringify v +:+ tail).
Proof. unfold member. cbn [fst snd]. rewrite !append_assoc. reflexivity. Qed.

Lemma parse_members_flat fields :
  fields <> [] -> Forall (fun kv => flat (snd kv)) fields ->
  forall fuel acc tail,
    (length fields < fuel)%nat ->
    parse_members fuel (join "," (map member fields) +:+ String "}" tail) acc
    = Ret (JObj (acc ++ fields), tail).
Proof.
  induction fields as [|[k v] rest IH]; [congruence|].
  intros _ Hflat fuel acc tail Hfuel.
  apply Forall_cons in Hflat as [Hv Hrest]. cbn [snd] in Hv.
  destruct fuel as [|[|fuel]]; cbn [length] in Hfuel; try lia.
  destruct rest as [|kv' rest].
  - change (join "," (map member [(k, v)])) with (member (k, v)).
    rewrite member_text, parse_members_key, parse_value_flat;
      [reflexivity|assumption|by eexists; right].
  - cbn [map]. rewrite join_cons, !append_assoc.
    change ("," +:+ join "," (member kv' :: map member rest) +:+ String "}" tail)
      with (String "," (join "," (map member (kv' :: rest)) +:+ String "}" tail)).
    rewrite member_text, parse_members_key, parse_value_flat;
      [|assumption|by eexists; left].
    change (parse_members (S fuel)
              (join "," (map member (kv' :: rest)) +:+ String "}" tail)
              (acc ++ [(k, v)])
            = Ret (JObj (acc ++ (k, v) :: kv' :: rest), tail)).
    rewrite IH; [|congruence|assumption|cbn [length] in *; lia].
    by rewrite <- app_assoc.
Qed.

Lemma QuoteJSONString_length s : (1 <= String.length (QuoteJSONString s))%nat.
Proof. unfold QuoteJSONString, dquote. rewrite append_cons. cbn [String.length]. lia. Qed.

Lemma member_length kv : (1 <= String.length (member kv))%nat.
Proof.
  unfold member. rewrite append_length.
  pose proof (QuoteJSONString_length (fst kv)). lia.
Qed.

Lemma join_length fields :
  (length fields <= String.length (join "," (map member fields)))%nat.
Proof.
  induction fields as [|kv rest IH]; [cbn; lia|].
  destruct rest as [|kv' rest].
  - change (join "," (map member [kv])) with (member kv).
    pose proof (member_length kv). cbn [length]. lia.
  - cbn [map] in *. rewrite join_cons, !append_length.
    pose proof (member_length kv). cbn [length] in *. lia.
Qed.

Lemma parse_value_brace fuel k s :
  parse_value (S fuel) (String "{" (QuoteJSONString k +:+ s))
  = parse_members fuel (QuoteJSONString k +:+ s) [].
Proof. reflexivity. Qed.

Lemma JSON_parse_flat fields :
  fields <> [] -> Forall (fun kv => flat (snd kv)) fields ->
  JSON_parse (JSON_stringify (JObj fields)) = Ret (JObj fields).
Proof.
  intros Hne Hflat. unfold JSON_parse. rewrite stringify_object.
  pose proof (join_length fields) as Hlen.
  pose proof (parse_members_flat fields Hne Hflat
                (String.length (String "{" (join "," (map member fields) +:+ "}")))
                [] EmptyString) as Hparse.
  cbn [String.length] in *. rewrite append_length in *. cbn [String.length] in *.
  specialize (Hparse ltac:(lia)).
  destruct fields as [|[k v] rest]; [congruence|].
  assert (Hhead : exists s, join "," (map member ((k, v) :: rest)) +:+ "}"
                            = QuoteJSONString k +:+ s).
  { destruct rest as [|kv' rest].
    - eexists. change (join "," (map member [(k, v)])) with (member (k, v)).
      apply member_text.
    - eexists. cbn [map]. rewrite join_cons, append_assoc. apply member_text. }
  destruct Hhead as (s & Hs). rewrite Hs in *.
  rewrite parse_value_brace, Hparse. reflexivity.
Qed.

End Objects.

(** ** The payment header *)

Section RoundTrip.
Context `{JSRuntime}.

(** [txHash] as the header carries it: left out when it is not there or
    empty. *)
Definition sent_txHash (proof : Client.PaymentProof) : option string :=
  match Client.txHash proof with
  | Some h => if truthy_string h then Some h else None
  | None => None
  end.

(** The fields both parsers read from a decoded object. *)
Definition fields_read (fs : list (string * JSON)) : RawPayment :=
  {| raw_signature := lookup_field "sig" fs;
     raw_payer := lookup_field "payer" fs;
     raw_nonce := lookup_field "nonce" fs;
     raw_expiry := lookup_field "expiry" fs;
     raw_amount := lookup_field "amount" fs;
     raw_token := lookup_field "token" fs;
     raw_chainId := lookup_field "chainId" fs;
     raw_txHash := lookup_field "txHash" fs |}.

Lemma client_parse_object header text fs :
  atob header = Ret text -> JSON_parse text = Ret (JObj fs) ->
  truthy (lookup_field "sig" fs) = true ->
  truthy (lookup_field "payer" fs) = true ->
  truthy (lookup_field "nonce" fs) = true ->
  Client.parsePaymentHeader header = Ret (Some (fields_read fs)).
Proof.
  intros Hatob Hparse Hsig Hpayer Hnonce.
  unfold Client.parsePaymentHeader. rewrite Hatob.
  unfold mbind at 1, outcome_bind at 1, bind at 1. rewrite Hparse.
  unfold mbind, outcome_bind, bind, get_property.
  rewrite Hsig, Hpayer, Hnonce. reflexivity.
Qed.

Lemma worker_parse_object header text fs :
  atob header = Ret text -> JSON_parse text = Ret (JObj fs) ->
  truthy (lookup_field "sig" fs) = true ->
  truthy (lookup_field "payer" fs) = true ->
  truthy (lookup_field "nonce" fs) = true ->
  Worker.parsePaymentHeader header = Ret (Some (fields_read fs)).
Proof.
  intros Hatob Hparse Hsig Hpayer Hnonce.
  unfold Worker.parsePaymentHeader. rewrite Hatob.
  unfold mbind at 1, outcome_bind at 1, bind at 1. rewrite Hparse.
  unfold mbind, outcome_bind, bind, get_property.
  rewrite Hsig, Hpayer, Hnonce. reflexivity.
Qed.

Lemma truthy_nonempty s : s <> EmptyString -> truthy_string s = true.
Proof. destruct s; [congruence|reflexivity]. Qed.


End RoundTrip.

(** ** Examples *)

Definition settled_proof : Client.PaymentProof :=
  {| Client.signature := "0xfeed";
     Client.payer := "0xb0b";
     Client.p_nonce := "nonce_7";
     Client.p_expiry := Int 1700000300;
     Client.amount := "250000";
     Client.p_token := "0xA0b8";
     Client.p_chainId := Int 8453;
     Client.txHash := Some "0x7a11" |}.

(** The same proof with an expiry that is not a number. *)
Definition undated_proof : Client.PaymentProof :=
  {| Client.signature := "0xfeed";
     Client.payer := "0xb0b";
     Client.p_nonce := "nonce_7";
     Client.p_expiry := NaN;
     Client.amount := "250000";
     Client.p_token := "0xA0b8";
     Client.p_chainId := Int 8453;
     Client.txHash := None |}.

Definition undated_raw : RawPayment :=
  {| raw_signature := Some (JStr "0xfeed");
     raw_payer := Some (JStr "0xb0b");
     raw_nonce := Some (JStr "nonce_7");
     raw_expiry := Some JNull;
     raw_amount := Some (JStr "250000");
     raw_token := Some (JStr "0xA0b8");
     raw_chainId := Some (JNum (Int 8453));
     raw_txHash := None |}.



End CodecProps.

(* ================================================================== *)
(** * Properties of the rules and of the evaluator object *)
(* ================================================================== *)

Module PolicyRulesProps.
Import JS PolicyEngine PolicyEvaluator.

#[local] Existing Instance PolicyEngineProps.failed_dec.

Section Evaluation.
Context `{JSRuntime}.

#[local] Abbreviation failed := PolicyEngineProps.failed.

(** The decision over any list of rules, read off the first failing
    verdict. *)
Lemma evaluatePolicy_find p r c rs ft now :
  let d := evaluatePolicy p r c {| rules := rs; fullTrace := ft |} now in
  let vs := map (fun rule : RuleFunction => rule p r c) (default ALL_RULES rs) in
  match list_find failed vs with
  | None =>
      trace d = vs /\ allow d = true
      /\ ruleId d = "all_passed" /\ reason d = "All policy rules passed"
  | Some (k, t) =>
      trace d = (if default false ft then vs else take (S k) vs)
      /\ allow d = false /\ ruleId d = rt_ruleId t /\ reason d = rt_reason t
  end.
Proof.
  unfold evaluatePolicy. cbn [rules fullTrace].
  rewrite PolicyEngineProps.runRules_spec. cbn zeta.
  destruct (list_find failed _) as [[k t]|]; cbn; auto.
Qed.

(** What a verdict says does not depend on the trace mode. *)
Lemma verdict_independent p r c rs ft1 ft2 now1 now2 :
  let d1 := evaluatePolicy p r c {| rules := rs; fullTrace := ft1 |} now1 in
  let d2 := evaluatePolicy p r c {| rules := rs; fullTrace := ft2 |} now2 in
  allow d1 = allow d2 /\ reason d1 = reason d2 /\ ruleId d1 = ruleId d2.
Proof.
  cbn zeta.
  pose proof (evaluatePolicy_find p r c rs ft1 now1) as H1.
  pose proof (evaluatePolicy_find p r c rs ft2 now2) as H2.
  cbn zeta in H1, H2.
  destruct (list_find failed _) as [[k t]|];
    destruct H1 as (_ & -> & -> & ->), H2 as (_ & -> & -> & ->); auto.
Qed.



Lemma includes_In l x : includes l x = true <-> In x l.
Proof.
  unfold includes. rewrite existsb_exists. split.
  - intros (y & Hin & Heq). apply String.eqb_eq in Heq. by subst.
  - intros Hin. exists x. split; [exact Hin | apply String.eqb_refl].
Qed.

Lemma toolAllowlistRule_passed p r c :
  passed (toolAllowlistRule p r c)
  = unconfigured (allowTools p) || includes (entries (allowTools p)) (tool r).
Proof. unfold toolAllowlistRule. destruct (unconfigured _); reflexivity. Qed.

Lemma domainAllowlistRule_passed p r c :
  passed (domainAllowlistRule p r c)
  = unconfigured (allowDomains p)
    || existsb (domainMatches (domain r)) (entries (allowDomains p)).
Proof. unfold domainAllowlistRule. destruct (unconfigured _); reflexivity. Qed.

Lemma unconfigured_entries l : unconfigured l = true -> entries l = [].
Proof. destruct l as [[|x l]|]; cbn; congruence. Qed.

(** An allowed request has passed the four list rules: the policy is
    enabled, the tool is in no deny list and the domain matches no denied
    entry, and an allowlist that is not empty holds the tool, or an entry
    matching the domain. *)
Theorem allow_implies_lists p r c ft now :
  allow (evaluatePolicy p r c {| rules := None; fullTrace := ft |} now) = true ->
  enabled p = true
  /\ ~ In (tool r) (entries (denyTools p))
  /\ (forall d, In d (entries (denyDomains p)) -> domainMatches (domain r) d = false)
  /\ (entries (allowTools p) <> [] -> In (tool r) (entries (allowTools p)))
  /\ (entries (allowDomains p) <> [] ->
      exists d, In d (entries (allowDomains p)) /\ domainMatches (domain r) d = true).
Proof.
  intros Hallow. apply PolicyEngineProps.allow_all_passed in Hallow.
  rewrite PolicyEngineProps.verdicts_unfold in Hallow.
  repeat (apply Forall_cons in Hallow as [? Hallow]).
  match goal with
  | He : passed (policyEnabledRule _ _ _) = true,
    Htd : passed (toolDenylistRule _ _ _) = true,
    Hdd : passed (domainDenylistRule _ _ _) = true,
    Hta : passed (toolAllowlistRule _ _ _) = true,
    Hda : passed (domainAllowlistRule _ _ _) = true |- _ =>
      rewrite PolicyEngineProps.toolDenylistRule_passed in Htd;
      rewrite PolicyEngineProps.domainDenylistRule_passed in Hdd;
      unfold PolicyEngineProps.toolDenied, PolicyEngineProps.domainDenied in *;
      apply negb_true_iff in Htd, Hdd;
      split; [exact He|]; split; [|split; [|split]]
  end.
  - rewrite <- includes_In. congruence.
  - intros d Hin. destruct (domainMatches (domain r) d) eqn:Hm; [|reflexivity].
    match goal with Hdd : existsb _ _ = false |- _ =>
      rewrite <- not_true_iff_false in Hdd; exfalso; apply Hdd;
      apply existsb_exists; eauto end.
  - intros Hne.
    match goal with Hta : passed (toolAllowlistRule _ _ _) = true |- _ =>
      rewrite toolAllowlistRule_passed in Hta; apply orb_true_iff in Hta;
      destruct Hta as [Hun|Hin]; [by apply unconfigured_entries in Hun|];
      by apply includes_In end.
  - intros Hne.
    match goal with Hda : passed (domainAllowlistRule _ _ _) = true |- _ =>
      rewrite domainAllowlistRule_passed in Hda; apply orb_true_iff in Hda;
      destruct Hda as [Hun|Hin]; [by apply unconfigured_entries in Hun|];
      by apply existsb_exists in Hin end.
Qed.

End Evaluation.

(** ** Closed examples, on the sample runtime *)

Import SampleRuntime.

(** The demo policy, switched off. *)
Definition paused_policy : Policy :=
  {| id := "demo"; name := "Demo"; dailyCapUsd := 1%float; weeklyCapUsd := Some 5%float;
     perCallCapUsd := 0.5%float; allowTools := Some []; denyTools := None;
     allowDomains := None; denyDomains := None; endpointCaps := None;
     enabled := false |}.


(** A policy with its four lists in use. *)
Definition listed_policy : Policy :=
  {| id := "lists"; name := "Lists"; dailyCapUsd := 1%float; weeklyCapUsd := None;
     perCallCapUsd := 0.5%float;
     allowTools := Some ["quote"; "search"]; denyTools := Some ["admin"];
     allowDomains := Some ["example.com"]; denyDomains := Some ["evil.example"];
     endpointCaps := None; enabled := true |}.

Lemma allow_implies_lists_witness :
  let r := PolicyEngineProps.quote_request in
  allow (evaluatePolicy listed_policy r PolicyEngineProps.fresh_context
           {| rules := None; fullTrace := None |} 0) = true
  /\ In (tool r) (entries (allowTools listed_policy))
  /\ ~ In (tool r) (entries (denyTools listed_policy))
  /\ exists d, In d (entries (allowDomains listed_policy))
               /\ domainMatches (domain r) d = true.
Proof.
  assert (Hallow : allow (evaluatePolicy listed_policy PolicyEngineProps.quote_request
                            PolicyEngineProps.fresh_context
                            {| rules := None; fullTrace := None |} 0) = true)
    by (vm_compute; reflexivity).
  destruct (allow_implies_lists listed_policy PolicyEngineProps.quote_request
              PolicyEngineProps.fresh_context None 0 Hallow)
    as (_ & Hdeny & _ & Htools & Hdomains).
  cbn zeta. split; [exact Hallow|]. split; [apply Htools; discriminate|].
  split; [exact Hdeny|]. apply Hdomains. discriminate.
Defined.

End PolicyRulesProps.

Module PolicyStringsProps.
Import JS PolicyEngine.

Lemma substring_all s : String.substring 0 (String.length s) s = s.
Proof. induction s as [|c s IH]; [reflexivity|]. cbn. by rewrite IH. Qed.

Lemma substring_split s k :
  (k <= String.length s)%nat ->
  s = String.substring 0 k s +:+ String.substring k (String.length s - k) s.
Proof.
  revert k. induction s as [|c s IH]; intros k Hk.
  - destruct k; [reflexivity|cbn in Hk; lia].
  - destruct k as [|k].
    + cbn [String.substring]. rewrite CodecProps.append_nil.
      change (String.length (String c s) - 0)%nat with (S (String.length s)).
      cbn [String.substring]. by rewrite substring_all.
    + cbn [String.length] in Hk. cbn [String.substring String.length Nat.sub].
      rewrite CodecProps.append_cons. f_equal. apply IH. lia.
Qed.

Lemma substring_suffix pre p :
  String.substring (String.length pre) (String.length p) (pre +:+ p) = p.
Proof.
  induction pre as [|c pre IH].
  - rewrite CodecProps.append_nil. apply substring_all.
  - rewrite CodecProps.append_cons. cbn [String.length String.substring]. exact IH.
Qed.

(** [s.endsWith(p)] holds exactly when [s] is some text followed by [p]. *)
Lemma endsWith_spec s p : endsWith s p = true <-> exists pre, s = pre +:+ p.
Proof.
  unfold endsWith. split.
  - destruct (_ <=? _)%nat eqn:Hle; [|discriminate].
    apply Nat.leb_le in Hle. intros Heq. apply String.eqb_eq in Heq.
    exists (String.substring 0 (String.length s - String.length p) s).
    pose proof (substring_split s (String.length s - String.length p) ltac:(lia)) as Hs.
    replace (String.length s - (String.length s - String.length p))%nat
      with (String.length p) in Hs by lia.
    rewrite Heq in Hs. exact Hs.
  - intros (pre & ->). rewrite CodecProps.append_length.
    replace (_ <=? _)%nat with true by (symmetry; apply Nat.leb_le; lia).
    replace (String.length pre + String.length p - String.length p)%nat
      with (String.length pre) by lia.
    rewrite substring_suffix. apply String.eqb_refl.
Qed.

(** An entry of a domain list matches the domain itself and its subdomains,
    and nothing else: a domain that only ends with the entry's text, without
    a dot before it, is not matched. *)
Theorem domainMatches_subdomains dom d :
  domainMatches dom d = true <-> dom = d \/ exists sub, dom = sub +:+ "." +:+ d.
Proof.
  unfold domainMatches. rewrite orb_true_iff, String.eqb_eq, endsWith_spec.
  reflexivity.
Qed.

(** ** The tool name of a path *)

Lemma split_on_nonempty sep s : split_on sep s <> [].
Proof.
  destruct s as [|c s]; cbn; [discriminate|].
  destruct (Ascii.eqb c sep); [discriminate|].
  destruct (split_on sep s); discriminate.
Qed.

Lemma split_on_app sep a b :
  split_on sep (a +:+ String sep b) = split_on sep a ++ split_on sep b.
Proof.
  induction a as [|c a IH].
  - rewrite CodecProps.append_nil. cbn [split_on]. by rewrite Ascii.eqb_refl.
  - rewrite CodecProps.append_cons. cbn [split_on]. rewrite IH.
    destruct (Ascii.eqb c sep); [reflexivity|].
    pose proof (split_on_nonempty sep a) as Hne.
    destruct (split_on sep a) as [|w ws]; [congruence|reflexivity].
Qed.

(** A text free of the separator. *)
Definition free_of (sep : ascii) (s : string) : Prop :=
  ~ In sep (list_ascii_of_string s).

Lemma split_on_free sep s : free_of sep s -> split_on sep s = [s].
Proof.
  unfold free_of. induction s as [|c s IH]; intros Hfree; [reflexivity|].
  cbn [list_ascii_of_string] in Hfree. cbn [split_on].
  destruct (Ascii.eqb_spec c sep) as [->|Hc]; [exfalso; apply Hfree; by left|].
  rewrite IH; [reflexivity|]. intros Hin. apply Hfree. by right.
Qed.

Lemma split_on_parts_free sep s : Forall (free_of sep) (split_on sep s).
Proof.
  induction s as [|c s IH]; cbn [split_on].
  - constructor; [|constructor]. intros [].
  - destruct (Ascii.eqb_spec c sep) as [->|Hc].
    + constructor; [intros []|exact IH].
    + destruct (split_on sep s) as [|w ws]; [repeat constructor; intros [?|[]]; congruence|].
      apply Forall_cons in IH as [Hw Hws]. constructor; [|exact Hws].
      unfold free_of in *. cbn [list_ascii_of_string]. intros [?|?]; [congruence|auto].
Qed.

#[local] Abbreviation segments path :=
  (filter (fun part => truthy_string part = true) (split_on "/" path)).

Lemma toolOfPath_last path :
  toolOfPath path = default "unknown" (last (segments path)).
Proof. unfold toolOfPath. by destruct (last _). Qed.

(** The tool name [parsePaymentRequest] gives a request: it is never empty
    and holds no slash; it is the last segment of the path that is not
    empty, so slashes at the end are ignored; and it is ["unknown"] for the
    empty path and the root. *)
Theorem toolOfPath_last_segment :
  (forall path, toolOfPath path <> EmptyString /\ free_of "/" (toolOfPath path))
  /\ (forall path seg, seg <> EmptyString -> free_of "/" seg ->
        toolOfPath (path +:+ "/" +:+ seg) = seg)
  /\ (forall path, toolOfPath (path +:+ "/") = toolOfPath path)
  /\ toolOfPath EmptyString = "unknown".
Proof.
  split; [|split; [|split]].
  - intros path. rewrite toolOfPath_last.
    destruct (last (segments path)) as [part|] eqn:Hlast; cbn [default].
    + apply last_Some_elem_of, list_elem_of_filter in Hlast as [Htruthy Hin].
      split; [by destruct part|].
      pose proof (split_on_parts_free "/" path) as Hfree.
      rewrite Forall_forall in Hfree. by apply Hfree.
    + split; [discriminate|]. unfold free_of. cbn.
      intros Hin. repeat destruct Hin as [Hin|Hin]; discriminate || done.
  - intros path seg Hne Hfree. rewrite toolOfPath_last.
    change (path +:+ "/" +:+ seg) with (path +:+ String "/" seg).
    rewrite split_on_app, filter_app, (split_on_free "/" seg Hfree).
    rewrite filter_cons_True by (by destruct seg).
    rewrite filter_nil, last_snoc. reflexivity.
  - intros path. rewrite !toolOfPath_last.
    change (path +:+ "/") with (path +:+ String "/" EmptyString).
    rewrite split_on_app, filter_app. cbn [split_on].
    rewrite filter_cons_False by (cbn; discriminate).
    by rewrite filter_nil, app_nil_r.
  - reflexivity.
Qed.

End PolicyStringsProps.

(* ================================================================== *)
(** * Properties of the digests and of the mock wallet *)
(* ================================================================== *)

Module HashProps.
Import JS PolicyEngine Signing.


(** A lower-case hexadecimal digit. *)
Definition hex_lower (c : ascii) : bool :=
  ((48 <=? code c) && (code c <=? 57) || (97 <=? code c) && (code c <=? 102))%N.

Lemma radix_digit_hex d : (d < 16)%N -> hex_lower (radix_digit d) = true.
Proof.
  intros Hd. assert (Hk : exists k, (k < 16)%nat /\ d = N.of_nat k)
    by (exists (N.to_nat d); lia).
  destruct Hk as (k & Hk & ->).
  do 16 (destruct k as [|k]; [vm_compute; reflexivity|]). lia.
Qed.

Lemma to_radix_fuel_hex fuel n acc :
  Forall (fun c => hex_lower c = true) (list_ascii_of_string acc) ->
  Forall (fun c => hex_lower c = true)
    (list_ascii_of_string (to_radix_fuel fuel 16 n acc)).
Proof.
  revert n acc. induction fuel as [|fuel IH]; intros n acc Hacc; [exact Hacc|].
  cbn [to_radix_fuel]. destruct (n <? 16)%N eqn:Hn.
  - apply N.ltb_lt in Hn. cbn [list_ascii_of_string].
    constructor; [by apply radix_digit_hex | exact Hacc].
  - apply IH. cbn [list_ascii_of_string].
    constructor; [apply radix_digit_hex; lia | exact Hacc].
Qed.

Lemma to_radix_fuel_length fuel n acc k :
  (n < 16 ^ N.of_nat k)%N -> (1 <= k)%nat ->
  (String.length (to_radix_fuel fuel 16 n acc) <= k + String.length acc)%nat.
Proof.
  revert n acc k. induction fuel as [|fuel IH]; intros n acc k Hn Hk; [cbn; lia|].
  cbn [to_radix_fuel]. destruct (n <? 16)%N eqn:Hsmall.
  - cbn [String.length]. lia.
  - apply N.ltb_ge in Hsmall. destruct k as [|[|k]]; [lia| |].
    + change (16 ^ N.of_nat 1)%N with 16%N in Hn. lia.
    + etransitivity; [apply (IH _ _ (S k))|cbn [String.length]; lia]; [|lia].
      replace (N.of_nat (S (S k))) with (N.succ (N.of_nat (S k))) in Hn by lia.
      rewrite N.pow_succ_r' in Hn. lia.
Qed.

Lemma to_radix_fuel_grows fuel n acc :
  (String.length acc <= String.length (to_radix_fuel fuel 16 n acc))%nat.
Proof.
  revert n acc. induction fuel as [|fuel IH]; intros n acc; [cbn; lia|].
  cbn [to_radix_fuel]. destruct (n <? 16)%N.
  - cbn [String.length]. lia.
  - etransitivity; [|apply IH]. cbn [String.length]. lia.
Qed.

Lemma to_int32_range z : -2147483648 <= to_int32 z < 2147483648.
Proof.
  unfold to_int32. destruct (2147483648 <=? z mod 4294967296) eqn:Hm.
  - apply Z.leb_le in Hm. pose proof (Z.mod_pos_bound z 4294967296). lia.
  - apply Z.leb_gt in Hm. pose proof (Z.mod_pos_bound z 4294967296). lia.
Qed.

(** The hexadecimal text of an integer of 32 bits. *)
Definition digest (s : string) : Prop :=
  (1 <= String.length s <= 8)%nat
  /\ Forall (fun c => hex_lower c = true) (list_ascii_of_string s).

Lemma to_radix_digest h :
  -2147483648 <= h <= 2147483648 -> digest (to_radix 16 (Z.abs h)).
Proof.
  intros Hh. unfold to_radix.
  replace (Z.abs h <? 0) with false by (symmetry; apply Z.ltb_ge; lia).
  set (n := Z.abs_N (Z.abs h)).
  assert (Hn : (n < 16 ^ N.of_nat 8)%N).
  { change (16 ^ N.of_nat 8)%N with 4294967296%N. subst n. lia. }
  split; [split|].
  - cbn [to_radix_fuel]. destruct (n <? 16)%N; [cbn [String.length]; lia|].
    etransitivity; [|apply to_radix_fuel_grows]. cbn [String.length]. lia.
  - pose proof (to_radix_fuel_length (S (N.size_nat n)) n EmptyString 8 Hn ltac:(lia)).
    cbn [String.length] in *. lia.
  - apply to_radix_fuel_hex. constructor.
Qed.

Lemma hash_loop_range h s :
  -2147483648 <= h <= 2147483648 -> -2147483648 <= hash_loop h s <= 2147483648.
Proof.
  revert h. induction s as [|c s IH]; intros h Hh; [exact Hh|].
  cbn [hash_loop]. apply IH. pose proof (to_int32_range (to_int32 (h * 32) + h + Z.of_N (code c))). lia.
Qed.

Lemma hash31_loop_range h s :
  -2147483648 <= h <= 2147483648 -> -2147483648 <= hash31_loop h s <= 2147483648.
Proof.
  revert h. induction s as [|c s IH]; intros h Hh; [exact Hh|].
  cbn [hash31_loop]. apply IH. pose proof (to_int32_range (to_int32 (h * 32) - h + Z.of_N (code c))). lia.
Qed.

(** [hashString] returns between one and eight lower-case hexadecimal
    digits, whatever the text; so does [createContentHash], the digest of
    the receipts' request and response hashes. *)
Theorem hashString_is_32_bit_digest `{JSRuntime} :
  (forall str, digest (hashString str))
  /\ (forall content, digest (createContentHash content)).
Proof.
  assert (Hd : forall str, digest (hashString str)).
  { intros str. apply to_radix_digest, hash_loop_range. lia. }
  split; [exact Hd|]. intros content. apply Hd.
Qed.

Lemma repeat_text_length c n :
  String.length (string_of_list_ascii (repeat c n)) = n.
Proof. induction n as [|n IH]; cbn; [reflexivity|]. by rewrite IH. Qed.

(** [hashMessage] returns [0x] followed by 64 characters, of which at least
    the first 56 are the filler [0] and the rest the hexadecimal text of a
    32-bit integer: the digest has 32 bits, not 256. *)
Theorem hashMessage_has_32_bits message :
  exists d,
    digest d
    /\ hashMessage message
       = "0x" +:+ string_of_list_ascii (repeat "0"%char (64 - String.length d)) +:+ d
    /\ (56 <= 64 - String.length d)%nat
    /\ String.length (hashMessage message) = 66%nat.
Proof.
  exists (to_radix 16 (Z.abs (hash31_loop 0 message))).
  assert (Hd : digest (to_radix 16 (Z.abs (hash31_loop 0 message))))
    by (apply to_radix_digest, hash31_loop_range; lia).
  destruct Hd as [Hlen Hhex]. repeat split; try assumption; try lia.
  unfold hashMessage, padStart.
  rewrite !CodecProps.append_length, repeat_text_length. cbn [String.length]. lia.
Qed.

Section MockWallet.
Context `{JSRuntime}.

Lemma substring_length_le n s : (String.length (String.substring 0 n s) <= n)%nat.
Proof.
  revert s. induction n as [|n IH]; intros [|c s]; cbn; try lia.
  specialize (IH s). lia.
Qed.

(** The mock wallet never fails to sign: its signature has 132 characters,
    starts with [0x] and passes the format check of the worker's
    [verifySignature]; its address has 42 characters. *)
Theorem mock_wallet_signature_is_accepted privateKey params :
  exists sig,
    Client.signPayment (createMockWallet privateKey) params = Ret sig
    /\ String.length sig = 132%nat
    /\ (forall payment seller,
          Worker.signature payment = sig -> Worker.verifySignature payment seller = true)
    /\ String.length (mock_address privateKey) = 42%nat
    /\ Client.getAddress (createMockWallet privateKey) = Ret (mock_address privateKey).
Proof.
  cbn [createMockWallet Client.signPayment Client.getAddress]. unfold mock_signPayment.
  set (hash := simpleHash _).
  assert (Hd : digest hash)
    by (subst hash; apply to_radix_digest, hash31_loop_range; lia).
  destruct Hd as [Hlen _].
  unfold String_repeat.
  replace (130 - Z.of_nat (String.length hash) <? 0) with false
    by (symmetry; apply Z.ltb_ge; lia).
  set (tail := hash +:+ string_of_list_ascii
                         (repeat "0"%char (Z.to_nat (130 - Z.of_nat (String.length hash))))).
  assert (Htail : String.length tail = 130%nat).
  { subst tail. rewrite CodecProps.append_length, repeat_text_length. lia. }
  exists (String "0" (String "x" tail)).
  split; [reflexivity|]. split; [cbn [String.length]; lia|].
  split; [|split; [|reflexivity]].
  - intros payment seller Heq. unfold Worker.verifySignature. rewrite Heq.
    cbn [truthy_string negb orb String.length]. rewrite Htail.
    change ((132 <? 130)%nat) with false. cbv iota.
    unfold startsWith. cbn [String.prefix].
    destruct (ascii_dec "0" "0"); [|congruence].
    destruct (ascii_dec "x" "x"); [|congruence]. clear Htail. by destruct tail.
  - unfold mock_address, padStart.
    rewrite !CodecProps.append_length, repeat_text_length. cbn [String.length].
    pose proof (substring_length_le 40 privateKey). lia.
Qed.

End MockWallet.

End HashProps.

(* ================================================================== *)
(** * Properties of the networks, the paywall and the router *)
(* ================================================================== *)

Module NetworksProps.
Import JS Networks.

Lemma digits_value_uint d acc :
  digits_value 10 acc (NilEmpty.string_of_uint d) = Some (CodecProps.horner acc d)
  /\ forallb is_digit (list_ascii_of_string (NilEmpty.string_of_uint d)) = true.
Proof.
  revert acc.
  induction d as [|d IH|d IH|d IH|d IH|d IH|d IH|d IH|d IH|d IH|d IH]; intros acc;
    cbn [NilEmpty.string_of_uint CodecProps.horner digits_value list_ascii_of_string forallb];
    [split; reflexivity|..];
    (split; [apply (IH _)|apply (IH 0%N)]).
Qed.

(** The decimal text of an integer that is not negative: digits only, read
    back to the integer. *)
Lemma Z_toString_digits z :
  0 <= z ->
  truthy_string (Z_toString z) = true
  /\ forallb is_digit (list_ascii_of_string (Z_toString z)) = true
  /\ digits_value 10 0 (Z_toString z) = Some (Z.to_N z).
Proof.
  intros Hz. unfold Z_toString. destruct z as [|p|p]; [repeat split| |lia].
  cbn [Z.to_int NilZero.string_of_int]. unfold NilZero.string_of_uint.
  pose proof (CodecProps.to_uint_head p) as Hhead.
  destruct (digits_value_uint (Pos.to_uint p) 0) as [Hval Hdig].
  rewrite CodecProps.horner_to_uint in Hval.
  destruct (Pos.to_uint p); try contradiction; repeat split; assumption.
Qed.

Lemma Z_toString_negative p : exists rest, Z_toString (Z.neg p) = String "-" rest.
Proof. eexists. reflexivity. Qed.

(** Comparing the decimal text of a natural number with the text of any
    integer compares the numbers. *)
Lemma eqb_Z_toString t n z :
  digits_value 10 0 t = Some n -> Z_toString (Z.of_N n) = t ->
  String.eqb t (Z_toString z) = (Z.of_N n =? z).
Proof.
  intros Hval Hprint. destruct (Z.eqb_spec (Z.of_N n) z) as [<-|Hne].
  - rewrite Hprint. apply String.eqb_refl.
  - apply String.eqb_neq. intros Heq. apply Hne.
    destruct z as [|p|p].
    + rewrite Heq in Hval. cbn in Hval. injection Hval as <-. reflexivity.
    + destruct (Z_toString_digits (Z.pos p) ltac:(lia)) as (_ & _ & Hz).
      rewrite <- Heq, Hval in Hz. injection Hz as ->. reflexivity.
    + rewrite Heq in Hval. discriminate Hval.
Qed.

Lemma own_property_eip155 z :
  own_property ("eip155:" +:+ Z_toString z) NETWORKS
  = find (fun n => num_strict_eq (chainId n) (Int z))
      (map snd (take 5 NETWORKS)).
Proof.
  unfold NETWORKS. cbn [take map find own_property snd chainId num_strict_eq].
  change (String.eqb "eip155:84532" ("eip155:" +:+ Z_toString z))
    with (String.eqb "84532" (Z_toString z)).
  change (String.eqb "eip155:8453" ("eip155:" +:+ Z_toString z))
    with (String.eqb "8453" (Z_toString z)).
  change (String.eqb "eip155:25" ("eip155:" +:+ Z_toString z))
    with (String.eqb "25" (Z_toString z)).
  change (String.eqb "eip155:338" ("eip155:" +:+ Z_toString z))
    with (String.eqb "338" (Z_toString z)).
  change (String.eqb "eip155:1" ("eip155:" +:+ Z_toString z))
    with (String.eqb "1" (Z_toString z)).
  change (String.eqb "solana:EtWTRABZaYq6iMfeYKouRu166VU2xqa1" ("eip155:" +:+ Z_toString z))
    with false.
  rewrite (eqb_Z_toString "84532" 84532 z), (eqb_Z_toString "8453" 8453 z),
    (eqb_Z_toString "25" 25 z), (eqb_Z_toString "338" 338 z),
    (eqb_Z_toString "1" 1 z) by reflexivity.
  reflexivity.
Qed.

(** Looking a network up by chain id and by the CAIP-2 text of the chain id
    give the same entry, or none, for every chain id but 0: chain id 0 finds
    the Solana entry, whose [chainId] is 0, while [eip155:0] names no
    network. *)
Theorem network_lookups_agree :
  (forall id, id <> Int 0 ->
     getNetworkByCAIP2 (Worker.chainIdToCAIP2 id) = Ret (getNetworkByChainId id))
  /\ getNetworkByCAIP2 (Worker.chainIdToCAIP2 (Int 0)) = Ret None
  /\ name <$> getNetworkByChainId (Int 0) = Some "Solana Devnet"
  /\ getUsdcAddress (Int 0) = Some "Gh9ZwEmdLJ8DscKNTkTqPbNwLNNBjuSzaG9Vp2KGtKJr".
Proof.
  split; [|repeat split].
  intros id Hid. unfold getNetworkByCAIP2, Worker.chainIdToCAIP2.
  change (includes inherited_names ("eip155:" +:+ Number_toString id)) with false.
  cbv iota. f_equal. destruct id as [z| | |]; [|reflexivity..].
  cbn [Number_toString]. rewrite own_property_eip155.
  unfold getNetworkByChainId, NETWORKS.
  cbn [take map find snd chainId num_strict_eq].
  repeat (destruct (_ =? z) eqn:?; [reflexivity|]).
  destruct (Z.eqb_spec 0 z) as [<-|]; [congruence|reflexivity].
Qed.

End NetworksProps.

Module PaywallProps.
Import JS Wire Worker.

Section Middleware.
Context `{JSRuntime}.

(** The worker's [parsePaymentHeader] and the client's read a header alike.
    Neither lets an exception out, and a header they accept holds a
    signature, a payer and a nonce that are not empty (nor [0], [false] or
    [null]); a header that is not base64, or whose text is not JSON, yields
    [null]. *)
Theorem parsePaymentHeader_accepts_only_complete header :
  Worker.parsePaymentHeader header = Client.parsePaymentHeader header
  /\ (forall e, Worker.parsePaymentHeader header <> Throw e)
  /\ (forall raw, Worker.parsePaymentHeader header = Ret (Some raw) ->
        truthy (raw_signature raw) = true /\ truthy (raw_payer raw) = true
        /\ truthy (raw_nonce raw) = true)
  /\ (forall e, atob header = Throw e -> Worker.parsePaymentHeader header = Ret None)
  /\ (forall text e, atob header = Ret text -> JSON_parse text = Throw e ->
        Worker.parsePaymentHeader header = Ret None).
Proof.
  split; [reflexivity|].
  unfold Worker.parsePaymentHeader, mbind, outcome_bind, bind, try_catch.
  split; [|split; [|split]].
  - intros e.
    destruct (atob header) as [text| |]; [|discriminate..].
    destruct (JSON_parse text) as [payload| |]; [|discriminate..].
    destruct payload; cbn [get_property]; try discriminate;
      destruct (negb _ || negb _ || negb _); discriminate.
  - intros raw.
    destruct (atob header) as [text| |]; [|discriminate..].
    destruct (JSON_parse text) as [payload| |]; [|discriminate..].
    destruct payload; cbn [get_property]; try discriminate;
      match goal with
      | |- context [negb (truthy ?a) || negb (truthy ?b) || negb (truthy ?c)] =>
          destruct (truthy a) eqn:Ha, (truthy b) eqn:Hb, (truthy c) eqn:Hc
      end; cbn [negb orb]; try discriminate;
      intros [= <-]; cbn; auto.
  - intros e ->. reflexivity.
  - intros text e -> ->. reflexivity.
Qed.

(** The body [JSON.stringify({ error: message })]. *)
Definition error_body (message : string) : string :=
  "{" +:+ dquote +:+ "error" +:+ dquote +:+ ":" +:+ QuoteJSONString message +:+ "}".

(** The fresh challenge the middleware mints for a request. *)
Definition fresh_expiry (config : PaywallConfig) (amb : Ambient) : Z :=
  unix_seconds amb + default 300 (expiryDuration config).

(** A priced endpoint asked without a payment header (none, or an empty
    one) is answered 402 with a fresh nonce and expiry, the price, the
    seller, and the encoded payment requirements; the handler is not
    called and nothing is read or written. *)
Theorem unpaid_request_is_challenged handler config amb request w pricing :
  getPriceForEndpoint (pathname (url request)) config = Ret (Some pricing) ->
  present (paymentHeaderOf request) = false ->
  exists response,
    withX402Paywall handler config amb request w = (Ret response, w)
    /\ status response = 402
    /\ headers_get (resp_headers response) "X-NONCE" = Some (generateNonce amb)
    /\ headers_get (resp_headers response) "X-EXPIRY"
       = Some (Z_toString (fresh_expiry config amb))
    /\ headers_get (resp_headers response) "X-PRICE" = Some (priceToken pricing)
    /\ headers_get (resp_headers response) "X-TOKEN" = Some (token pricing)
    /\ headers_get (resp_headers response) "X-SELLER" = Some (sellerAddress config)
    /\ exists encoded,
         headers_get (resp_headers response) "PAYMENT-REQUIRED" = Some encoded
         /\ atob encoded
            = Ret (JSON_stringify
                     (createPaymentRequired pricing config (generateNonce amb)
                        (fresh_expiry config amb) (href (url request)))).
Proof.
  intros Hprice Hnone.
  assert (Hrun : withX402Paywall handler config amb request w
                 = (create402Response pricing config (generateNonce amb)
                      (fresh_expiry config amb) (pathname (url request)) request, w)).
  { unfold withX402Paywall, mbind, eff_mbind, eff_bind, eff_lift. rewrite Hprice.
    destruct (paymentHeaderOf request) as [header|]; [|reflexivity].
    cbn [present] in Hnone. rewrite Hnone. reflexivity. }
  rewrite Hrun. unfold create402Response, encodePaymentRequired, btoa.
  eexists. split; [reflexivity|].
  repeat (split; [reflexivity|]).
  eexists. split; [reflexivity|]. apply CodecProps.atob_b64_encode.
Qed.

(** A payment header that does not parse is answered 400 with the error
    [Invalid payment header format]; the handler is not called and nothing
    is read or written. *)
Theorem malformed_proof_is_refused handler config amb request w pricing header :
  getPriceForEndpoint (pathname (url request)) config = Ret (Some pricing) ->
  paymentHeaderOf request = Some header ->
  truthy_string header = true ->
  parsePaymentHeader header = Ret None ->
  exists response,
    withX402Paywall handler config amb request w = (Ret response, w)
    /\ status response = 400
    /\ resp_body response = error_body "Invalid payment header format".
Proof.
  intros Hprice Hheader Htruthy Hparse.
  unfold withX402Paywall, mbind, eff_mbind, eff_bind, eff_lift.
  rewrite Hprice, Hheader, Htruthy. cbn [negb]. rewrite Hparse.
  eexists. split; [reflexivity|]. split; reflexivity.
Qed.

(** A proof that parses but fails [verifyPayment] is answered 402 with the
    reason of the failed check in the body and a fresh challenge in the
    headers; the handler is not called, and the nonce of the proof is not
    marked: the store is neither read nor written. *)
Theorem rejected_proof_is_challenged_again
    handler config amb request w pricing header raw payment verification :
  getPriceForEndpoint (pathname (url request)) config = Ret (Some pricing) ->
  paymentHeaderOf request = Some header ->
  truthy_string header = true ->
  parsePaymentHeader header = Ret (Some raw) ->
  typed raw = Some payment ->
  verifyPayment payment pricing config amb = Ret verification ->
  valid verification = false ->
  exists response,
    withX402Paywall handler config amb request w = (Ret response, w)
    /\ status response = 402
    /\ resp_body response = JSON_stringify (JObj (optional_field "error" (reason verification)))
    /\ headers_get (resp_headers response) "X-NONCE" = Some (generateNonce amb)
    /\ headers_get (resp_headers response) "X-EXPIRY"
       = Some (Z_toString (fresh_expiry config amb))
    /\ headers_get (resp_headers response) "X-PRICE" = Some (priceToken pricing).
Proof.
  intros Hprice Hheader Htruthy Hparse Htyped Hverify Hinvalid.
  unfold withX402Paywall, mbind, eff_mbind, eff_bind, eff_lift.
  rewrite Hprice, Hheader, Htruthy. cbn [negb].
  rewrite Hparse, Htyped, Hverify, Hinvalid. cbn [negb].
  unfold create402Headers, btoa, mbind, outcome_bind, bind.
  eexists. split; [reflexivity|]. repeat (split; [reflexivity|]). reflexivity.
Qed.

(** The calls of the handler among some events. *)
Fixpoint handler_runs (evs : list Event) : nat :=
  match evs with
  | [] => 0
  | HandlerCalled _ _ :: rest => S (handler_runs rest)
  | _ :: rest => handler_runs rest
  end.

Lemma handler_runs_app evs evs' :
  handler_runs (evs ++ evs') = (handler_runs evs + handler_runs evs')%nat.
Proof. induction evs as [|[] evs IH]; cbn; lia. Qed.

Lemma handler_runs_receipts evs :
  Forall WorkerProps.is_receipt evs -> handler_runs evs = 0%nat.
Proof.
  induction 1 as [|e evs He _ IH]; [reflexivity|].
  destruct e; cbn in *; try contradiction. exact IH.
Qed.

Lemma In_receipts_call evs request ctx :
  Forall WorkerProps.is_receipt evs -> ~ In (HandlerCalled request ctx) evs.
Proof.
  intros Hall Hin. rewrite Forall_forall in Hall.
  apply list_elem_of_In in Hin. apply (Hall _ Hin).
Qed.

(** What the replay check adds to the record: reads and writes of the
    store, no call of the handler. *)
Lemma check_replay_events config amb payment w :
  exists added,
    events (snd (check_replay config amb payment w)) = events w ++ added
    /\ handler_runs added = 0%nat
    /\ forall request ctx, ~ In (HandlerCalled request ctx) added.
Proof.
  unfold check_replay.
  destruct (default false (checkReplay config) && kv config).
  - unfold mbind, eff_mbind, eff_bind, kv_get, kv_put, mret, eff_mret, eff_ret.
    cbn [fst snd]. destruct (present _); cbn [fst snd log events].
    + exists [KvGet ("nonce:" +:+ nonce payment)]. split; [reflexivity|].
      split; [reflexivity|]. intros request ctx [Heq|[]]. discriminate.
    + exists [KvGet ("nonce:" +:+ nonce payment);
              KvPut ("nonce:" +:+ nonce payment) "1" 86400].
      split; [by rewrite <- app_assoc|]. split; [reflexivity|].
      intros request ctx [Heq|[Heq|[]]]; discriminate.
  - exists []. split; [by rewrite app_nil_r|]. split; [reflexivity|]. intros ? ? [].
Qed.

(** Whatever the request, the middleware calls the handler at most once,
    with the request it received; and it calls it only for an endpoint that
    has no price, with the unpaid context, or for a request that carries a
    proof [verifyPayment] accepts, with a paid context that bears the nonce
    of that proof. *)
Theorem handler_needs_payment handler config amb request w :
  let run := withX402Paywall handler config amb request w in
  exists added,
    events (snd run) = events w ++ added
    /\ (handler_runs added <= 1)%nat
    /\ forall request' ctx, In (HandlerCalled request' ctx) added ->
         request' = request
         /\ ((getPriceForEndpoint (pathname (url request)) config = Ret None
              /\ ctx = unpaid_context)
             \/ (exists payment,
                   WorkerProps.carries_valid_proof config amb request payment
                   /\ paid ctx = true
                   /\ ctx_nonce ctx = nonce payment)).
Proof.
  cbn zeta.
  assert (Hquiet : forall out,
            exists added : list Event,
              events (snd (out : outcome builtin_exn Response, w)) = events w ++ added
              /\ (handler_runs added <= 1)%nat
              /\ forall request' ctx, In (HandlerCalled request' ctx) added ->
                   request' = request
                   /\ ((getPriceForEndpoint (pathname (url request)) config = Ret None
                        /\ ctx = unpaid_context)
                       \/ (exists payment,
                             WorkerProps.carries_valid_proof config amb request payment
                             /\ paid ctx = true
                             /\ ctx_nonce ctx = nonce payment))).
  { intros out. exists []. cbn [snd]. split; [by rewrite app_nil_r|].
    split; [cbn; lia|]. intros ? ? []. }
  destruct (getPriceForEndpoint (pathname (url request)) config)
    as [[pricing|]| |] eqn:Hprice.
  2: { unfold withX402Paywall, mbind, eff_mbind, eff_bind, eff_lift. rewrite Hprice.
       exists [HandlerCalled request unpaid_context]. split; [reflexivity|].
       split; [cbn; lia|]. intros request' ctx [[= <- <-]|[]]. split; [reflexivity|].
       left. split; reflexivity. }
  2, 3: unfold withX402Paywall, mbind, eff_mbind, eff_bind, eff_lift; rewrite Hprice;
        apply Hquiet.
  destruct (paymentHeaderOf request) as [header|] eqn:Hheader.
  2: { unfold withX402Paywall, mbind, eff_mbind, eff_bind, eff_lift.
       rewrite Hprice, Hheader. apply Hquiet. }
  destruct (truthy_string header) eqn:Htruthy.
  2: { unfold withX402Paywall, mbind, eff_mbind, eff_bind, eff_lift.
       rewrite Hprice, Hheader, Htruthy. apply Hquiet. }
  destruct (parsePaymentHeader header) as [[raw|]| |] eqn:Hparse.
  2, 3, 4: unfold withX402Paywall, mbind, eff_mbind, eff_bind, eff_lift;
           rewrite Hprice, Hheader, Htruthy; cbn [negb]; rewrite Hparse; apply Hquiet.
  destruct (typed raw) as [payment|] eqn:Htyped.
  2: { unfold withX402Paywall, mbind, eff_mbind, eff_bind, eff_lift.
       rewrite Hprice, Hheader, Htruthy. cbn [negb]. rewrite Hparse, Htyped.
       apply Hquiet. }
  destruct (verifyPayment payment pricing config amb) as [verification| |] eqn:Hverify.
  2, 3: unfold withX402Paywall, mbind, eff_mbind, eff_bind, eff_lift;
        rewrite Hprice, Hheader, Htruthy; cbn [negb]; rewrite Hparse, Htyped, Hverify;
        apply Hquiet.
  destruct (valid verification) eqn:Hvalid.
  2: { unfold withX402Paywall, mbind, eff_mbind, eff_bind, eff_lift.
       rewrite Hprice, Hheader, Htruthy. cbn [negb].
       rewrite Hparse, Htyped, Hverify, Hvalid. cbn [negb].
       destruct (create402Headers _ _ _ _); apply Hquiet. }
  assert (Hproof : WorkerProps.carries_valid_proof config amb request payment)
    by (exists pricing, header, raw, verification; auto 10).
  unfold withX402Paywall, mbind, eff_mbind, eff_bind, eff_lift.
  rewrite Hprice, Hheader, Htruthy. cbn [negb].
  rewrite Hparse, Htyped, Hverify, Hvalid. cbn [negb].
  destruct (check_replay_events config amb payment w) as (checked & Hchecked & Hnone & Hnotin).
  destruct (check_replay config amb payment w) as [[[response|]| |] w1] eqn:Hreplay;
    cbn [fst snd] in *.
  1, 3, 4: exists checked; split; [exact Hchecked|]; split; [lia|];
           intros request' ctx Hin; by apply Hnotin in Hin.
  destruct (WorkerProps.fulfil_world handler config amb request pricing payment
              verification (generateNonce amb) w1)
    as (ctx & rest & Hev & Hpaid & Hnonce & Hrest & _).
  cbn zeta in Hev.
  exists (checked ++ HandlerCalled request ctx :: rest).
  split; [rewrite Hev, Hchecked; by rewrite <- app_assoc|].
  split.
  - rewrite handler_runs_app, Hnone. cbn [handler_runs].
    rewrite (handler_runs_receipts rest Hrest). lia.
  - intros request' ctx' Hin. apply in_app_iff in Hin as [Hin|[Heq|Hin]].
    + by apply Hnotin in Hin.
    + injection Heq as <- <-. split; [reflexivity|]. right. eauto.
    + by apply In_receipts_call in Hin.
Qed.

(** ** The paid path *)

Lemma headers_get_set hs name value :
  headers_get (headers_set hs name value) name = Some value.
Proof.
  induction hs as [|[k v] hs IH]; cbn [headers_set headers_get].
  - by rewrite String.eqb_refl.
  - destruct (String.eqb (toLowerCase k) (toLowerCase name)) eqn:Hk;
      cbn [headers_get]; rewrite Hk; [reflexivity|exact IH].
Qed.

Lemma headers_get_set_other hs name value other :
  String.eqb (toLowerCase name) (toLowerCase other) = false ->
  headers_get (headers_set hs name value) other = headers_get hs other.
Proof.
  intros Hne. induction hs as [|[k v] hs IH]; cbn [headers_set headers_get].
  - by rewrite Hne.
  - destruct (String.eqb (toLowerCase k) (toLowerCase name)) eqn:Hk;
      cbn [headers_get]; [|by rewrite IH].
    apply String.eqb_eq in Hk. rewrite Hk, Hne. reflexivity.
Qed.

Section Verified.
Variables (handler : WorkerHandler) (config : PaywallConfig) (amb : Ambient)
  (request : Request) (w : World) (pricing : EndpointPricing) (header : string)
  (raw : RawPayment) (pay : ParsedPayment) (verification : VerificationResult).
Hypothesis priced :
  getPriceForEndpoint (pathname (url request)) config = Ret (Some pricing).
Hypothesis carries : paymentHeaderOf request = Some header.
Hypothesis not_empty : truthy_string header = true.
Hypothesis parses : parsePaymentHeader header = Ret (Some raw).
Hypothesis well_typed : typed raw = Some pay.
Hypothesis verifies : verifyPayment pay pricing config amb = Ret verification.
Hypothesis accepted : valid verification = true.
Hypothesis not_replayed :
  default false (checkReplay config) && kv config = true ->
  present (kv_lookup w ("nonce:" +:+ nonce pay) (now amb)) = false.

(** The context the handler is given. *)
Let paywallCtx : PaywallContext :=
  {| paid := true; payment := Some pay; receiptId := Some (generateReceiptId amb);
     ctx_priceUsd := priceUsd pricing; ctx_nonce := nonce pay |}.

Let served : Response := handler request paywallCtx.

(** The world after the replay check. *)
Let checked : World :=
  if default false (checkReplay config) && kv config
  then snd (kv_put amb ("nonce:" +:+ nonce pay) "1" 86400
              (snd (kv_get amb ("nonce:" +:+ nonce pay) w)))
  else w.

Lemma verified_run :
  withX402Paywall handler config amb request w
  = fulfil handler config amb request pricing pay verification (generateNonce amb)
      checked.
Proof using priced carries not_empty parses well_typed verifies accepted not_replayed.
  unfold withX402Paywall, mbind, eff_mbind, eff_bind, eff_lift.
  rewrite priced, carries, not_empty. cbn [negb].
  rewrite parses, well_typed, verifies, accepted. cbn [negb].
  unfold check_replay, checked.
  destruct (default false (checkReplay config) && kv config); [|reflexivity].
  unfold mbind, eff_mbind, eff_bind, kv_get. cbn [fst snd].
  rewrite not_replayed by reflexivity. reflexivity.
Qed.

(** The receipt of the request. *)
Let receipt (expiryText : string) : Receipt :=
  {| r_id := generateReceiptId amb;
     callId := generateNonce amb;
     paymentRef := String.substring 0 32 (signature pay);
     amountUsd := priceUsd pricing;
     r_token := pp_token pay;
     r_chainId := pp_chainId pay;
     seller := sellerAddress config;
     buyer := payer pay;
     r_nonce := nonce pay;
     r_expiry := expiryText;
     r_signature := signature pay;
     requestHash :=
       PolicyEngine.createContentHash
         (JObj [ ("method", JStr (method request));
                 ("url", JStr (href (url request)));
                 ("body", JStr (req_body request)) ]);
     responseHash :=
       PolicyEngine.createContentHash
         (JObj [ ("status", JNum (Int (status served)));
                 ("body", JStr (resp_body served)) ]);
     r_txHash := txHash pay;
     verified := true;
     createdAt := Date_toISOString (now amb) |}.


(** With a database, a proof whose expiry no [Date] can hold (beyond
    8.64e12 seconds, or not finite) is accepted, and the handler is
    called; building the receipt then throws a RangeError: the caller gets
    no response and no receipt is stored, although the handler has run and
    the nonce is marked. *)
Theorem distant_expiry_loses_the_response (e : builtin_exn) :
  db config = true ->
  iso_of_seconds (expiry pay) = Throw e ->
  let run := withX402Paywall handler config amb request w in
  fst run = Throw e
  /\ events (snd run) = events checked ++ [HandlerCalled request paywallCtx]
  /\ receipts (snd run) = receipts w.
Proof using priced carries not_empty parses well_typed verifies accepted not_replayed.
  intros Hdb Hdate. cbn zeta. rewrite verified_run.
  assert (Hreceipts : receipts checked = receipts w).
  { unfold checked. by destruct (default false (checkReplay config) && kv config). }
  rewrite <- Hreceipts.
  unfold fulfil, mbind, eff_mbind, eff_bind, call_handler, eff_lift.
  cbn [fst snd]. fold paywallCtx served. rewrite Hdb, Hdate.
  repeat split.
Qed.

End Verified.

(** ** Verification with signature checking *)

Lemma verifySignature_spec pay seller :
  verifySignature pay seller = true
  <-> (130 <= String.length (signature pay))%nat
      /\ startsWith (signature pay) "0x" = true.
Proof.
  unfold verifySignature.
  destruct (signature pay) as [|c sig] eqn:Hsig.
  - cbn. split; [discriminate|]. intros [Hlen _]. lia.
  - cbn [truthy_string negb orb].
    destruct (String.length (String c sig) <? 130)%nat eqn:Hlen.
    + apply Nat.ltb_lt in Hlen. split; [discriminate|]. intros [? _]. lia.
    + apply Nat.ltb_ge in Hlen.
      destruct (startsWith (String c sig) "0x"); cbn [negb];
        split; auto; intros [_ ?]; congruence.
Qed.

(** With signature verification enabled, [verifyPayment] accepts a proof
    exactly when the four checks it makes without it pass and the signature
    has at least 130 characters and starts with [0x]: any such text is
    accepted, whoever signed and whatever was signed. *)
Theorem verifyPayment_checks_signature_format pay pricing config amb :
  default false (verifySignatures config) = true ->
  ((exists result, verifyPayment pay pricing config amb = Ret result
                   /\ valid result = true)
   <->
   num_lt (expiry pay) (Int (unix_seconds amb)) = false
   /\ toLowerCase (pp_token pay) = toLowerCase (token pricing)
   /\ num_strict_eq (pp_chainId pay) (chainId pricing) = true
   /\ (exists paid required,
         StringToBigInt (amount pay) = Some paid
         /\ StringToBigInt (priceToken pricing) = Some required
         /\ required <= paid)
   /\ (130 <= String.length (signature pay))%nat
   /\ startsWith (signature pay) "0x" = true).
Proof.
  intros Hon. rewrite <- verifySignature_spec with (seller := sellerAddress config).
  unfold verifyPayment, BigInt. rewrite Hon. cbn [andb].
  destruct (num_lt _ _).
  { split; [intros (r & [= <-] & Hv); discriminate|intros (? & _); discriminate]. }
  destruct (String.eqb _ _) eqn:Htok; cbn [negb].
  2: { apply String.eqb_neq in Htok.
       split; [intros (r & [= <-] & Hv); discriminate|intros (_ & ? & _); congruence]. }
  apply String.eqb_eq in Htok.
  destruct (num_strict_eq _ _); cbn [negb].
  2: { split; [intros (r & [= <-] & Hv); discriminate|intros (_ & _ & ? & _); discriminate]. }
  destruct (StringToBigInt (amount pay)) as [paid|]; cbn.
  2: { split; [intros (r & ? & _); discriminate
              |intros (_ & _ & _ & (? & ? & ? & _) & _); discriminate]. }
  destruct (StringToBigInt (priceToken pricing)) as [required|]; cbn.
  2: { split; [intros (r & ? & _); discriminate
              |intros (_ & _ & _ & (? & ? & _ & ? & _) & _); discriminate]. }
  destruct (Z.ltb_spec paid required) as [Hlt|Hle].
  { split; [intros (r & [= <-] & Hv); discriminate|].
    intros (_ & _ & _ & (p & q & [= <-] & [= <-] & ?) & _). lia. }
  destruct (verifySignature pay (sellerAddress config)); cbn [negb].
  - split; [|eauto]. intros _. repeat split; eauto.
  - split; [intros (r & [= <-] & Hv); discriminate|].
    intros (_ & _ & _ & _ & ?). discriminate.
Qed.

(** ** The price of an endpoint *)


End Middleware.

(** ** Closed examples, on the sample runtime *)

Import SampleRuntime WorkerProps.

(** The priced endpoint asked without a payment header. *)
Definition unpaid_request : Request :=
  {| url := quote_url; method := "POST"; req_headers := []; req_body := "{}" |}.

Lemma unpaid_request_is_challenged_witness :
  exists response,
    withX402Paywall done_handler shop (at_instant 1700000000000) unpaid_request empty_world
    = (Ret response, empty_world)
    /\ status response = 402
    /\ headers_get (resp_headers response) "X-EXPIRY" = Some "1700000300"
    /\ headers_get (resp_headers response) "X-PRICE" = Some "250000".
Proof.
  destruct (unpaid_request_is_challenged done_handler shop (at_instant 1700000000000)
              unpaid_request empty_world quote_pricing)
    as (response & Hrun & Hstatus & _ & Hexpiry & Hprice & _).
  - vm_compute. reflexivity.
  - reflexivity.
  - exists response. repeat split; assumption.
Defined.

(** The priced endpoint asked with a header that is no base64 text. *)
Definition garbled_request : Request :=
  {| url := quote_url; method := "POST";
     req_headers := [("X-PAYMENT", "not base64!")]; req_body := "{}" |}.

Lemma malformed_proof_is_refused_witness :
  exists response,
    withX402Paywall done_handler shop (at_instant 1700000000000) garbled_request empty_world
    = (Ret response, empty_world)
    /\ status response = 400.
Proof.
  destruct (malformed_proof_is_refused done_handler shop (at_instant 1700000000000)
              garbled_request empty_world quote_pricing "not base64!")
    as (response & Hrun & Hstatus & _).
  - vm_compute. reflexivity.
  - reflexivity.
  - reflexivity.
  - vm_compute. reflexivity.
  - exists response. split; assumption.
Defined.

(** The buyer's proof presented after its expiry. *)
Lemma rejected_proof_is_challenged_again_witness :
  exists response,
    withX402Paywall done_handler shop (at_instant 1900000000000) paid_request empty_world
    = (Ret response, empty_world)
    /\ status response = 402
    /\ resp_body response = error_body "Payment has expired".
Proof.
  epose proof (rejected_proof_is_challenged_again done_handler shop
                 (at_instant 1900000000000) paid_request empty_world quote_pricing
                 buyer_header _ buyer_payment (rejected "Payment has expired"))
    as Hthm.
  edestruct Hthm as (response & Hrun & Hstatus & Hbody & _).
  - vm_compute. reflexivity.
  - reflexivity.
  - reflexivity.
  - vm_compute. reflexivity.
  - reflexivity.
  - vm_compute. reflexivity.
  - reflexivity.
  - exists response. split; [exact Hrun|]. split; [exact Hstatus|].
    rewrite Hbody. reflexivity.
Defined.


(** A proof that expires in the year 287 171. *)
Definition distant_proof : Client.PaymentProof :=
  {| Client.signature := "0xfeedbeef";
     Client.payer := "0xb0b";
     Client.p_nonce := "nonce_2";
     Client.p_expiry := Int 9000000000000;
     Client.amount := "250000";
     Client.p_token := usdc;
     Client.p_chainId := Int 84532;
     Client.txHash := None |}.

Definition distant_header : string :=
  Eval vm_compute in
    match Client.createPaymentHeader distant_proof with
    | Ret header => header
    | _ => EmptyString
    end.

Definition distant_payment : ParsedPayment :=
  {| signature := "0xfeedbeef"; payer := "0xb0b"; nonce := "nonce_2";
     expiry := Int 9000000000000; amount := "250000"; pp_token := usdc;
     pp_chainId := Int 84532; txHash := None |}.

Definition distant_request : Request :=
  {| url := quote_url; method := "POST";
     req_headers := [("X-PAYMENT", distant_header)]; req_body := "{}" |}.

Lemma distant_expiry_loses_the_response_witness :
  let run := withX402Paywall done_handler shop (at_instant 1700000000000) distant_request
               empty_world in
  fst run = Throw RangeError
  /\ handler_runs (events (snd run)) = 1%nat
  /\ receipts (snd run) = [].
Proof.
  epose proof (distant_expiry_loses_the_response done_handler shop
                 (at_instant 1700000000000) distant_request empty_world quote_pricing
                 distant_header _ distant_payment {| valid := true; reason := None |})
    as Hthm.
  cbn zeta in Hthm |- *.
  edestruct Hthm as (Hthrow & Hevents & Hreceipts).
  - vm_compute. reflexivity.
  - reflexivity.
  - reflexivity.
  - vm_compute. reflexivity.
  - reflexivity.
  - vm_compute. reflexivity.
  - reflexivity.
  - intros _. reflexivity.
  - reflexivity.
  - vm_compute. reflexivity.
  - split; [exact Hthrow|]. split; [|exact Hreceipts].
    rewrite Hevents. reflexivity.
Defined.

(** The shop with signature verification switched on. *)
Definition strict_shop : PaywallConfig :=
  {| sellerAddress := "0x5e11e5";
     defaultToken := usdc;
     defaultChainId := Int 84532;
     pricing := [("/tool/quote", PriceUsd 0.25)];
     defaultPriceUsd := None;
     expiryDuration := None;
     verifySignatures := Some true;
     checkReplay := Some true;
     db := true;
     kv := true |}.

(** The buyer's ten-character signature is turned down by the strict shop. *)
Lemma verifyPayment_checks_signature_format_witness :
  ~ exists result,
      verifyPayment buyer_payment quote_pricing strict_shop (at_instant 1700000000000)
      = Ret result
      /\ valid result = true.
Proof.
  intros Haccepted.
  apply (verifyPayment_checks_signature_format buyer_payment quote_pricing strict_shop
           (at_instant 1700000000000) eq_refl) in Haccepted.
  destruct Haccepted as (_ & _ & _ & _ & Hlength & _).
  vm_compute in Hlength. lia.
Defined.

End PaywallProps.

Module RouterProps.
Import JS Worker Router.

Lemma routes_get_set routes pattern route :
  routes_get (routes_set routes pattern route) pattern = Some route.
Proof.
  induction routes as [|[k v] routes IH]; cbn [routes_set routes_get].
  - by rewrite String.eqb_refl.
  - destruct (String.eqb k pattern) eqn:Hk; cbn [routes_get]; rewrite Hk; auto.
Qed.

Lemma routes_get_set_other routes pattern route path :
  path <> pattern ->
  routes_get (routes_set routes pattern route) path = routes_get routes path.
Proof.
  intros Hne. induction routes as [|[k v] routes IH]; cbn [routes_set routes_get].
  - replace (String.eqb pattern path) with false; [reflexivity|].
    symmetry. apply String.eqb_neq. congruence.
  - destruct (String.eqb k pattern) eqn:Hk; cbn [routes_get]; [|by rewrite IH].
    apply String.eqb_eq in Hk. subst k.
    replace (String.eqb pattern path) with false; [reflexivity|].
    symmetry. apply String.eqb_neq. congruence.
Qed.

(** The router finds a route by the exact path of the request. A route
    registered with [paid] serves the requests for its own text through the
    paywall, one registered with [free] calls its handler and reads and
    writes nothing; a request for any other path is answered 404 without a
    handler being called, also when the text of a registered route is a
    pattern with wildcards that matches the path. Registering leaves the
    routes of other texts as they were. *)
Theorem router_matches_paths_literally `{JSRuntime} routes config amb request w :
  (forall handler,
     handle (paid routes (pathname (url request)) handler) config amb request w
     = withX402Paywall handler config amb request w)
  /\ (forall handler,
        handle (free routes (pathname (url request)) handler) config amb request w
        = (Ret (handler request), w))
  /\ (forall pattern route,
        pattern <> pathname (url request) ->
        routes_get routes (pathname (url request)) = None ->
        exists response,
          handle (routes_set routes pattern route) config amb request w = (Ret response, w)
          /\ status response = 404 /\ resp_body response = "Not Found")
  /\ (forall pattern route,
        pattern <> pathname (url request) ->
        handle (routes_set routes pattern route) config amb request w
        = handle routes config amb request w).
Proof.
  unfold handle, paid, free. split; [|split; [|split]].
  - intros handler. by rewrite routes_get_set.
  - intros handler. by rewrite routes_get_set.
  - intros pattern route Hne Hnone.
    rewrite routes_get_set_other, Hnone by congruence.
    eexists. repeat split.
  - intros pattern route Hne. by rewrite routes_get_set_other by congruence.
Qed.

End RouterProps.

(* ================================================================== *)
(** * Properties of the orchestrator over the in-memory ledger *)
(* ================================================================== *)

Module OrchestratorProps.
Import JS Wire PolicyEngine Client.

Section Orchestration.
Context `{JSRuntime} {S : Type} `{SpendStorage S}.
Variable network : nat -> URL -> RequestInit -> outcome exn Response.
Variable parse402Headers : Response -> Ambient -> option X402Headers.

#[local] Abbreviation World := (@World S).
#[local] Abbreviation x402Fetch := (x402Fetch network parse402Headers).
#[local] Abbreviation retry := (retry network).

(** The world after the probe. *)
Definition probed (input : URL) (init : RequestInit) (w : World) : World :=
  {| storage := storage w; sent := Datatypes.S (sent w);
     events := events w ++ [Fetched input init] |}.

(** A first response that is not a 402 is returned as it is, marked as not
    paid, and a first request that is rejected is rejected to the caller: in
    both cases one request was sent, the ledger was neither read nor
    written and the wallet was not asked. A 402 without a challenge that
    decodes throws an [X402PaymentError], in the same way. *)
Theorem unchallenged_call_touches_nothing input init options amb w :
  (forall probe, network (sent w) input init = Ret probe -> status probe <> 402 ->
     x402Fetch input init options amb w
     = (Ret {| response := probe; x402Paid := false; x402Payment := None;
               x402Decision := None; x402ReceiptId := None |},
        probed input init w))
  /\ (forall e, network (sent w) input init = Throw e ->
        x402Fetch input init options amb w = (Throw e, probed input init w))
  /\ (forall probe, network (sent w) input init = Ret probe -> status probe = 402 ->
        parse402Headers probe amb = None ->
        x402Fetch input init options amb w
        = (Throw (X402PaymentError "Invalid 402 response - missing required headers"
                    no_headers None),
           probed input init w)).
Proof.
  split; [|split].
  - intros probe Hprobe Hstatus. unfold Client.x402Fetch.
    erewrite ClientProps.bind_Ret
      by (unfold Client.fetch; rewrite Hprobe; reflexivity).
    replace (status probe =? 402) with false by (symmetry; by apply Z.eqb_neq).
    reflexivity.
  - intros e Hprobe. unfold Client.x402Fetch.
    erewrite ClientProps.bind_Throw
      by (unfold Client.fetch; rewrite Hprobe; reflexivity).
    reflexivity.
  - intros probe Hprobe Hstatus Hnone. unfold Client.x402Fetch.
    erewrite ClientProps.bind_Ret
      by (unfold Client.fetch; rewrite Hprobe; reflexivity).
    rewrite Hstatus, Hnone. reflexivity.
Qed.

(** ** After the challenge *)

(** The loop when every request it sends is rejected: it gives up once the
    budget is spent, with the error of the last attempt as the cause. *)
Lemma retry_exhausted input init cid maxRetries headers paymentRequest proof decision amb
    (errors : nat -> exn) :
  forall (remaining : nat) (lastError : option exn) (w : World),
  (forall j, (j < remaining)%nat ->
     network (sent w + j)%nat input (ClientProps.paid_init init proof)
     = Throw (errors (sent w + j)%nat)) ->
  retry remaining lastError input init cid maxRetries headers paymentRequest proof
    decision amb w
  = (Throw (X402PaymentError
              ("Payment request failed after " +:+ Z_toString maxRetries +:+ " retries")
              headers
              (match remaining with
               | O => lastError
               | Datatypes.S k => Some (as_Error (errors (sent w + k)%nat))
               end)),
     {| storage := storage w; sent := (sent w + remaining)%nat;
        events := events w
                  ++ repeat (Fetched input (ClientProps.paid_init init proof)) remaining |}).
Proof.
  induction remaining as [|remaining IH]; intros lastError w Hfail; cbn [Client.retry].
  - unfold eff_throw. rewrite Nat.add_0_r, app_nil_r. by destruct w.
  - pose proof (Hfail 0%nat ltac:(lia)) as He. rewrite Nat.add_0_r in He.
    unfold eff_try. rewrite ClientProps.createPaymentHeader_Ret. cbn [lift_exn].
    erewrite ClientProps.bind_Ret by reflexivity.
    fold (ClientProps.paid_init init proof).
    erewrite ClientProps.bind_Throw by (unfold Client.fetch; rewrite He; reflexivity).
    set (w1 := log _ _).
    assert (Hsent : sent w1 = Datatypes.S (sent w)) by reflexivity.
    rewrite IH.
    + rewrite Hsent. unfold w1, log. cbn [storage events repeat].
      rewrite <- !app_assoc. cbn [app].
      replace (Datatypes.S (sent w) + remaining)%nat
        with (sent w + Datatypes.S remaining)%nat by lia.
      destruct remaining as [|k]; [by rewrite Nat.add_0_r|].
      by replace (Datatypes.S (sent w) + k)%nat with (sent w + Datatypes.S k)%nat by lia.
    + intros j Hj. rewrite Hsent.
      replace (Datatypes.S (sent w) + j)%nat with (sent w + Datatypes.S j)%nat by lia.
      apply Hfail. lia.
Qed.

Section Challenged.
Variables (input : URL) (init : RequestInit) (options : X402FetchOptions)
  (amb : Ambient) (w : World) (probe : Response) (headers : X402Headers).
Hypothesis probe_resolves : network (sent w) input init = Ret probe.
Hypothesis probe_is_402 : status probe = 402.
Hypothesis challenge_decodes : parse402Headers probe amb = Some headers.

Let cid := callerId options.
Let context := fst (getSpendContext cid amb (storage w)).
Let ledger := snd (getSpendContext cid amb (storage w)).
Let paymentRequest := parsePaymentRequest input (h_priceUsd headers) cid.
Let decision :=
  evaluatePolicy (policy options) paymentRequest context
    {| rules := None; fullTrace := Some true |} (now amb).
Let metadata :=
  {| dm_endpoint := endpoint paymentRequest; dm_priceUsd := h_priceUsd headers |}.

Hypothesis allowed : allow decision = true.
Hypothesis pays : default true (autoPay options) = true.

Let params : SignParams :=
  {| sp_seller := seller headers; sp_amount := price headers;
     sp_token := token headers; sp_chainId := chainId headers;
     sp_nonce := nonce headers; sp_expiry := expiry headers |}.

(** The record once the decision is recorded and notified. *)
Let decided_events : list Event :=
  events w
  ++ [Fetched input init; SpendContextRead cid; DecisionRecorded cid decision metadata]
  ++ (if onPaymentRequired options then [PaymentRequiredNotified headers decision] else []).

Lemma x402Fetch_allowed :
  x402Fetch input init options amb w
  = (eff_try
       (wallet_signPayment (wallet options) params ≫= fun signature =>
        wallet_getAddress (wallet options) ≫= fun payer =>
        mret {| signature := signature; payer := payer;
                p_nonce := nonce headers; p_expiry := expiry headers;
                amount := price headers; p_token := token headers;
                p_chainId := chainId headers; txHash := None |})
       (fun error =>
          eff_throw (X402PaymentError "Failed to generate payment" headers (if_Error error)))
     ≫= fun paymentProof =>
     notify (onPaymentMade options) (PaymentMadeNotified paymentProof) ≫= fun _ =>
     retry (Z.to_nat (default 1 (maxRetries options))) None input init cid
       (default 1 (maxRetries options)) headers paymentRequest paymentProof decision amb)
      {| storage := recordDecision cid decision metadata amb ledger;
         sent := Datatypes.S (sent w);
         events := decided_events |}.
Proof using probe_resolves probe_is_402 challenge_decodes allowed pays.
  rewrite (ClientProps.x402Fetch_decided network parse402Headers input init options amb w
             probe headers probe_resolves probe_is_402 challenge_decodes).
  fold cid. fold context. fold ledger. fold paymentRequest. fold decision.
  rewrite allowed, pays. cbn [negb]. reflexivity.
Qed.

(** When the wallet fails to sign, or to give its address, the call throws
    an [X402PaymentError] that carries the challenge and, as its cause, the
    wallet's error when that is an [Error]; the decision stays recorded,
    no paid request is sent and no payment is recorded. *)
Theorem signing_failure_is_fatal :
  (forall e, signPayment (wallet options) params = Throw e ->
     x402Fetch input init options amb w
     = (Throw (X402PaymentError "Failed to generate payment" headers (if_Error e)),
        {| storage := recordDecision cid decision metadata amb ledger;
           sent := Datatypes.S (sent w);
           events := decided_events ++ [SignRequested params] |}))
  /\ (forall signed e,
        signPayment (wallet options) params = Ret signed ->
        getAddress (wallet options) = Throw e ->
        x402Fetch input init options amb w
        = (Throw (X402PaymentError "Failed to generate payment" headers (if_Error e)),
           {| storage := recordDecision cid decision metadata amb ledger;
              sent := Datatypes.S (sent w);
              events := decided_events ++ [SignRequested params; AddressRequested] |})).
Proof using probe_resolves probe_is_402 challenge_decodes allowed pays.
  split.
  - intros e Hsign. rewrite x402Fetch_allowed.
    erewrite ClientProps.bind_Throw; [reflexivity|].
    unfold eff_try.
    erewrite ClientProps.bind_Throw
      by (unfold wallet_signPayment; rewrite Hsign; reflexivity).
    reflexivity.
  - intros signed e Hsign Haddress. rewrite x402Fetch_allowed.
    erewrite ClientProps.bind_Throw; [reflexivity|].
    unfold eff_try.
    erewrite ClientProps.bind_Ret
      by (unfold wallet_signPayment; rewrite Hsign; reflexivity).
    erewrite ClientProps.bind_Throw
      by (unfold wallet_getAddress; rewrite Haddress; reflexivity).
    unfold eff_throw, log. cbn [storage sent events].
    by rewrite <- app_assoc.
Qed.

Section Signed.
Variables (signed : string) (address : string).
Hypothesis wallet_signs : signPayment (wallet options) params = Ret signed.
Hypothesis wallet_answers : getAddress (wallet options) = Ret address.

Let paymentProof : PaymentProof :=
  {| signature := signed; payer := address;
     p_nonce := nonce headers; p_expiry := expiry headers;
     amount := price headers; p_token := token headers;
     p_chainId := chainId headers; txHash := None |}.

Let signed_events : list Event :=
  decided_events ++ [SignRequested params; AddressRequested]
  ++ (if onPaymentMade options then [PaymentMadeNotified paymentProof] else []).

(** When every paid request is rejected by the network, the call sends as
    many as [maxRetries] allows (one by default, none when it is zero or
    negative) and throws an [X402PaymentError] whose cause is the last
    rejection; the wallet has signed, and no payment is recorded. *)
Theorem exhausted_retries_record_no_payment (errors : nat -> exn) :
  let budget := Z.to_nat (default 1 (maxRetries options)) in
  (forall j, (j < budget)%nat ->
     network (Datatypes.S (sent w) + j)%nat input (ClientProps.paid_init init paymentProof)
     = Throw (errors (Datatypes.S (sent w) + j)%nat)) ->
  x402Fetch input init options amb w
  = (Throw (X402PaymentError
              ("Payment request failed after "
               +:+ Z_toString (default 1 (maxRetries options)) +:+ " retries")
              headers
              (match budget with
               | O => None
               | Datatypes.S k => Some (as_Error (errors (Datatypes.S (sent w) + k)%nat))
               end)),
     {| storage := recordDecision cid decision metadata amb ledger;
        sent := (Datatypes.S (sent w) + budget)%nat;
        events := signed_events
                  ++ repeat (Fetched input (ClientProps.paid_init init paymentProof)) budget |}).
Proof using probe_resolves probe_is_402 challenge_decodes allowed pays
  wallet_signs wallet_answers.
  intros budget Hfail. rewrite x402Fetch_allowed.
  erewrite ClientProps.bind_Ret; cycle 1.
  { unfold eff_try.
    erewrite ClientProps.bind_Ret
      by (unfold wallet_signPayment; rewrite wallet_signs; reflexivity).
    erewrite ClientProps.bind_Ret
      by (unfold wallet_getAddress; rewrite wallet_answers; reflexivity).
    reflexivity. }
  erewrite ClientProps.bind_Ret by reflexivity.
  fold paymentProof. fold budget.
  rewrite (retry_exhausted input init cid _ headers paymentRequest paymentProof decision amb
             errors budget None).
  - unfold signed_events, notify.
    destruct (onPaymentMade options); unfold log; cbn [storage sent events];
      rewrite <- ?app_assoc, ?app_nil_r; reflexivity.
  - intros j Hj. unfold notify, log.
    destruct (onPaymentMade options); cbn [sent]; by apply Hfail.
Qed.

(** The ledger after a paid request that resolves at once. *)
Lemma paid_call_storage (response : Response) :
  (0 < Z.to_nat (default 1%Z (maxRetries options)))%nat ->
  network (Datatypes.S (sent w)) input (ClientProps.paid_init init paymentProof)
  = Ret response ->
  storage (snd (x402Fetch input init options amb w))
  = (if ok response
     then recordPayment cid (h_priceUsd headers)
            {| pm_endpoint := endpoint paymentRequest; pm_nonce := nonce headers;
               pm_paymentRef := String.substring 0 16 signed |} amb
            (recordDecision cid decision metadata amb ledger)
     else recordDecision cid decision metadata amb ledger).
Proof using probe_resolves probe_is_402 challenge_decodes allowed pays
  wallet_signs wallet_answers.
  intros Hbudget Hok. rewrite x402Fetch_allowed.
  erewrite ClientProps.bind_Ret; cycle 1.
  { unfold eff_try.
    erewrite ClientProps.bind_Ret
      by (unfold wallet_signPayment; rewrite wallet_signs; reflexivity).
    erewrite ClientProps.bind_Ret
      by (unfold wallet_getAddress; rewrite wallet_answers; reflexivity).
    reflexivity. }
  erewrite ClientProps.bind_Ret by reflexivity.
  fold paymentProof.
  match goal with |- storage (snd (Client.retry _ _ _ _ _ _ _ _ _ ?pr _ _ ?w1)) = _ =>
    destruct (ClientProps.retry_resolves network input init cid
                (default 1 (maxRetries options)) headers paymentRequest pr decision amb
                response 0 (Z.to_nat (default 1 (maxRetries options))) None w1)
      as (_ & Hst & _)
  end.
  - exact Hbudget.
  - intros j Hj. lia.
  - unfold notify, log. destruct (onPaymentMade options); cbn [sent];
      rewrite Nat.add_0_r; exact Hok.
  - cbn zeta in Hst. rewrite Hst. unfold notify, log.
    destruct (onPaymentMade options); reflexivity.
Qed.

End Signed.
End Challenged.

End Orchestration.

(** ** Closed examples, on the sample runtime and the in-memory ledger *)

Import SampleRuntime ClientProps.

(** A wallet whose owner declines to sign. *)
Definition declining_wallet : WalletAdapter :=
  {| getAddress := Ret "0xb0b";
     signPayment := fun _ => Throw (External true "User rejected the request") |}.

Definition declined_options : X402FetchOptions :=
  {| policy := policy_with_cap 0.5; wallet := declining_wallet; callerId := "agent-123";
     autoPay := None; onPaymentRequired := true; onPaymentMade := true;
     onPolicyBlocked := true; maxRetries := Some 3 |}.

Lemma signing_failure_is_fatal_witness :
  let run := Client.x402Fetch flaky_network sample_decoder tool_url post declined_options
               this_instant new_world in
  (exists cause,
     fst run = Throw (X402PaymentError "Failed to generate payment" challenge_headers cause))
  /\ sent (snd run) = 1%nat
  /\ payments (storage (snd run)) = [].
Proof.
  pose proof (signing_failure_is_fatal flaky_network sample_decoder tool_url post
                declined_options this_instant new_world challenge challenge_headers
                eq_refl eq_refl eq_refl) as Hthm.
  destruct Hthm as [Hsign _]; [vm_compute; reflexivity|reflexivity|].
  cbn zeta. rewrite (Hsign _ eq_refl).
  split; [eexists; reflexivity|]. split; reflexivity.
Defined.

(** A network that challenges the probe and drops every paid request. *)
Definition dead_network (n : nat) (_ : URL) (_ : RequestInit) : outcome exn Response :=
  match n with
  | 0%nat => Ret challenge
  | _ => Throw (External true "fetch failed")
  end.

Lemma exhausted_retries_record_no_payment_witness :
  let run := Client.x402Fetch dead_network sample_decoder tool_url post
               (options_with_cap 0.5) this_instant new_world in
  (exists cause,
     fst run = Throw (X402PaymentError "Payment request failed after 3 retries"
                        challenge_headers cause))
  /\ sent (snd run) = 4%nat
  /\ payments (storage (snd run)) = [].
Proof.
  pose proof (exhausted_retries_record_no_payment dead_network sample_decoder tool_url
                post (options_with_cap 0.5) this_instant new_world challenge
                challenge_headers eq_refl eq_refl eq_refl) as Hthm.
  specialize (Hthm ltac:(vm_compute; reflexivity) eq_refl "0xfeedbeef" "0xb0b"
                eq_refl eq_refl (fun _ => External true "fetch failed")).
  cbn zeta in Hthm |- *. rewrite Hthm.
  - split; [eexists; reflexivity|]. split; reflexivity.
  - intros j _. reflexivity.
Defined.

End OrchestratorProps.

Module LedgerProps.
Import JS Wire PolicyEngine Client ClientPayment.

(** The context of a caller after a payment of theirs is recorded. *)
Lemma recordPayment_context callerId amountUsd metadata amb amb0 amb1 st :
  let before := fst (mem_getSpendContext callerId amb0 st) in
  let st' := mem_recordPayment callerId amountUsd metadata amb st in
  let after := fst (mem_getSpendContext callerId amb1 st') in
  dailySpentUsd after = (dailySpentUsd before + amountUsd)%float
  /\ weeklySpentUsd after = (weeklySpentUsd before + amountUsd)%float
  /\ dailyCallCount after = dailyCallCount before + 1
  /\ sc_callerId after = sc_callerId before
  /\ sc_timestamp after = now amb
  /\ decisions st' = decisions st.
Proof.
  cbn zeta. unfold mem_recordPayment, mem_getSpendContext.
  destruct (contexts st !! callerId) as [existing|] eqn:Hctx;
    cbn [fst snd contexts payments decisions]; rewrite lookup_insert_eq;
    repeat split.
Qed.

(** Recording a decision changes no context. *)
Lemma recordDecision_context callerId decision metadata amb st caller amb1 :
  mem_getSpendContext caller amb1 (mem_recordDecision callerId decision metadata amb st)
  = (fst (mem_getSpendContext caller amb1 st),
     mem_recordDecision callerId decision metadata amb
       (snd (mem_getSpendContext caller amb1 st))).
Proof.
  unfold mem_getSpendContext, mem_recordDecision.
  cbn [contexts]. by destruct (contexts st !! caller).
Qed.

(** A payment recorded in the in-memory ledger adds its amount to the
    caller's daily and weekly totals and one to the call count, whatever
    the clock reads before and after: the totals are never reset at the end
    of a day or a week. The contexts of other callers, and the decisions,
    are left as they were, and the list of payments grows by the one
    recorded. *)
Theorem recordPayment_accumulates callerId amountUsd metadata amb amb0 amb1 st :
  let before := fst (mem_getSpendContext callerId amb0 st) in
  let st' := mem_recordPayment callerId amountUsd metadata amb st in
  let after := fst (mem_getSpendContext callerId amb1 st') in
  dailySpentUsd after = (dailySpentUsd before + amountUsd)%float
  /\ weeklySpentUsd after = (weeklySpentUsd before + amountUsd)%float
  /\ dailyCallCount after = dailyCallCount before + 1
  /\ sc_callerId after = sc_callerId before
  /\ sc_timestamp after = now amb
  /\ (contexts st !! callerId = None ->
        dailySpentUsd before = 0%float /\ weeklySpentUsd before = 0%float
        /\ dailyCallCount before = 0 /\ sc_callerId before = callerId)
  /\ (forall other, other <> callerId -> contexts st' !! other = contexts st !! other)
  /\ (exists record,
        getPayments st' = getPayments st ++ [record]
        /\ pay_callerId record = callerId /\ pay_amountUsd record = amountUsd
        /\ pay_endpoint record = pm_endpoint metadata
        /\ pay_nonce record = pm_nonce metadata
        /\ pay_paymentRef record = pm_paymentRef metadata)
  /\ getDecisions st' = getDecisions st.
Proof.
  cbn zeta.
  destruct (recordPayment_context callerId amountUsd metadata amb amb0 amb1 st)
    as (Hd & Hw & Hc & Hi & Ht & Hdec).
  cbn zeta in *. repeat (split; [assumption|]).
  unfold mem_recordPayment, mem_getSpendContext, getPayments, getDecisions.
  destruct (contexts st !! callerId) as [existing|] eqn:Hctx;
    cbn [fst snd contexts payments decisions createSpendContext
         dailySpentUsd weeklySpentUsd dailyCallCount sc_callerId].
  - split; [discriminate|].
    split; [intros other Hother; by rewrite lookup_insert_ne|].
    split; [eexists; repeat split|reflexivity].
  - split; [intros _; repeat split|].
    split; [intros other Hother; by rewrite !lookup_insert_ne|].
    split; [eexists; repeat split|reflexivity].
Qed.

(** Recording a decision, allowing or blocking, changes no spend context
    and no payment: it adds the decision to the list of decisions, and to
    the blocked ones exactly when it does not allow. *)
Theorem recordDecision_spends_nothing callerId decision metadata amb st :
  let st' := mem_recordDecision callerId decision metadata amb st in
  contexts st' = contexts st
  /\ (forall caller amb1, mem_getSpendContext caller amb1 st'
                          = (fst (mem_getSpendContext caller amb1 st),
                             mem_recordDecision callerId decision metadata amb
                               (snd (mem_getSpendContext caller amb1 st))))
  /\ getPayments st' = getPayments st
  /\ (exists record,
        getDecisions st' = getDecisions st ++ [record]
        /\ dec_decision record = decision /\ dec_callerId record = callerId
        /\ getBlockedDecisions st'
           = getBlockedDecisions st ++ (if allow decision then [] else [record])).
Proof.
  cbn zeta. split; [reflexivity|]. split; [|split; [reflexivity|]].
  - intros caller amb1. apply recordDecision_context.
  - eexists. split; [reflexivity|]. split; [reflexivity|]. split; [reflexivity|].
    unfold getBlockedDecisions, mem_recordDecision. cbn [decisions].
    rewrite List.filter_app. cbn [List.filter dec_decision].
    by destruct (allow decision).
Qed.

End LedgerProps.

Module SpendingProps.
Import JS Wire PolicyEngine Client ClientPayment.

Section OverTheInMemoryLedger.
Context `{JSRuntime}.
Variable network : nat -> URL -> RequestInit -> outcome exn Response.
Variable parse402Headers : Response -> Ambient -> option X402Headers.
Variables (input : URL) (init : RequestInit) (options : X402FetchOptions)
  (amb : Ambient) (w : @World InMemorySpendStorage) (probe : Response)
  (headers : X402Headers) (signed address : string) (response : Response).

Let cid := callerId options.
Let before := fst (mem_getSpendContext cid amb (storage w)).
Let decision :=
  evaluatePolicy (policy options) (parsePaymentRequest input (h_priceUsd headers) cid)
    before {| rules := None; fullTrace := Some true |} (now amb).
Let paymentProof : PaymentProof :=
  {| signature := signed; payer := address;
     p_nonce := nonce headers; p_expiry := expiry headers;
     amount := price headers; p_token := token headers;
     p_chainId := chainId headers; txHash := None |}.

Hypothesis probe_resolves : network (sent w) input init = Ret probe.
Hypothesis probe_is_402 : status probe = 402.
Hypothesis challenge_decodes : parse402Headers probe amb = Some headers.
Hypothesis allowed : allow decision = true.
Hypothesis pays : default true (autoPay options) = true.
Hypothesis wallet_signs :
  signPayment (wallet options)
    {| sp_seller := seller headers; sp_amount := price headers;
       sp_token := token headers; sp_chainId := chainId headers;
       sp_nonce := nonce headers; sp_expiry := expiry headers |} = Ret signed.
Hypothesis wallet_answers : getAddress (wallet options) = Ret address.
Hypothesis budget : (0 < Z.to_nat (default 1%Z (maxRetries options)))%nat.
Hypothesis retry_resolves :
  network (Datatypes.S (sent w)) input (ClientProps.paid_init init paymentProof)
  = Ret response.

(** Over the in-memory ledger, a call that pays and whose first paid
    request is answered with an [ok] response raises the caller's daily and
    weekly totals by the USD price of the challenge and the call count by
    one, which is what the next evaluation of the policy reads; a paid
    request answered with another status leaves the totals as they were.
    Either way the decision is in the list of decisions. *)
Theorem paid_call_raises_the_totals (amb1 : Ambient) :
  let run := x402Fetch network parse402Headers input init options amb w in
  let after := fst (mem_getSpendContext cid amb1 (storage (snd run))) in
  (if ok response
   then dailySpentUsd after = (dailySpentUsd before + h_priceUsd headers)%float
        /\ weeklySpentUsd after = (weeklySpentUsd before + h_priceUsd headers)%float
        /\ dailyCallCount after = dailyCallCount before + 1
   else dailySpentUsd after = dailySpentUsd before
        /\ weeklySpentUsd after = weeklySpentUsd before
        /\ dailyCallCount after = dailyCallCount before)
  /\ exists record,
       getDecisions (storage (snd run)) = getDecisions (storage w) ++ [record]
       /\ dec_decision record = decision.
Proof using All.
  cbn zeta.
  set (meta := {| dm_endpoint := endpoint (parsePaymentRequest input (h_priceUsd headers) cid);
                  dm_priceUsd := h_priceUsd headers |}).
  set (pm := {| pm_endpoint := endpoint (parsePaymentRequest input (h_priceUsd headers) cid);
                pm_nonce := nonce headers;
                pm_paymentRef := String.substring 0 16 signed |}).
  set (ledger := snd (mem_getSpendContext cid amb (storage w))).
  set (decided := mem_recordDecision cid decision meta amb ledger).
  assert (Hstorage :
            storage (snd (x402Fetch network parse402Headers input init options amb w))
            = if ok response
              then mem_recordPayment cid (h_priceUsd headers) pm amb decided
              else decided).
  { rewrite (@OrchestratorProps.paid_call_storage _ InMemorySpendStorage InMemory
               network parse402Headers input init options
               amb w probe headers probe_resolves probe_is_402 challenge_decodes
               allowed pays signed address wallet_signs wallet_answers response
               budget retry_resolves).
    reflexivity. }
  rewrite Hstorage. clear Hstorage.
  assert (Hledger : forall amb', fst (mem_getSpendContext cid amb' ledger) = before).
  { intros amb'. subst ledger before. unfold mem_getSpendContext.
    destruct (contexts (storage w) !! cid) eqn:Hctx; cbn [fst snd contexts].
    - by rewrite Hctx.
    - by rewrite lookup_insert_eq. }
  assert (Hdecided : forall amb', fst (mem_getSpendContext cid amb' decided) = before).
  { intros amb'. subst decided.
    rewrite LedgerProps.recordDecision_context. cbn [fst]. apply Hledger. }
  assert (Hdecisions : decisions decided = decisions (storage w)
                                           ++ [{| dec_id := generateId "dec" (now amb) (random_decision amb);
                                                  dec_callerId := cid;
                                                  dec_decision := decision;
                                                  dec_endpoint := dm_endpoint meta;
                                                  dec_priceUsd := dm_priceUsd meta;
                                                  dec_timestamp := now amb |}]).
  { subst decided ledger. unfold mem_recordDecision, mem_getSpendContext.
    by destruct (contexts (storage w) !! cid). }
  destruct (ok response).
  - destruct (LedgerProps.recordPayment_context cid (h_priceUsd headers) pm amb amb amb1
                decided)
      as (Hd & Hw & Hc & _ & _ & Hdec).
    cbn zeta in *. rewrite Hdecided in Hd, Hw, Hc.
    split; [auto|]. unfold getDecisions in *. rewrite Hdec, Hdecisions.
    eexists. split; reflexivity.
  - rewrite Hdecided. split; [auto|]. unfold getDecisions. rewrite Hdecisions.
    eexists. split; reflexivity.
Qed.

End OverTheInMemoryLedger.

(** ** A closed example, on the sample runtime *)

Import SampleRuntime ClientProps.

Definition served_ok : Response :=
  {| status := 200; statusText := "OK";
     resp_headers := [("X-RECEIPT-ID", "rcpt_1")]; resp_body := "done" |}.

(** A network that challenges the probe and serves the paid request. *)
Definition honest_network (n : nat) (_ : URL) (_ : RequestInit) : outcome exn Response :=
  match n with
  | 0%nat => Ret challenge
  | _ => Ret served_ok
  end.

Lemma paid_call_raises_the_totals_witness :
  let run := Client.x402Fetch honest_network sample_decoder tool_url post
               (options_with_cap 0.5) this_instant new_world in
  let after := fst (mem_getSpendContext "agent-123" this_instant (storage (snd run))) in
  dailySpentUsd after = 0.25%float
  /\ weeklySpentUsd after = 0.25%float
  /\ dailyCallCount after = 1.
Proof.
  pose proof (paid_call_raises_the_totals honest_network sample_decoder tool_url post
                (options_with_cap 0.5) this_instant new_world challenge challenge_headers
                "0xfeedbeef" "0xb0b" served_ok eq_refl eq_refl eq_refl) as Hthm.
  specialize (Hthm ltac:(vm_compute; reflexivity) eq_refl eq_refl eq_refl
                ltac:(vm_compute; lia) eq_refl this_instant).
  cbn zeta in Hthm. destruct Hthm as [Htotals _].
  change (ok served_ok) with true in Htotals. cbv iota in Htotals.
  destruct Htotals as (Hd & Hw & Hc). cbn zeta.
  change (callerId (options_with_cap 0.5)) with "agent-123" in Hd, Hw, Hc.
  rewrite Hd, Hw, Hc. vm_compute. repeat split.
Defined.

End SpendingProps.

Module ChainIdProps.
Import JS.

(** The chain id goes through its CAIP-2 text and back: the worker's
    [caip2ToChainId] and the client's return the chain id [chainIdToCAIP2]
    printed, for every integer from 0 to 2^53. On the text of a negative
    number, of NaN or of an infinity, and on any text that is not [eip155:]
    and digits, the worker's throws and the client's returns [0]. *)
Theorem caip2_round_trip :
  (forall z, 0 <= z <= 9007199254740992 ->
     Networks.caip2ToChainId (Worker.chainIdToCAIP2 (Int z)) = Ret (Int z)
     /\ ClientPayment.caip2ToChainId (Worker.chainIdToCAIP2 (Int z)) = Ret (Int z))
  /\ (forall id, (forall z, id = Int z -> z < 0) ->
        Networks.caip2ToChainId (Worker.chainIdToCAIP2 id)
        = Throw ("Invalid EVM CAIP-2 identifier: " +:+ Worker.chainIdToCAIP2 id)
        /\ ClientPayment.caip2ToChainId (Worker.chainIdToCAIP2 id) = Ret (Int 0))
  /\ (forall network, Networks.match_eip155 network = None ->
        Networks.caip2ToChainId network
        = Throw ("Invalid EVM CAIP-2 identifier: " +:+ network)
        /\ ClientPayment.caip2ToChainId network = Ret (Int 0)).
Proof.
  split; [|split].
  - intros z [Hz Hmax].
    destruct (NetworksProps.Z_toString_digits z Hz) as (Hne & Hdig & Hval).
    unfold Networks.caip2ToChainId, ClientPayment.caip2ToChainId,
      Networks.match_eip155, Worker.chainIdToCAIP2.
    cbn [Number_toString].
    change (Worker.drop_prefix "eip155:" ("eip155:" +:+ Z_toString z))
      with (Some (Z_toString z)).
    cbv beta iota. rewrite Hne, Hdig. cbn [andb]. unfold Networks.parseInt_digits.
    rewrite Hval, Z2N.id by exact Hz. unfold safe_integer.
    replace (Z.abs z <=? 9007199254740992) with true
      by (symmetry; apply Z.leb_le; lia).
    split; reflexivity.
  - intros id Hid. destruct id as [z| | |]; [|split; reflexivity..].
    specialize (Hid z eq_refl). destruct z as [|p|p]; try lia. split; reflexivity.
  - intros network Hnone.
    unfold Networks.caip2ToChainId, ClientPayment.caip2ToChainId. rewrite Hnone.
    split; reflexivity.
Qed.


End ChainIdProps.

Module ExpiryProps.
Import JS ClientPayment.

(** The client and the worker read the same expiry differently: the worker
    rejects a proof as expired only once a whole second has passed beyond
    its expiry, the client's [isPaymentExpired] as soon as the clock is past
    it. So whatever the worker rejects as expired the client calls expired
    too, while within the second that follows the expiry the client calls
    expired what the worker still accepts; [secondsUntilExpiry] is zero
    from the second of the expiry on. *)
Theorem expiry_checks_differ_within_a_second pay pricing config amb z :
  Worker.expiry pay = Int z ->
  safe_integer (z * 1000) = true ->
  let now := Worker.now amb in
  (forall result,
     Worker.verifyPayment pay pricing config amb = Ret result ->
     Worker.reason result = Some "Payment has expired" ->
     isPaymentExpired (Int z) now = Ret true)
  /\ (z * 1000 < now < (z + 1) * 1000 ->
        isPaymentExpired (Int z) now = Ret true
        /\ num_lt (Worker.expiry pay) (Int (Worker.unix_seconds amb)) = false)
  /\ (forall s, secondsUntilExpiry (Int z) now = Ret (Int s) ->
        0 <= s /\ (0 < s -> isPaymentExpired (Int z) now = Ret false)
        /\ (s = 0 <-> z <= Worker.unix_seconds amb)).
Proof.
  intros Hexpiry Hsafe now.
  assert (Hclient : isPaymentExpired (Int z) now = Ret (z * 1000 <? now)).
  { unfold isPaymentExpired, times_1000. rewrite Hsafe. reflexivity. }
  rewrite Hclient. unfold Worker.unix_seconds. fold now.
  pose proof (Z.div_mod now 1000 ltac:(lia)) as Hdiv.
  pose proof (Z.mod_pos_bound now 1000 ltac:(lia)) as Hmod.
  split; [|split].
  - intros result Hverify Hreason. f_equal. apply Z.ltb_lt.
    unfold Worker.verifyPayment, BigInt in Hverify. rewrite Hexpiry in Hverify.
    unfold Worker.unix_seconds in Hverify. fold now in Hverify.
    cbn [num_lt] in Hverify.
    destruct (z <? now / 1000) eqn:Hlt; [apply Z.ltb_lt in Hlt; lia|].
    exfalso.
    repeat lazymatch type of Hverify with
    | Ret _ = Ret _ => injection Hverify as <-; discriminate Hreason
    | Throw _ = Ret _ => discriminate Hverify
    | context [StringToBigInt ?s] => destruct (StringToBigInt s); cbn in Hverify
    | (if ?b then _ else _) = _ => destruct b
    end.
  - intros Hwithin. rewrite Hexpiry. cbn [num_lt]. split.
    + f_equal. apply Z.ltb_lt. lia.
    + apply Z.ltb_ge. lia.
  - intros s Hs. unfold secondsUntilExpiry in Hs.
    destruct (safe_integer (z - now / 1000)); [|discriminate].
    injection Hs as <-. split; [lia|]. split.
    + intros Hpos. f_equal. apply Z.ltb_ge. lia.
    + lia.
Qed.


(** ** A closed example: half a second after the expiry of the buyer's proof *)

Import SampleRuntime WorkerProps.

Lemma expiry_checks_differ_within_a_second_witness :
  let amb := at_instant 1800000000500 in
  isPaymentExpired (Int 1800000000) (Worker.now amb) = Ret true
  /\ num_lt (Worker.expiry buyer_payment) (Int (Worker.unix_seconds amb)) = false.
Proof.
  pose proof (expiry_checks_differ_within_a_second buyer_payment quote_pricing shop
                (at_instant 1800000000500) 1800000000 eq_refl eq_refl) as Hthm.
  cbn zeta in Hthm |- *. destruct Hthm as (_ & Hwithin & _).
  apply Hwithin. vm_compute. split; reflexivity.
Defined.

End ExpiryProps.
